(** * A shallow embedding of the contract crawler

    The development follows the four Python modules of the repository:
    [scraper.py] (the recursive crawl controller), [scrape.py] (the
    per-brain scraper with the paginated archive search), [archive.py]
    (the advanced-search client) and [config.py] (the seed lists in
    use).

    Python [str] values are modelled by [string]; every character stands
    for the Unicode code point with the same number, so the model covers
    the code points below 256.  Sets of URLs are [gset string], result
    dictionaries are association lists in insertion order.

    The outside world (HTTP, the local file system, the clock, the HTML,
    PDF, URL and date libraries) enters through one record of oracles,
    [Env.env]; the network and the file system see the events so far, so
    they may answer differently over time.  What a run does is recorded
    as a list of events, newest first.

    The archive client has its own oracles, [Archive.env], and its own
    actions.  The JSON it receives is taken to have the shape the archive
    documents: the documents of a search and the files of an item are
    lists of objects, an identifier is a string, a file's format and name
    are strings or [null], and the number of results is an integer.  Its
    quotient by the page size is formed as Python forms it: the double
    nearest to the quotient, which [math.ceil] then rounds up.  What the
    client prints is not modelled.

    Three things are left out.  A response carries its whole body (a
    stream that breaks while it is read is not modelled).  Writing under
    the JSON output directory and appending to a log always succeed, and
    the directories made when a module is loaded exist; the writes
    inside a [try] block may fail, as the oracle [open_error] decides.
    The export of the summary table at the end of [main] is not
    modelled.

    [get_binary_output_path] (scrape.py) makes the directory of the
    binary payloads each time it is called, outside every [try] block:
    the oracle [makedirs_error] decides whether [os.makedirs] raises, and
    its exception ends the run.  So the functions of scrape.py return,
    with the events so far, how the call ended ([Scrape.outcome]): it
    returned, or it raised.

    Loops that the code bounds only by what the network returns take a
    [fuel] argument.  In scraper.py and archive.py [None] as the outer
    result means that the fuel ran out, and the theorems say how much
    fuel is enough.  In scrape.py the third outcome, [Unfinished], says
    so, and the events are those of the run up to that point: what holds
    of the events for every fuel holds at every stage of a run that never
    ends. *)

From Stdlib Require Import ZArith List String Ascii Bool Lia.
From stdpp Require Import gmap strings list sorting pretty.

Local Open Scope Z_scope.

Set Warnings "-clear-no-such-hyp".

(** ** Python string primitives *)

Module Str.

Definition ord (c : ascii) : N := N_of_ascii c.

Definition between (lo hi : N) (c : ascii) : bool :=
  ((lo <=? ord c) && (ord c <=? hi))%N.

(** [str.isspace] on one character. *)
Definition isspace (c : ascii) : bool :=
  between 9 13 c || between 28 32 c || (ord c =? 133)%N || (ord c =? 160)%N.

(** [str.isalnum] on one character: letters, decimal digits, and the
    characters with a digit or numeric value. *)
Definition isalnum (c : ascii) : bool :=
  between 48 57 c || between 65 90 c || between 97 122 c
  || (ord c =? 170)%N || between 178 179 c || (ord c =? 181)%N
  || between 185 186 c || between 188 190 c
  || between 192 214 c || between 216 246 c || between 248 255 c.

(** [str.lower] on one character. *)
Definition lower_char (c : ascii) : ascii :=
  if between 65 90 c || between 192 214 c || between 216 222 c
  then ascii_of_N (ord c + 32) else c.

Fixpoint lower (s : string) : string :=
  match s with
  | EmptyString => EmptyString
  | String c s' => String (lower_char c) (lower s')
  end.

(** ["".join(c for c in s if p(c))] *)
Fixpoint filter (p : ascii -> bool) (s : string) : string :=
  match s with
  | EmptyString => EmptyString
  | String c s' => if p c then String c (filter p s') else filter p s'
  end.

(** [re.sub] of a one-character class by a fixed character. *)
Fixpoint map (f : ascii -> ascii) (s : string) : string :=
  match s with
  | EmptyString => EmptyString
  | String c s' => String (f c) (map f s')
  end.

Fixpoint all (p : ascii -> bool) (s : string) : bool :=
  match s with
  | EmptyString => true
  | String c s' => p c && all p s'
  end.

Fixpoint lstrip (s : string) : string :=
  match s with
  | EmptyString => EmptyString
  | String c s' => if isspace c then lstrip s' else s
  end.

Fixpoint rstrip (s : string) : string :=
  match s with
  | EmptyString => EmptyString
  | String c s' =>
      match rstrip s' with
      | EmptyString => if isspace c then EmptyString else String c EmptyString
      | r => String c r
      end
  end.

(** [s.strip()] *)
Definition strip (s : string) : string := rstrip (lstrip s).

(** [s.startswith(p)] *)
Definition startswith (p s : string) : bool := String.prefix p s.

(** [sub in s] *)
Fixpoint contains (sub s : string) : bool :=
  String.prefix sub s
  || match s with
     | EmptyString => false
     | String _ s' => contains sub s'
     end.

(** [s.endswith(suf)] *)
Fixpoint endswith (suf s : string) : bool :=
  String.eqb suf s
  || match s with
     | EmptyString => false
     | String _ s' => endswith suf s'
     end.

(** [s[:n]] *)
Fixpoint take (n : nat) (s : string) : string :=
  match n, s with
  | S n', String c s' => String c (take n' s')
  | _, _ => EmptyString
  end.

(** [x or d] for strings: the empty string is falsy. *)
Definition or_else (x d : string) : string :=
  match x with EmptyString => d | _ => x end.

(** [c in s] for a one-character [c]. *)
Fixpoint mem (c : ascii) (s : string) : bool :=
  match s with
  | EmptyString => false
  | String d s' => Ascii.eqb c d || mem c s'
  end.

(** [s.replace(a, b)] for one-character [a] and [b]. *)
Definition replace_char (a b : ascii) (s : string) : string :=
  map (fun c => if Ascii.eqb c a then b else c) s.

(** [s.split(c)[0]]: the text before the first [c]. *)
Fixpoint before_char (c : ascii) (s : string) : string :=
  match s with
  | EmptyString => EmptyString
  | String d s' => if Ascii.eqb d c then EmptyString else String d (before_char c s')
  end.

(** [sep.join(l)] *)
Definition join (sep : string) (l : list string) : string := String.concat sep l.

(** If [s = p ++ r] then [Some r]. *)
Fixpoint drop_prefix (p s : string) : option string :=
  match p, s with
  | EmptyString, _ => Some s
  | String a p', String b s' => if Ascii.eqb a b then drop_prefix p' s' else None
  | String _ _, EmptyString => None
  end.

(** The characters at which [str.splitlines] breaks a line. *)
Definition is_linebreak (c : ascii) : bool :=
  between 10 13 c || between 28 30 c || (ord c =? 133)%N.

(** [s.splitlines()]; [after_cr] makes a line feed that follows a
    carriage return part of the same line break. *)
Fixpoint splitlines_go (after_cr : bool) (cur : string) (s : string) : list string :=
  match s with
  | EmptyString => match cur with EmptyString => [] | _ => [cur] end
  | String c s' =>
      if after_cr && (ord c =? 10)%N then splitlines_go false cur s'
      else if is_linebreak c then cur :: splitlines_go (ord c =? 13)%N EmptyString s'
      else splitlines_go false (cur ++ String c EmptyString) s'
  end.

Definition splitlines (s : string) : list string := splitlines_go false EmptyString s.

(** The one-character strings of the newline and the double quote. *)
Definition nl : string := String (ascii_of_N 10) EmptyString.
Definition dq : string := String (ascii_of_N 34) EmptyString.

(** [posixpath.join(a, b)] *)
Definition path_join (a b : string) : string :=
  if startswith "/" b then b
  else match a with
       | EmptyString => b
       | _ => if endswith "/" a then a ++ b else a ++ "/" ++ b
       end.

(** [posixpath.basename(p)]: the text after the last slash. *)
Fixpoint basename (p : string) : string :=
  match p with
  | EmptyString => EmptyString
  | String c p' => if contains "/" p then basename p' else p
  end.

End Str.

(** ** Parsed HTML, as BeautifulSoup presents it *)

Module Soup.

(** A parse tree: text nodes and elements with their attributes.  The
    parser has already lower-cased element and attribute names. *)
#[warnings="-register-all"]
Inductive node : Type :=
| Text (s : string)
| Elem (name : string) (attrs : list (string * string)) (children : list node).

(** The text nodes below a node, in document order. *)
Fixpoint strings (n : node) : list string :=
  match n with
  | Text s => [s]
  | Elem _ _ cs => List.flat_map strings cs
  end.

(** [tag.get_text(separator=sep)] *)
Definition get_text (sep : string) (n : node) : string :=
  Str.join sep (strings n).

(** [soup.get_text(separator=sep)] for the whole document. *)
Definition doc_text (sep : string) (doc : list node) : string :=
  Str.join sep (List.flat_map strings doc).

(** An element followed by the elements below it, in document order. *)
Fixpoint elems (n : node) : list node :=
  match n with
  | Text _ => []
  | Elem _ _ cs => n :: List.flat_map elems cs
  end.

(** [soup.descendants], restricted to elements. *)
Definition descendants (doc : list node) : list node := List.flat_map elems doc.

Definition name_of (n : node) : string :=
  match n with Text _ => EmptyString | Elem nm _ _ => nm end.

(** [tag.get(key)]: the value of an attribute, if the tag has it. *)
Definition attr (key : string) (n : node) : option string :=
  match n with
  | Text _ => None
  | Elem _ attrs _ => snd <$> List.find (fun kv => String.eqb (fst kv) key) attrs
  end.

Definition named (names : list string) (n : node) : bool :=
  List.existsb (String.eqb (name_of n)) names.

(** [soup.find_all(names, limit=k)] *)
Definition find_all (names : list string) (limit : option nat) (doc : list node)
  : list node :=
  let hits := List.filter (named names) (descendants doc) in
  match limit with
  | Some k => List.firstn k hits
  | None => hits
  end.

(** [soup.find(name)] *)
Definition find (name : string) (doc : list node) : option node :=
  List.find (named [name]) (descendants doc).

(** [soup.find(name, attrs={key: value})] *)
Definition find_with_attr (name key value : string) (doc : list node) : option node :=
  List.find
    (fun n => named [name] n
              && match attr key n with Some v => String.eqb v value | None => false end)
    (descendants doc).

(** [soup.find_all("a", href=True)] *)
Definition links (doc : list node) : list node :=
  List.filter
    (fun n => named ["a"] n && match attr "href" n with Some _ => true | None => false end)
    (descendants doc).

(** The tree without the elements called [names] (and what they hold). *)
Fixpoint prune (names : list string) (n : node) : node :=
  match n with
  | Text s => Text s
  | Elem nm attrs cs =>
      Elem nm attrs
        (List.filter (fun c => negb (named names c)) (List.map (prune names) cs))
  end.

(** [for s in soup(names): s.decompose()] *)
Definition decompose (names : list string) (doc : list node) : list node :=
  List.filter (fun c => negb (named names c)) (List.map (prune names) doc).

End Soup.

(** ** Python values and [json.dumps] *)

Module Json.

(** The values that occur in the crawler's result dictionaries. *)
Inductive pyval : Type :=
| PNone
| PBool (b : bool)
| PInt (z : Z)
| PStr (s : string)
| PList (l : list string).

(** A [dict] with string keys, in insertion order. *)
Definition dict : Type := list (string * pyval).

(** [d[k] = v]: an existing key keeps its place, a new key goes last. *)
Fixpoint set (k : string) (v : pyval) (d : dict) : dict :=
  match d with
  | [] => [(k, v)]
  | (k', v') :: d' => if String.eqb k' k then (k, v) :: d' else (k', v') :: set k v d'
  end.

(** [d.get(k)] *)
Fixpoint get (k : string) (d : dict) : pyval :=
  match d with
  | [] => PNone
  | (k', v') :: d' => if String.eqb k' k then v' else get k d'
  end.

(** [d[k] or dflt] for a key that holds [None] or a string. *)
Definition get_str_or (k : string) (dflt : string) (d : dict) : string :=
  match get k d with
  | PStr s => Str.or_else s dflt
  | _ => dflt
  end.

Definition hex_digit (n : N) : ascii :=
  ascii_of_N (if (n <? 10)%N then 48 + n else 87 + n).

(** The encoder's escape table with [ensure_ascii=False]: the quote, the
    backslash and the control characters are escaped, nothing else. *)
Definition escape_char (c : ascii) : string :=
  let n := Str.ord c in
  if (n =? 34)%N then "\" +:+ Str.dq
  else if (n =? 92)%N then "\\"
  else if (n =? 10)%N then "\n"
  else if (n =? 13)%N then "\r"
  else if (n =? 9)%N then "\t"
  else if (n =? 8)%N then "\b"
  else if (n =? 12)%N then "\f"
  else if (n <? 32)%N then
    "\u00" +:+ String (hex_digit (n / 16)) (String (hex_digit (n mod 16)) EmptyString)
  else String c EmptyString.

Fixpoint escape (s : string) : string :=
  match s with
  | EmptyString => EmptyString
  | String c s' => escape_char c +:+ escape s'
  end.

Definition dumps_str (s : string) : string := Str.dq +:+ escape s +:+ Str.dq.

(** One value; [sep] separates list items and [open]/[close] surround a
    non-empty list's items (they carry the indentation when there is one). *)
Definition dumps_val (sep open close : string) (v : pyval) : string :=
  match v with
  | PNone => "null"
  | PBool true => "true"
  | PBool false => "false"
  | PInt z => pretty z
  | PStr s => dumps_str s
  | PList [] => "[]"
  | PList l => "[" +:+ open +:+ Str.join sep (List.map dumps_str l) +:+ close +:+ "]"
  end.

(** [json.dumps(d, ensure_ascii=False)] *)
Definition dumps (d : dict) : string :=
  match d with
  | [] => "{}"
  | _ =>
      "{" +:+ Str.join ", "
               (List.map (fun kv => dumps_str (fst kv) +:+ ": "
                                    +:+ dumps_val ", " EmptyString EmptyString (snd kv)) d)
          +:+ "}"
  end.

(** [json.dumps(d, ensure_ascii=False, indent=2)] *)
Definition dumps_indent2 (d : dict) : string :=
  match d with
  | [] => "{}"
  | _ =>
      "{" +:+ Str.nl +:+ "  "
          +:+ Str.join ("," +:+ Str.nl +:+ "  ")
               (List.map
                  (fun kv => dumps_str (fst kv) +:+ ": "
                             +:+ dumps_val ("," +:+ Str.nl +:+ "    ") (Str.nl +:+ "    ")
                                  (Str.nl +:+ "  ") (snd kv)) d)
          +:+ Str.nl +:+ "}"
  end.

Definition of_option (o : option string) : pyval :=
  match o with Some s => PStr s | None => PNone end.

End Json.

(** ** The outside world *)

Module Env.

(** What a run does to the world, newest event first. *)
Inductive event : Type :=
| EvInfo (depth : nat) (url : string)     (* logging.info: a task starts *)
| EvGet (url : string) (attempt : nat)    (* an HTTP GET is issued *)
| EvWarn (url : string) (attempt : nat)   (* logging.warning: the GET failed *)
| EvGiveUp (url : string)                 (* logging.error: no attempt is left *)
| EvExc (what msg : string)               (* logging.exception *)
| EvSleep (ms : Z)                        (* time.sleep, in milliseconds *)
| EvWrite (path data : string)            (* a file is opened for writing and written *)
| EvAppend (path data : string)           (* a file is opened for appending and written *)
| EvMkdir (path : string).                (* os.makedirs(path, exist_ok=True) returned *)

(** A [requests.Response]. *)
Record response : Type := {
  resp_status : Z;                      (* status_code *)
  resp_url : string;                    (* url, after redirects *)
  resp_content_type : option string;    (* headers.get("content-type") *)
  resp_text : string;                   (* text *)
  resp_content : string                 (* content, the raw bytes *)
}.

(** What [urlparse] returns, as far as the crawler reads it. *)
Record url_parts : Type := {
  scheme : string;
  netloc : string;
  path : string;
  query : string
}.

(** The libraries and the environment.  The network and the file system
    may answer differently over time: they see the events so far. *)
Record env : Type := {
  (* a GET that follows redirects; [None] when the call raises *)
  http_get : list event -> string -> option response;
  (* [Some msg] when opening this path for writing raises [OSError(msg)] *)
  open_error : list event -> string -> option string;
  (* [Some msg] when [os.makedirs(path, exist_ok=True)] raises [OSError(msg)] *)
  makedirs_error : list event -> string -> option string;
  (* pdfminer's [extract_text] on a file's bytes; [None] when it raises *)
  pdf_extract : string -> option string;
  (* [BeautifulSoup(html, "html.parser")] *)
  parse_html : string -> list Soup.node;
  urlparse : string -> url_parts;
  urljoin : string -> string -> string;
  (* [dateparser.parse(s).isoformat()]; [None] when it raises *)
  dateparse : string -> option string;
  (* [datetime.utcnow().isoformat()] *)
  utcnow : list event -> string;
  (* [mimetypes.guess_extension] *)
  guess_extension : string -> option string
}.

(** [Response.raise_for_status] raises on the 4xx and 5xx codes, and a
    response is truthy ([Response.ok]) exactly when it would not raise. *)
Definition ok (r : response) : bool := negb ((400 <=? resp_status r) && (resp_status r <? 600)).

(** [open(path, "w")] (or ["wb"]) followed by the write: the error
    message when the file cannot be opened. *)
Definition write_file (E : env) (path data : string) (tr : list event)
  : list event * option string :=
  match open_error E tr path with
  | Some msg => (tr, Some msg)
  | None => (EvWrite path data :: tr, None)
  end.

(** The contents of the file [path] after the events [tr]. *)
Fixpoint file_contents (path : string) (tr : list event) : option string :=
  match tr with
  | [] => None
  | EvWrite p d :: tr' => if String.eqb p path then Some d else file_contents path tr'
  | EvAppend p d :: tr' =>
      if String.eqb p path
      then Some (default EmptyString (file_contents path tr') +:+ d)
      else file_contents path tr'
  | _ :: tr' => file_contents path tr'
  end.

End Env.

(** ** scraper.py: the recursive crawl controller *)

Module Scraper.

Import Env Json.

Definition DOWNLOAD_DIR : string := "downloads".
Definition EXTRACT_DIR : string := "extracted".
Definition JSON_OUT_DIR : string := "json_output".
Definition COMBINED_JSONL : string := Str.path_join JSON_OUT_DIR "combined.jsonl".
Definition REQUEST_RETRIES : nat := 3.
Definition SLEEP_BETWEEN_REQUESTS : Z := 800.
Definition FOLLOW_LINKS : bool := true.
Definition MAX_CRAWL_DEPTH : nat := 2.
Definition MAX_LINKS_PER_PAGE : nat := 20.
Definition FOLLOW_SAME_DOMAIN_ONLY : bool := false.

(** The crawl state: the shared [visited] set and the events so far. *)
Record world : Type := { visited : gset string; trace : list event }.

Section WithEnv.

Variable E : env.

(** [safe_get]: attempt [i] of the loop, with [n] attempts left.  A
    failed attempt is logged and followed by a pause of [1 + 2 i] seconds. *)
Fixpoint safe_get_from (i n : nat) (url : string) (tr : list event)
  : list event * option response :=
  match n with
  | O => (EvGiveUp url :: tr, None)
  | S n' =>
      let retry :=
        safe_get_from (S i) n' url
          (EvSleep (1000 * (1 + Z.of_nat i * 2)) :: EvWarn url (S i) :: EvGet url i :: tr) in
      match http_get E tr url with
      | Some r => if ok r then (EvGet url i :: tr, Some r) else retry
      | None => retry
      end
  end.

Definition safe_get (url : string) (tr : list event) : list event * option response :=
  safe_get_from 0 REQUEST_RETRIES url tr.

Definition is_pdf_response (resp : option response) (url : string) : bool :=
  match resp with
  | None => false
  | Some r =>
      if negb (ok r) then false
      else if Str.contains "pdf" (Str.lower (default EmptyString (resp_content_type r)))
      then true
      else if Str.endswith ".pdf" (Str.lower url) then true
      else false
  end.

(** The class [[0-9A-Za-z._-]] of the sanitising substitution. *)
Definition is_name_char (c : ascii) : bool :=
  Str.between 48 57 c || Str.between 65 90 c || Str.between 97 122 c || Str.mem c "._-".

Definition make_filename_from_url (url : string) : string :=
  let parsed := urlparse E url in
  let name := netloc parsed +:+ path parsed in
  let name :=
    match query parsed with
    | EmptyString => name
    | q => name +:+ "_" +:+ q
    end in
  let name := Str.map (fun c => if is_name_char c then c else "_"%char) name in
  if (200 <? String.length name)%nat then Str.take 200 name else name.

(** [extract_text_from_pdf]: pdfminer reads the file back from disk; a
    failure is logged and gives the empty text. *)
Definition extract_text_from_pdf (path : string) (tr : list event)
  : list event * string :=
  match file_contents path tr ≫= pdf_extract E with
  | Some text => (tr, text)
  | None => (EvExc path "PDF extraction failed" :: tr, EmptyString)
  end.

(** One round of the loop over the candidate blocks. *)
Definition best_step (acc : option string * nat) (c : Soup.node) : option string * nat :=
  let text := Str.strip (Soup.get_text EmptyString c) in
  let ln := String.length text in
  if (snd acc <? ln)%nat then (Some text, ln) else acc.

Definition extract_main_article_text (doc : list Soup.node) : string :=
  match Soup.find "article" doc with
  | Some article => Soup.get_text EmptyString article
  | None =>
  match Soup.find "main" doc with
  | Some main => Soup.get_text EmptyString main
  | None =>
      let candidates := Soup.find_all ["div"; "section"; "article"; "body"] (Some 40%nat) doc in
      let '(best, best_len) := fold_left best_step candidates (None, 0%nat) in
      if (200 <? best_len)%nat then default EmptyString best
      else
        let ps := Soup.find_all ["p"] None doc in
        let texts :=
          List.filter (fun t => negb (String.eqb t EmptyString))
            (List.map (fun p => Str.strip (Soup.get_text EmptyString p)) ps) in
        match ps, texts with
        | _ :: _, _ :: _ => Str.join EmptyString (firstn 50 texts)
        | _, _ => Soup.doc_text EmptyString doc
        end
  end
  end.

Definition extract_text_from_html (html : string) : string * string :=
  let soup := Soup.decompose ["script"; "style"; "noscript"] (parse_html E html) in
  let full_text := Soup.doc_text EmptyString soup in
  let article_text := extract_main_article_text soup in
  (Str.strip full_text, Str.strip article_text).

(** A group [[^/]+] and the slash after it: a non-empty run without
    slash. *)
Definition segment (s : string) : option (string * string) :=
  let seg := Str.before_char "/" s in
  match seg with
  | EmptyString => None
  | _ => rest ← Str.drop_prefix (seg +:+ "/") s; Some (seg, rest)
  end.

(** [.]: any character but the newline. *)
Definition any_char (s : string) : option string :=
  match s with
  | EmptyString => None
  | String c s' => if (Str.ord c =? 10)%N then None else Some s'
  end.

(** The last group and the end anchor: the rest of the text when it
    holds no newline, one final newline apart. *)
Definition rest_of_line (s : string) : option string :=
  let p := Str.before_char (ascii_of_N 10) s in
  if String.eqb s p || String.eqb s (p +:+ Str.nl) then Some p else None.

(** The groups of the blob pattern matched at the start of [url]:
    [http], an optional [s], [://github], any character, [com/], then
    user, repository, [blob] and branch as slash-terminated segments, and
    the rest of the line as the path. *)
Definition blob_groups (url : string) : option (string * string * string * string) :=
  r0 ← Str.drop_prefix "http" url;
  r1 ← Some (default r0 (Str.drop_prefix "s" r0));
  r2 ← Str.drop_prefix "://github" r1;
  r3 ← any_char r2;
  r4 ← Str.drop_prefix "com/" r3;
  '(user, r5) ← segment r4;
  '(repo, r6) ← segment r5;
  r7 ← Str.drop_prefix "blob/" r6;
  '(branch, r8) ← segment r7;
  path ← rest_of_line r8;
  Some (user, repo, branch, path).

Definition github_blob_to_raw (url : string) : string :=
  match blob_groups url with
  | Some (user, repo, branch, path) =>
      "https://raw.githubusercontent.com/" +:+ user +:+ "/" +:+ repo +:+ "/"
        +:+ branch +:+ "/" +:+ path
  | None => url
  end.

(** De-duplication that keeps the first occurrence. *)
Fixpoint dedup (seen : gset string) (l : list string) : list string :=
  match l with
  | [] => []
  | u :: l' =>
      if bool_decide (u ∈ seen) then dedup seen l' else u :: dedup ({[u]} ∪ seen) l'
  end.

Definition discover_links (html base_url : string) : list string :=
  let found :=
    omap (fun a =>
            let href := Str.strip (default EmptyString (Soup.attr "href" a)) in
            if Str.startswith "#" href || Str.startswith "javascript:" (Str.lower href)
            then None
            else Some (urljoin E base_url href))
         (Soup.links (parse_html E html)) in
  dedup ∅ found.

Definition within_domain (root candidate : string) : bool :=
  if negb FOLLOW_SAME_DOMAIN_ONLY then true
  else String.eqb (netloc (urlparse E root)) (netloc (urlparse E candidate)).

(** [root_url or url] *)
Definition root_or (root_url : option string) (url : string) : string :=
  match root_url with
  | Some r => Str.or_else r url
  | None => url
  end.

(** The result dictionary a task starts from. *)
Definition new_result (url : string) (root_url : option string) : dict :=
  [ ("source_url", PStr url); ("root_url", PStr (root_or root_url url));
    ("fetched_url", PNone); ("local_path", PNone); ("downloaded", PBool false);
    ("content_type", PNone); ("status_code", PNone); ("title", PNone);
    ("published", PNone); ("full_text_path", PNone); ("article_text_path", PNone);
    ("article_text", PNone); ("full_text", PNone); ("error", PNone);
    ("discovered_links", PList []) ].

(** The file name with [ext] appended unless it ends in it already. *)
Definition with_ext (ext fname : string) : string :=
  if Str.endswith ext (Str.lower fname) then fname else fname +:+ ext.

(** The PDF branch of the [try] block: the events, the result, and the
    message of the exception that ended it, if one did. *)
Definition pdf_branch (resp : response) (tr : list event) (result : dict)
  : list event * dict * option string :=
  let fname := with_ext ".pdf" (make_filename_from_url (resp_url resp)) in
  let local_path := Str.path_join DOWNLOAD_DIR fname in
  match write_file E local_path (resp_content resp) tr with
  | (tr, Some e) => (tr, result, Some e)
  | (tr, None) =>
      let result := set "local_path" (PStr local_path) result in
      let result := set "downloaded" (PBool true) result in
      let '(tr, text) := extract_text_from_pdf local_path tr in
      let txt_path := Str.path_join EXTRACT_DIR (Str.basename local_path +:+ ".txt") in
      match write_file E txt_path text tr with
      | (tr, Some e) => (tr, result, Some e)
      | (tr, None) =>
          let result := set "full_text_path" (PStr txt_path) result in
          let result := set "full_text" (PStr text) result in
          (tr, result, None)
      end
  end.

(** The [meta] tags searched for a publication date, in order. *)
Definition META_DATE_TAGS : list (string * string) :=
  [ ("property", "article:published_time"); ("name", "date");
    ("name", "publication_date"); ("name", "pubdate") ].

(** The loop over the [meta] tags: the value of [published] and whether
    the loop was left by [break].  A date that does not parse is kept raw
    and the loop goes on. *)
Fixpoint published_meta (doc : list Soup.node) (tags : list (string * string))
  (cur : option string) : option string * bool :=
  match tags with
  | [] => (cur, false)
  | (k, v) :: rest =>
      match Soup.find_with_attr "meta" k v doc ≫= Soup.attr "content" with
      | Some (String _ _ as content) =>
          match dateparse E content with
          | Some iso => (Some iso, true)
          | None => published_meta doc rest (Some content)
          end
      | _ => published_meta doc rest cur
      end
  end.

(** The last round of the loop, on the first [time] element. *)
Definition published_time (doc : list Soup.node) (cur : option string) : option string :=
  match Soup.find "time" doc with
  | None => cur
  | Some t =>
      match Soup.attr "datetime" t with
      | Some (String _ _ as d) =>
          match dateparse E d with Some iso => Some iso | None => cur end
      | _ =>
          match Str.strip (Soup.get_text EmptyString t) with
          | EmptyString => cur
          | txt => Some txt
          end
      end
  end.

Definition published (doc : list Soup.node) : option string :=
  match published_meta doc META_DATE_TAGS None with
  | (cur, true) => cur
  | (cur, false) => published_time doc cur
  end.

(** The HTML branch up to the discovery of links: the events, the
    result, and either the exception's message or the links found. *)
Definition html_branch (resp : response) (tr : list event) (result : dict)
  : list event * dict * (string + list string) :=
  let html := resp_text resp in
  let fname := with_ext ".html" (make_filename_from_url (resp_url resp)) in
  let local_path := Str.path_join DOWNLOAD_DIR fname in
  match write_file E local_path html tr with
  | (tr, Some e) => (tr, result, inl e)
  | (tr, None) =>
  let result := set "local_path" (PStr local_path) result in
  let result := set "downloaded" (PBool true) result in
  let '(full_text, article_text) := extract_text_from_html html in
  let txt_path := Str.path_join EXTRACT_DIR (Str.basename local_path +:+ ".txt") in
  match write_file E txt_path full_text tr with
  | (tr, Some e) => (tr, result, inl e)
  | (tr, None) =>
  let result := set "full_text_path" (PStr txt_path) result in
  let result := set "full_text" (PStr full_text) result in
  let art_path := Str.path_join EXTRACT_DIR (Str.basename local_path +:+ ".article.txt") in
  match write_file E art_path article_text tr with
  | (tr, Some e) => (tr, result, inl e)
  | (tr, None) =>
  let result := set "article_text_path" (PStr art_path) result in
  let result := set "article_text" (PStr article_text) result in
  let soup := parse_html E html in
  let result :=
    match Soup.find "title" soup with
    | Some title_tag =>
        set "title" (PStr (Str.strip (Soup.get_text EmptyString title_tag))) result
    | None => result
    end in
  let result :=
    match published soup with
    | Some d => set "published" (PStr d) result
    | None => result
    end in
  let links := discover_links html (resp_url resp) in
  let result := set "discovered_links" (PList (firstn MAX_LINKS_PER_PAGE links)) result in
  (tr, result, inr links)
  end end end.

Definition BINARY_EXTENSIONS : list string := [".jpg"; ".png"; ".zip"; ".exe"].

Definition pause (w : world) : world :=
  {| visited := visited w; trace := EvSleep SLEEP_BETWEEN_REQUESTS :: trace w |}.

(** The loop over the links of a page; [recurse] is [process_url] one
    level down, and [None] means that it ran out of fuel. *)
Fixpoint follow_links (recurse : string -> world -> option (world * option dict))
  (root : string) (links : list string) (children : list dict) (w : world)
  : option (world * list dict) :=
  match links with
  | [] => Some (w, children)
  | link :: rest =>
      if negb (within_domain root link) then follow_links recurse root rest children w
      else if existsb (fun ext => Str.endswith ext (Str.lower link)) BINARY_EXTENSIONS
      then follow_links recurse root rest children w
      else
        match recurse link (pause w) with
        | None => None
        | Some (w', Some ((_ :: _) as child_res)) =>
            follow_links recurse root rest (children ++ [child_res]) w'
        | Some (w', _) => follow_links recurse root rest children w'
        end
  end.

(** The per-source JSON file, the line of the combined log, and the
    closing pause. *)
Definition persist (url : string) (result : dict) (tr : list event) : list event :=
  let basename := make_filename_from_url (get_str_or "fetched_url" url result) in
  let json_path := Str.path_join JSON_OUT_DIR (basename +:+ ".json") in
  EvSleep SLEEP_BETWEEN_REQUESTS
    :: EvAppend COMBINED_JSONL (dumps result +:+ EmptyString)
    :: EvWrite json_path (dumps_indent2 result) :: tr.

(** The [except] clause of the task. *)
Definition handle (url : string) (err : option string) (w : world) (result : dict)
  : world * dict :=
  match err with
  | Some e =>
      ({| visited := visited w; trace := EvExc url e :: trace w |},
       set "error" (PStr e) result)
  | None => (w, result)
  end.

(** The request URL of a task: a GitHub blob view is fetched raw. *)
Definition request_url (url : string) : string :=
  if Str.contains "github.com" url && Str.contains "/blob/" url
  then github_blob_to_raw url else url.

(** The body of [process_url]; [recurse] is [process_url] itself, for
    the links of the page. *)
Definition process_url_body
  (recurse : string -> option string -> nat -> world -> option (world * option dict))
  (url : string) (root_url : option string) (depth : nat) (w : world)
  : option (world * option dict) :=
  if bool_decide (url ∈ visited w) then Some (w, None)
  else
  let vis := {[url]} ∪ visited w in
  let tr := EvInfo depth url :: trace w in
  let result := new_result url root_url in
  let url := request_url url in
  match safe_get url tr with
  | (tr, None) =>
      Some ({| visited := vis; trace := tr |}, Some (set "error" (PStr "failed_to_fetch") result))
  | (tr, Some resp) =>
  let result := set "status_code" (PInt (resp_status resp)) result in
  let result := set "fetched_url" (PStr (resp_url resp)) result in
  let ct := Str.lower (default EmptyString (resp_content_type resp)) in
  let result := set "content_type" (PStr ct) result in
  let tried : option (world * dict * option string) :=
    if is_pdf_response (Some resp) url then
      let '(tr, result, err) := pdf_branch resp tr result in
      Some ({| visited := vis; trace := tr |}, result, err)
    else
      match html_branch resp tr result with
      | (tr, result, inl e) => Some ({| visited := vis; trace := tr |}, result, Some e)
      | (tr, result, inr links) =>
          let w := {| visited := vis; trace := tr |} in
          if FOLLOW_LINKS && (depth <? MAX_CRAWL_DEPTH)%nat then
            let root := get_str_or "root_url" EmptyString result in
            match follow_links (fun link w => recurse link (Some root) (S depth) w)
                    root (firstn MAX_LINKS_PER_PAGE links) [] w with
            | None => None
            | Some (w, children) =>
                Some (w, set "children_count" (PInt (Z.of_nat (length children))) result, None)
            end
          else Some (w, result, None)
      end in
  match tried with
  | None => None
  | Some (w, result, err) =>
      let '(w, result) := handle url err w result in
      Some ({| visited := visited w; trace := persist url result (trace w) |}, Some result)
  end
  end.

(** [process_url(url, root_url, depth, visited)].  The callers in this
    module always pass the [visited] set, which lives in the world; the
    outer [None] is the model running out of [fuel], the inner one the
    Python [None] returned for a URL already visited. *)
Fixpoint process_url (fuel : nat) (url : string) (root_url : option string)
  (depth : nat) (w : world) : option (world * option dict) :=
  match fuel with
  | O => None
  | S fuel' => process_url_body (process_url fuel') url root_url depth w
  end.

(** The loop of [main] over the seed URLs. *)
Fixpoint main_loop (fuel : nat) (urls : list string) (all_results : list dict) (w : world)
  : option (world * list dict) :=
  match urls with
  | [] => Some (w, all_results)
  | u :: rest =>
      match process_url fuel u (Some u) 0 w with
      | None => None
      | Some (w', Some ((_ :: _) as res)) => main_loop fuel rest (all_results ++ [res]) w'
      | Some (w', _) => main_loop fuel rest all_results w'
      end
  end.

(** [main(urls)] up to the export of the summary table: one visited set
    for all seeds. *)
Definition main (fuel : nat) (urls : list string) : option (world * list dict) :=
  main_loop fuel urls [] {| visited := ∅; trace := [] |}.

End WithEnv.

End Scraper.

(** ** config.py: the seed lists in use *)

Module Config.

Definition BRAINS : list (string * list string) :=
  [ ("nda_brain",
     [ "https://onenda.org/";
       "https://archive.org/search?query=non-disclosure+agreement" ]);
    ("msa_brain", [ "https://archive.org/search?query=%22service+agreement%22" ]);
    ("investigation_brain", []);
    ("case_intelligence_brain", []);
    ("new_york_module", []) ].

End Config.

(** ** scrape.py: the per-brain scraper and the paginated search *)

Module Scrape.

Import Env Json.

Definition BASE_OUTPUT_DIR : string := "legal_rag_data".

Definition safe_filename (s : string) : string :=
  Str.or_else
    (Str.strip (Str.filter (fun c => Str.isalnum c || Str.mem c "-_.+=") s))
    "file".

(** [sorted(set(l))] *)
Definition sorted_set (l : list string) : list string :=
  merge_sort String.le (remove_dups l).

(** How a call ends: it returns, it raises [OSError(msg)], or the model
    ran out of fuel before the call ended. *)
Inductive outcome : Type :=
| Returned
| Raised (msg : string)
| Unfinished.

Section WithEnv.

Variable E : env.

Definition get_extension_from_content_type (ct : string) : string :=
  match ct with
  | EmptyString => ".bin"
  | _ =>
      let ct := Str.lower (Str.strip (Str.before_char ";" ct)) in
      if Str.contains "html" ct then ".html"
      else if Str.contains "pdf" ct then ".pdf"
      else if Str.contains "json" ct then ".json"
      else Str.or_else (default EmptyString (guess_extension E ct)) ".bin"
  end.

(** [fetch]: one GET, no retry; any failure gives [None]. *)
Definition fetch (url : string) (tr : list event) : list event * option response :=
  (EvGet url 0 :: tr,
   match http_get E tr url with
   | Some r => if ok r then Some r else None
   | None => None
   end).

Definition html_to_text (html : string) : string :=
  let soup := Soup.decompose ["script"; "style"; "noscript"] (parse_html E html) in
  let text := Soup.doc_text Str.nl soup in
  let lines := List.map Str.strip (Str.splitlines text) in
  let lines := List.filter (fun line => negb (String.eqb line EmptyString)) lines in
  Str.join Str.nl lines.

Definition get_domain (url : string) : string := netloc (urlparse E url).

(** The file name of [get_binary_output_path]. *)
Definition binary_filename (url ext : string) : string :=
  let parsed := urlparse E url in
  let domain := Str.or_else (Str.replace_char ":" "_" (netloc parsed)) "unknown_domain" in
  let path_part := Str.or_else (path parsed) "index" in
  let path_part := if Str.endswith "/" path_part then path_part +:+ "index" else path_part in
  let path_part := Str.or_else (Str.replace_char "/" "_" path_part) "file" in
  safe_filename (domain +:+ "_" +:+ path_part +:+ ext).

(** The directory of the binary payloads of a brain. *)
Definition binary_output_dir (brain : string) : string :=
  Str.path_join (Str.path_join BASE_OUTPUT_DIR brain) "raw_files".

(** [get_binary_output_path] makes the directory before it returns the
    path: the path, or the message of the [OSError] of [os.makedirs]. *)
Definition get_binary_output_path (brain url ext : string) (tr : list event)
  : list event * (string + string) :=
  let out_dir := binary_output_dir brain in
  match makedirs_error E tr out_dir with
  | Some msg => (tr, inr msg)
  | None => (EvMkdir out_dir :: tr, inl (Str.path_join out_dir (binary_filename url ext)))
  end.

Definition append_jsonl_record (brain : string) (record : dict) (tr : list event)
  : list event :=
  let jsonl_path := Str.path_join BASE_OUTPUT_DIR (brain +:+ ".jsonl") in
  EvAppend jsonl_path (dumps record +:+ Str.nl) :: tr.

Definition is_archive_search (url : string) : bool :=
  let parsed := urlparse E url in
  String.eqb (netloc parsed) "archive.org" && String.eqb (path parsed) "/search".

(** The test for an HTML response. *)
Definition looks_like_html (ct : string) (resp : response) : bool :=
  Str.contains "text/html" ct
  || Str.contains "<html" (Str.lower (Str.take 500 (resp_text resp))).

(** [datetime.utcnow().isoformat() + "Z"] *)
Definition now (tr : list event) : string := utcnow E tr +:+ "Z".

Definition header_ct (resp : response) : string :=
  Str.lower (default EmptyString (resp_content_type resp)).

(** Saving a payload as a binary file and recording the outcome: the
    call of [get_binary_output_path], which is outside the [try] block,
    and the [try] block that follows it; [more] are the entries after
    [fetched_at] of the record of a success or after
    [content_type_header] of a failure. *)
Definition save_binary (brain url domain ct ts ext : string) (resp : response)
  (err_prefix : string) (ok_more err_more : dict) (tr : list event)
  : list event * outcome :=
  match get_binary_output_path brain url ext tr with
  | (tr, inr msg) => (tr, Raised msg)
  | (tr, inl out_path) =>
      match write_file E out_path (resp_content resp) tr with
      | (tr, None) =>
          (append_jsonl_record brain
             ([ ("brain", PStr brain); ("url", PStr url); ("domain", PStr domain);
                ("status", PStr "ok"); ("type", PStr "binary");
                ("content_type_header", PStr ct); ("fetched_at", PStr ts);
                ("file_path", PStr out_path) ] ++ ok_more) tr,
           Returned)
      | (tr, Some e) =>
          (append_jsonl_record brain
             ([ ("brain", PStr brain); ("url", PStr url); ("domain", PStr domain);
                ("status", PStr "error"); ("error", PStr (err_prefix +:+ ": " +:+ e));
                ("content_type_header", PStr ct); ("fetched_at", PStr ts) ] ++ err_more) tr,
           Returned)
      end
  end.

Definition FILE_EXTENSIONS : list string := [".pdf"; ".txt"; ".doc"; ".docx"].

(** The loop of [scrape_archive_item] over the files an item links to;
    an exception ends it. *)
Fixpoint scrape_item_files (brain item_url ts : string) (files : list string)
  (tr : list event) : list event * outcome :=
  match files with
  | [] => (tr, Returned)
  | file_url :: rest =>
      match fetch file_url tr with
      | (tr, None) =>
          scrape_item_files brain item_url ts rest
            (append_jsonl_record brain
               [ ("brain", PStr brain); ("url", PStr file_url);
                 ("domain", PStr (get_domain file_url)); ("status", PStr "error");
                 ("error", PStr "file_request_failed"); ("fetched_at", PStr ts);
                 ("parent_item", PStr item_url) ] tr)
      | (tr, Some file_resp) =>
          let file_ct := header_ct file_resp in
          let ext := get_extension_from_content_type file_ct in
          match save_binary brain file_url (get_domain file_url) file_ct ts ext file_resp
                  "save_file_failed"
                  [ ("parent_item", PStr item_url); ("source", PStr "archive_item_file") ]
                  [ ("parent_item", PStr item_url) ] tr with
          | (tr, Returned) => scrape_item_files brain item_url ts rest tr
          | (tr, out) => (tr, out)
          end
      end
  end.

(** The file links of an item page: every [href] that ends, whatever its
    case, in one of the document extensions, joined to the address of the
    item, as a sorted set. *)
Definition file_links (item_url html : string) : list string :=
  sorted_set
    (omap (fun a =>
             let href := default EmptyString (Soup.attr "href" a) in
             if existsb (fun ext => Str.endswith ext (Str.lower href)) FILE_EXTENSIONS
             then Some (urljoin E item_url href) else None)
          (Soup.links (parse_html E html))).

Definition scrape_archive_item (brain item_url : string) (fetched_at : option string)
  (tr : list event) : list event * outcome :=
  match fetch item_url tr with
  | (tr, None) =>
      (append_jsonl_record brain
         [ ("brain", PStr brain); ("url", PStr item_url);
           ("domain", PStr (get_domain item_url)); ("status", PStr "error");
           ("error", PStr "item_request_failed");
           ("fetched_at", PStr (Str.or_else (default EmptyString fetched_at) (now tr))) ] tr,
       Returned)
  | (tr, Some resp) =>
      let ct := header_ct resp in
      let domain := get_domain item_url in
      let ts := Str.or_else (default EmptyString fetched_at) (now tr) in
      if looks_like_html ct resp then
        let text := html_to_text (resp_text resp) in
        let tr :=
          append_jsonl_record brain
            [ ("brain", PStr brain); ("url", PStr item_url); ("domain", PStr domain);
              ("status", PStr "ok"); ("type", PStr "html");
              ("content_type_header", PStr ct); ("fetched_at", PStr ts);
              ("text", PStr text); ("source", PStr "archive_item_page") ] tr in
        scrape_item_files brain item_url ts (file_links item_url (resp_text resp)) tr
      else
        save_binary brain item_url domain ct ts (get_extension_from_content_type ct) resp
          "save_item_failed" [ ("source", PStr "archive_item_raw") ]
          [ ("source", PStr "archive_item_raw") ] tr
  end.

(** The state of the search loop: the events, [scraped_items],
    [seen_items] and [page]. *)
Record search_state : Type := {
  events : list event;
  scraped_items : nat;
  seen_items : gset string;
  page : nat
}.

(** The item links of a result page: every [href] that starts with
    [/details/], made absolute, as a sorted set. *)
Definition item_links (html : string) : list string :=
  sorted_set
    (omap (fun a =>
             let href := default EmptyString (Soup.attr "href" a) in
             if Str.startswith "/details/" href
             then Some (urljoin E "https://archive.org" href) else None)
          (Soup.links (parse_html E html))).

(** The inner loop over the items of one page; an exception in an item
    ends it, after the item was counted. *)
Fixpoint scrape_page_items (brain fetched_at : string) (max_items : nat) (delay : Z)
  (items : list string) (st : search_state) : search_state * outcome :=
  match items with
  | [] => (st, Returned)
  | item_url :: rest =>
      if (max_items <=? scraped_items st)%nat then (st, Returned)
      else if bool_decide (item_url ∈ seen_items st)
      then scrape_page_items brain fetched_at max_items delay rest st
      else
        match scrape_archive_item brain item_url (Some fetched_at) (events st) with
        | (tr, Returned) =>
            scrape_page_items brain fetched_at max_items delay rest
              {| events := EvSleep delay :: tr;
                 scraped_items := S (scraped_items st);
                 seen_items := {[item_url]} ∪ seen_items st;
                 page := page st |}
        | (tr, out) =>
            ({| events := tr;
                scraped_items := S (scraped_items st);
                seen_items := {[item_url]} ∪ seen_items st;
                page := page st |}, out)
        end
  end.

Definition page_url (base_root base_query : string) (page : nat) : string :=
  match base_query with
  | EmptyString => base_root +:+ "?page=" +:+ pretty page
  | _ => base_root +:+ "?" +:+ base_query +:+ "&page=" +:+ pretty page
  end.

(** The [while] loop of [scrape_archive_search]; [Unfinished] when
    [fuel] rounds did not end it. *)
Fixpoint search_loop (fuel : nat) (brain fetched_at base_root base_query : string)
  (max_items : nat) (delay : Z) (st : search_state) : search_state * outcome :=
  match fuel with
  | O => (st, Unfinished)
  | S fuel' =>
      if negb (scraped_items st <? max_items)%nat then (st, Returned)
      else
        match fetch (page_url base_root base_query (page st)) (events st) with
        | (tr, None) =>
            ({| events := tr; scraped_items := scraped_items st;
                seen_items := seen_items st; page := page st |}, Returned)
        | (tr, Some resp) =>
            let st := {| events := tr; scraped_items := scraped_items st;
                         seen_items := seen_items st; page := page st |} in
            match item_links (resp_text resp) with
            | [] => (st, Returned)
            | links =>
                match scrape_page_items brain fetched_at max_items delay links st with
                | (st, Returned) =>
                    search_loop fuel' brain fetched_at base_root base_query max_items delay
                      {| events := EvSleep delay :: events st;
                         scraped_items := scraped_items st;
                         seen_items := seen_items st;
                         page := S (page st) |}
                | (st, out) => (st, out)
                end
            end
        end
  end.

Definition scrape_archive_search (fuel : nat) (brain search_url : string)
  (max_items : nat) (delay : Z) (tr : list event) : search_state * outcome :=
  let fetched_at := now tr in
  let parsed := urlparse E search_url in
  let base_query := query parsed in
  let base_root := scheme parsed +:+ "://" +:+ netloc parsed +:+ path parsed in
  search_loop fuel brain fetched_at base_root base_query max_items delay
    {| events := tr; scraped_items := 0; seen_items := ∅; page := 1 |}.

Definition scrape_url_for_brain (fuel : nat) (brain url : string) (tr : list event)
  : list event * outcome :=
  if is_archive_search url then
    let (st, out) := scrape_archive_search fuel brain url 50 1500 tr in
    (events st, out)
  else
    match fetch url tr with
    | (tr, None) =>
        (append_jsonl_record brain
           [ ("brain", PStr brain); ("url", PStr url);
             ("domain", PStr (get_domain url)); ("status", PStr "error");
             ("error", PStr "request_failed"); ("fetched_at", PStr (now tr)) ] tr,
         Returned)
    | (tr, Some resp) =>
        let fetched_at := now tr in
        let ct := header_ct resp in
        let domain := get_domain url in
        if looks_like_html ct resp then
          (append_jsonl_record brain
             [ ("brain", PStr brain); ("url", PStr url); ("domain", PStr domain);
               ("status", PStr "ok"); ("type", PStr "html");
               ("content_type_header", PStr ct); ("fetched_at", PStr fetched_at);
               ("text", PStr (html_to_text (resp_text resp))) ] tr,
           Returned)
        else
          save_binary brain url domain ct fetched_at
            (get_extension_from_content_type ct) resp "save_binary_failed" [] [] tr
    end.

(** The loop of [scrape_all_brains] over the URLs of one brain. *)
Fixpoint scrape_brain (fuel : nat) (delay : Z) (brain : string) (urls : list string)
  (tr : list event) : list event * outcome :=
  match urls with
  | [] => (tr, Returned)
  | url :: rest =>
      match scrape_url_for_brain fuel brain url tr with
      | (tr, Returned) => scrape_brain fuel delay brain rest (EvSleep delay :: tr)
      | (tr, out) => (tr, out)
      end
  end.

Fixpoint scrape_brains (fuel : nat) (delay : Z) (brains : list (string * list string))
  (tr : list event) : list event * outcome :=
  match brains with
  | [] => (tr, Returned)
  | (brain, urls) :: rest =>
      match scrape_brain fuel delay brain urls tr with
      | (tr, Returned) => scrape_brains fuel delay rest tr
      | (tr, out) => (tr, out)
      end
  end.

Definition scrape_all_brains (fuel : nat) (delay : Z) : list event * outcome :=
  scrape_brains fuel delay Config.BRAINS [].

End WithEnv.

End Scrape.

(** ** archive.py: the advanced-search client *)

Module Archive.

Definition safe_filename (s : string) : string :=
  Str.or_else
    (Str.strip (Str.filter (fun c => Str.isalnum c || Str.mem c "-_.+ ") s))
    "file".

(** The name [download_file] stores an item's file under. *)
Definition download_name (identifier name : string) : string :=
  safe_filename (identifier +:+ "_" +:+ name).

Import Json.

Definition BASE_OUTPUT_DIR : string := "legal_rag_data".
Definition ARCHIVE_RAW_DIR : string := Str.path_join BASE_OUTPUT_DIR "archive_raw".

Definition ADV_SEARCH_URL : string := "https://archive.org/advancedsearch.php".
Definition METADATA_URL : string := "https://archive.org/metadata/".
Definition DOWNLOAD_BASE_URL : string := "https://archive.org/download/".

(** What a run of the client does to the world, newest event first. *)
Inductive action : Type :=
| AcSearch (query : string) (rows page : Z)  (* GET of [ADV_SEARCH_URL] with these parameters *)
| AcGet (url : string)                       (* any other GET *)
| AcWrite (path data : string)               (* a file is opened for writing and written *)
| AcSleep (ms : Z).                          (* time.sleep, in milliseconds *)

Inductive exn : Type :=
| ValueError (msg : string)
| KeyError (key : string)
| IndexError
| ZeroDivisionError
| OverflowError
| RequestError (msg : string)   (* raised by [requests.get], [raise_for_status] or [json] *)
| OSError (msg : string).

Inductive result (A : Type) : Type :=
| Ok (a : A)
| Raise (e : exn).

Arguments Ok {A} a.
Arguments Raise {A} e.

(** One of the [docs] of a search result: [identifier] is [None] when the
    key is missing; the other keys are read with [d.get]. *)
Record doc : Type := {
  identifier : option string;
  title : pyval;
  creator : pyval;
  year : pyval;
  mediatype : pyval;
  collection : pyval
}.

(** A key of a JSON object that holds a string when it is there and not
    [null]. *)
Inductive field : Type :=
| Absent
| Null
| Text (s : string).

(** One of the [files] of an item's metadata. *)
Record fileinfo : Type := {
  format : field;
  name : field
}.

(** The metadata of an item: [files] is [None] when the key is missing
    or holds [null]. *)
Record metadata : Type := {
  files : option (list fileinfo)
}.

(** The libraries and the environment of the client.  An answer that
    raises carries the text of the exception. *)
Record env : Type := {
  (* [urlparse(url).query] *)
  url_query : string -> string;
  parse_qs : string -> gmap string (list string);
  unquote_plus : string -> string;
  (* the search request for a query, [rows] and [page]: the [docs] and
     the [numFound] of the answer's [response] *)
  adv_search : list action -> string -> Z -> Z -> string + (list doc * Z);
  (* the GET of an item's metadata, decoded *)
  get_metadata : list action -> string -> string + metadata;
  (* the GET of a file: its bytes *)
  get_content : list action -> string -> string + string;
  (* the files that are there before the run *)
  on_disk : string -> option string;
  (* [Some msg] when opening this path for writing, or for reading,
     raises [OSError(msg)] *)
  open_error : list action -> string -> option string;
  read_error : list action -> string -> option string;
  (* reading bytes as UTF-8 text, errors ignored *)
  decode : string -> string;
  (* the page texts [PyPDFLoader] loads from a file's bytes; [None] when
     it raises *)
  pdf_pages : string -> option (list string)
}.

(** The bytes of the file [path] after the actions [tr]. *)
Fixpoint stored (disk : string -> option string) (path : string) (tr : list action)
  : option string :=
  match tr with
  | [] => disk path
  | AcWrite p d :: tr' => if String.eqb p path then Some d else stored disk path tr'
  | _ :: tr' => stored disk path tr'
  end.

(** [f.get(k) or ""] *)
Definition get_or_empty (f : field) : string :=
  match f with Text s => s | _ => EmptyString end.

Definition text_like (f : fileinfo) : bool :=
  let fmt := Str.lower (get_or_empty (format f)) in
  let name := Str.lower (get_or_empty (name f)) in
  Str.contains "djvutxt" fmt || Str.contains "text" fmt || Str.endswith ".txt" name.

Definition pdf_like (f : fileinfo) : bool :=
  let fmt := Str.lower (get_or_empty (format f)) in
  let name := Str.lower (get_or_empty (name f)) in
  Str.contains "pdf" fmt || Str.endswith ".pdf" name.

(** A [for] loop that keeps the first element that passes the test and
    breaks. *)
Fixpoint first_file (test : fileinfo -> bool) (files : list fileinfo) : option fileinfo :=
  match files with
  | [] => None
  | f :: rest => if test f then Some f else first_file test rest
  end.

Definition choose_text_and_pdf (files : list fileinfo)
  : option fileinfo * option fileinfo :=
  (first_file text_like files, first_file pdf_like files).

(** The integer nearest to [n / d], for [d > 0]; of two that are
    equally near, the even one. *)
Definition round_half_even (n d : Z) : Z :=
  let q := n / d in
  let r := n mod d in
  if 2 * r <? d then q
  else if d <? 2 * r then q + 1
  else if Z.even q then q else q + 1.

(** The fraction [n / d] times [2 ^ s]. *)
Definition scaled (n d s : Z) : Z * Z :=
  if 0 <=? s then (n * 2 ^ s, d) else (n, d * 2 ^ (- s)).

(** The double nearest to [n / d], for [n > 0] and [d > 0], as [(m, e)]
    with the value [m * 2 ^ e]: 53 bits of mantissa, and no exponent below
    that of the subnormal numbers. *)
Definition nearest_double (n d : Z) : Z * Z :=
  let k0 := Z.log2 n - Z.log2 d in
  let '(n0, d0) := scaled n d (- k0) in
  (* [2 ^ k <= n / d < 2 ^ (k + 1)] *)
  let k := if d0 <=? n0 then k0 else k0 - 1 in
  let e := Z.max (k - 52) (-1074) in
  let '(n1, d1) := scaled n d (- e) in
  (round_half_even n1 d1, e).

(** [math.ceil(num_found / rows)] for [rows] other than zero: the true
    division of two integers gives the double nearest to their quotient,
    and [None] stands for the [OverflowError] it raises when that is too
    large for a double. *)
Definition total_pages (num_found rows : Z) : option Z :=
  if num_found =? 0 then Some 0
  else
    let '(m, e) := nearest_double (Z.abs num_found) (Z.abs rows) in
    let negative := xorb (num_found <? 0) (rows <? 0) in
    if 0 <=? e then
      if 2 ^ 1024 <=? m * 2 ^ e then None
      else Some (if negative then - (m * 2 ^ e) else m * 2 ^ e)
    else
      (* [ceil (- x) = - floor x] *)
      Some (if negative then - (m / 2 ^ (- e)) else - ((- m) / 2 ^ (- e))).

(** The inner loop of [search_archive_docs]: the documents of a page are
    added until [max_items] are there. *)
Fixpoint add_docs (max_items : Z) (docs all_docs : list doc) : list doc :=
  match docs with
  | [] => all_docs
  | d :: rest =>
      let all_docs := all_docs ++ [d] in
      if Z.of_nat (length all_docs) >=? max_items then all_docs
      else add_docs max_items rest all_docs
  end.

Section WithEnv.

Variable E : env.

Definition exists_ (path : string) (tr : list action) : bool :=
  bool_decide (is_Some (stored (on_disk E) path tr)).

Definition extract_query_from_search_url (search_url : string) : result (option string) :=
  let qs := parse_qs E (url_query E search_url) in
  match default [EmptyString] (qs !! "query") with
  | [] => Raise IndexError
  | EmptyString :: _ => Ok None
  | q :: _ => Ok (Some (unquote_plus E q))
  end.

(** The [while] loop of [search_archive_docs]; [None] when [fuel] rounds
    did not end it. *)
Fixpoint search_pages (fuel : nat) (query : string) (max_items rows sleep : Z)
  (all_docs : list doc) (page : Z) (tr : list action)
  : option (list action * result (list doc)) :=
  match fuel with
  | O => None
  | S fuel' =>
      if negb (Z.of_nat (length all_docs) <? max_items) then Some (tr, Ok all_docs)
      else
        match adv_search E tr query rows page with
        | inl msg => Some (AcSearch query rows page :: tr, Raise (RequestError msg))
        | inr (docs, num_found) =>
            let tr := AcSearch query rows page :: tr in
            match docs with
            | [] => Some (tr, Ok all_docs)
            | _ =>
                let all_docs := add_docs max_items docs all_docs in
                if rows =? 0 then Some (tr, Raise ZeroDivisionError)
                else
                  match total_pages num_found rows with
                  | None => Some (tr, Raise OverflowError)
                  | Some total =>
                      if (page >=? total)
                         || (Z.of_nat (length all_docs) >=? max_items)
                      then Some (tr, Ok all_docs)
                      else search_pages fuel' query max_items rows sleep all_docs
                             (page + 1) (AcSleep sleep :: tr)
                  end
            end
        end
  end.

Definition search_archive_docs (fuel : nat) (query : string) (max_items rows sleep : Z)
  (tr : list action) : option (list action * result (list doc)) :=
  search_pages fuel query max_items rows sleep [] 1 tr.

Definition fetch_metadata (identifier : string) (tr : list action)
  : list action * (string + metadata) :=
  (AcGet (METADATA_URL +:+ identifier) :: tr,
   get_metadata E tr (METADATA_URL +:+ identifier)).

Definition download_file (identifier : string) (fileinfo : fileinfo) (tr : list action)
  : list action * result string :=
  match name fileinfo with
  | Absent => (tr, Raise (KeyError "name"))
  | value =>
      (* [None] is formatted as its name *)
      let name := match value with Text s => s | _ => "None" end in
      let url := DOWNLOAD_BASE_URL +:+ identifier +:+ "/" +:+ name in
      let path := Str.path_join ARCHIVE_RAW_DIR (download_name identifier name) in
      if exists_ path tr then (tr, Ok path)
      else
        match get_content E tr url with
        | inl msg => (AcGet url :: tr, Raise (RequestError msg))
        | inr content =>
            let tr := AcGet url :: tr in
            match open_error E tr path with
            | Some msg => (tr, Raise (OSError msg))
            | None => (AcWrite path content :: tr, Ok path)
            end
        end
  end.

(** Opening a file for reading and reading all of it. *)
Definition read_file (path : string) (tr : list action) : option string :=
  match read_error E tr path with
  | Some _ => None
  | None => stored (on_disk E) path tr
  end.

Definition extract_text_from_pdf (pdf_path : string) (tr : list action) : string :=
  match read_file pdf_path tr with
  | Some bytes =>
      match pdf_pages E bytes with
      | Some pages => Str.join (Str.nl +:+ Str.nl) pages
      | None => EmptyString
      end
  | None => EmptyString
  end.

(** The entries every item starts with. *)
Definition item_head (d : doc) (identifier : string) : dict :=
  [ ("item_url", PStr ("https://archive.org/details/" +:+ identifier));
    ("identifier", PStr identifier);
    ("title", title d); ("creator", creator d); ("year", year d);
    ("mediatype", mediatype d); ("collection", collection d) ].

(** The second [try] block of the loop: the text, the file type and the
    source path it leaves behind. *)
Definition fetch_text (identifier : string) (text_file pdf_file : option fileinfo)
  (tr : list action) : list action * (string * string * option string) :=
  match text_file, pdf_file with
  | Some f, _ =>
      match download_file identifier f tr with
      | (tr, Ok src_path) =>
          match read_file src_path tr with
          | Some bytes => (tr, (decode E bytes, "text", Some src_path))
          | None => (tr, (EmptyString, "none", Some src_path))
          end
      | (tr, Raise _) => (tr, (EmptyString, "none", None))
      end
  | None, Some f =>
      match download_file identifier f tr with
      | (tr, Ok src_path) => (tr, (extract_text_from_pdf src_path tr, "pdf", Some src_path))
      | (tr, Raise _) => (tr, (EmptyString, "none", None))
      end
  | None, None => (tr, (EmptyString, "none", None))
  end.

(** The body of the loop for a document that has an identifier. *)
Definition scrape_doc (d : doc) (identifier : string) (tr : list action)
  : list action * dict :=
  match fetch_metadata identifier tr with
  | (tr, inl msg) =>
      (tr, item_head d identifier
             ++ [ ("file_type", PStr "none"); ("source_file", PNone);
                  ("text", PStr EmptyString);
                  ("error", PStr ("metadata_failed: " +:+ msg)) ])
  | (tr, inr meta) =>
      let files := default [] (files meta) in
      let (text_file, pdf_file) := choose_text_and_pdf files in
      match fetch_text identifier text_file pdf_file tr with
      | (tr, (text_content, file_type, src_path)) =>
          (tr, item_head d identifier
                 ++ [ ("file_type", PStr file_type); ("source_file", of_option src_path);
                      ("text", PStr text_content) ])
      end
  end.

Fixpoint scrape_docs (docs : list doc) (items : list dict) (tr : list action)
  : list action * result (list dict) :=
  match docs with
  | [] => (tr, Ok items)
  | d :: rest =>
      match identifier d with
      | None => (tr, Raise (KeyError "identifier"))
      | Some identifier =>
          let (tr, item) := scrape_doc d identifier tr in
          scrape_docs rest (items ++ [item]) tr
      end
  end.

Definition scrape_archive_search_to_items (fuel : nat) (search_url : string)
  (max_items : Z) (tr : list action) : option (list action * result (list dict)) :=
  match extract_query_from_search_url search_url with
  | Raise e => Some (tr, Raise e)
  | Ok None | Ok (Some EmptyString) =>
      Some (tr, Raise (ValueError ("Could not extract 'query' parameter from URL: "
                                     +:+ search_url)))
  | Ok (Some query) =>
      match search_archive_docs fuel query max_items 50 1000 tr with
      | None => None
      | Some (tr, Raise e) => Some (tr, Raise e)
      | Some (tr, Ok docs) => Some (scrape_docs docs [] tr)
      end
  end.

End WithEnv.

End Archive.

(** ** A small world for the examples *)

Module Demo.

Import Env.

(** A URL splitter for URLs of the shape [scheme://host/path?query]. *)
Definition split_url (url : string) : url_parts :=
  let sch := Str.before_char ":" url in
  let rest := default url (Str.drop_prefix (sch +:+ "://") url) in
  let host := Str.before_char "/" rest in
  let after := default EmptyString (Str.drop_prefix host rest) in
  let pth := Str.before_char "?" after in
  let q := default EmptyString (Str.drop_prefix (pth +:+ "?") after) in
  {| scheme := sch; netloc := host; path := pth; query := q |}.

(** Absolute links stay, the others are taken from the root of the host. *)
Definition join_url (base href : string) : string :=
  if Str.contains "://" href then href
  else let p := split_url base in scheme p +:+ "://" +:+ netloc p +:+ href.

(** A page is a blank-separated list of link targets: each word [w]
    parses to an anchor with [href] [w] and text [w]. *)
Definition parse_links (html : string) : list Soup.node :=
  List.map (fun w => Soup.Elem "a" [("href", w)] [Soup.Text w]) (String.words html).

(** A response with status 200 whose text and bytes agree. *)
Definition page (url ct body : string) : string * response :=
  (url, {| resp_status := 200; resp_url := url; resp_content_type := Some ct;
           resp_text := body; resp_content := body |}).

(** A world with a fixed web: a request for a URL of the table is
    answered with its response, any other request raises; every file can
    be written. *)
Definition static (web : list (string * response)) : env :=
  {| http_get := fun _ url => snd <$> List.find (fun p => String.eqb (fst p) url) web;
     open_error := fun _ _ => None;
     makedirs_error := fun _ _ => None;
     pdf_extract := fun _ => Some "pdf text";
     parse_html := parse_links;
     urlparse := split_url;
     urljoin := join_url;
     dateparse := fun _ => None;
     utcnow := fun _ => "2025-01-01T00:00:00";
     guess_extension := fun _ => None |}.

(** A world whose first request fails and whose later requests are
    answered from the table. *)
Definition flaky (web : list (string * response)) : env :=
  {| http_get := fun tr url =>
       match tr with
       | [] => None
       | _ => snd <$> List.find (fun p => String.eqb (fst p) url) web
       end;
     open_error := fun _ _ => None;
     makedirs_error := fun _ _ => None;
     pdf_extract := fun _ => Some "pdf text";
     parse_html := parse_links;
     urlparse := split_url;
     urljoin := join_url;
     dateparse := fun _ => None;
     utcnow := fun _ => "2025-01-01T00:00:00";
     guess_extension := fun _ => None |}.

(** The fixed web, with a download directory that cannot be written. *)
Definition read_only (web : list (string * response)) : env :=
  {| http_get := fun _ url => snd <$> List.find (fun p => String.eqb (fst p) url) web;
     open_error := fun _ p =>
       if Str.startswith "downloads/" p then Some "Permission denied" else None;
     makedirs_error := fun _ _ => None;
     pdf_extract := fun _ => Some "pdf text";
     parse_html := parse_links;
     urlparse := split_url;
     urljoin := join_url;
     dateparse := fun _ => None;
     utcnow := fun _ => "2025-01-01T00:00:00";
     guess_extension := fun _ => None |}.

(** The fixed web, where no directory can be made. *)
Definition locked (web : list (string * response)) : env :=
  {| http_get := fun _ url => snd <$> List.find (fun p => String.eqb (fst p) url) web;
     open_error := fun _ _ => None;
     makedirs_error := fun _ _ => Some "Permission denied";
     pdf_extract := fun _ => Some "pdf text";
     parse_html := parse_links;
     urlparse := split_url;
     urljoin := join_url;
     dateparse := fun _ => None;
     utcnow := fun _ => "2025-01-01T00:00:00";
     guess_extension := fun _ => None |}.

(** A cached page: the server answers 304 Not Modified, with no body. *)
Definition not_modified : response :=
  {| resp_status := 304; resp_url := "https://example.com/cached";
     resp_content_type := None; resp_text := EmptyString; resp_content := EmptyString |}.

Definition cache : list (string * response) :=
  [ ("https://example.com/cached", not_modified) ].

(** Pages that are answered under another address or with a payload
    that is neither a PDF nor HTML. *)
Definition papers : list (string * response) :=
  [ ("https://example.com/report.pdf",
     {| resp_status := 200; resp_url := "https://example.com/login";
        resp_content_type := Some "text/html; charset=utf-8";
        resp_text := EmptyString; resp_content := EmptyString |});
    ("https://example.com/paper",
     {| resp_status := 200; resp_url := "https://example.com/files/paper.pdf";
        resp_content_type := Some "application/octet-stream";
        resp_text := EmptyString; resp_content := "%PDF-1.7" |});
    ("https://example.com/data.zip",
     {| resp_status := 200; resp_url := "https://example.com/data.zip";
        resp_content_type := Some "application/zip";
        resp_text := "PK??"; resp_content := "PK" +:+ String (ascii_of_N 3) (String (ascii_of_N 4) EmptyString) |}) ].


(** A search that lists the same item on every page. *)
Definition repeating : env :=
  {| http_get := fun _ url =>
       if Str.startswith "https://archive.org/search" url
       then Some (snd (page url "text/html" "/details/x"))
       else None;
     open_error := fun _ _ => None;
     makedirs_error := fun _ _ => None;
     pdf_extract := fun _ => Some "pdf text";
     parse_html := parse_links;
     urlparse := split_url;
     urljoin := join_url;
     dateparse := fun _ => None;
     utcnow := fun _ => "2025-01-01T00:00:00";
     guess_extension := fun _ => None |}.

(** The site of the scenario: [/a] links to [/b] and [/c], [/b] to [/d]. *)
Definition site : list (string * response) :=
  [ page "https://example.com/a" "text/html" "/b /c";
    page "https://example.com/b" "text/html" "/d";
    page "https://example.com/c" "text/html" "";
    page "https://example.com/d" "text/html" "/a" ].

(** A page that links to a file on GitHub twice: by its blob view and
    by its raw address. *)
Definition forge : list (string * response) :=
  [ page "https://example.com/a" "text/html"
      "https://github.com/u/r/blob/main/f.txt https://raw.githubusercontent.com/u/r/main/f.txt";
    page "https://raw.githubusercontent.com/u/r/main/f.txt" "text/plain" "" ].

End Demo.

(** ** A small archive for the examples *)

Module ArchiveDemo.

Import Json Archive.

Definition nda_docs : list doc :=
  [ {| identifier := Some "nda-1"; title := PStr "Mutual NDA"; creator := PNone;
       year := PInt 2019; mediatype := PStr "texts"; collection := PList ["contracts"] |};
    {| identifier := Some "nda-2"; title := PStr "One-way NDA"; creator := PStr "ACME";
       year := PNone; mediatype := PStr "texts"; collection := PNone |};
    {| identifier := Some "nda-3"; title := PNone; creator := PNone;
       year := PNone; mediatype := PNone; collection := PNone |} ].

(** An archive that claims 120 results for every search and has two
    pages, of two documents and of one; the first item has an OCR text,
    the second a PDF, the third no metadata.  No file is there before the run and every file
    can be written and read. *)
Definition library : env :=
  {| url_query := fun url => Env.query (Demo.split_url url);
     parse_qs := fun q =>
       match Str.drop_prefix "query=" q with
       | Some v => {[ "query" := [v] ]}
       | None => ∅
       end;
     unquote_plus := Str.replace_char "+" " ";
     adv_search := fun _ _ rows page =>
       if page =? 1 then inr (take 2 nda_docs, 120)
       else if page =? 2 then inr (drop 2 nda_docs, 120)
       else inr ([], 120);
     get_metadata := fun _ url =>
       if String.eqb url (METADATA_URL +:+ "nda-1")
       then inr {| files := Some [ {| format := Text "JPEG"; name := Text "nda-1.jpg" |};
                                   {| format := Text "DjVuTXT"; name := Text "nda-1_djvu.txt" |};
                                   {| format := Text "Text PDF"; name := Text "nda-1.pdf" |} ] |}
       else if String.eqb url (METADATA_URL +:+ "nda-2")
       then inr {| files := Some [ {| format := Text "Image Container PDF";
                                      name := Text "nda-2.pdf" |} ] |}
       else inl "404 Client Error";
     get_content := fun _ url => inr ("bytes of " +:+ url);
     on_disk := fun _ => None;
     open_error := fun _ _ => None;
     read_error := fun _ _ => None;
     decode := fun bytes => bytes;
     pdf_pages := fun _ => Some ["page one"; "page two"] |}.

End ArchiveDemo.

(** * The vocabulary of the properties *)

(** ** File names *)

Section FileNameWords.

Import Str.

(** What makes a string a usable path component: it is not empty and
    holds neither a slash nor the NUL character. *)
Definition path_component (s : string) : Prop :=
  s <> EmptyString /\ mem "/" s = false /\ mem "000" s = false.

End FileNameWords.

(** ** Article extraction *)

Section ArticleWords.

Import Scraper.

(** The length the candidate loop compares. *)
Definition block_len (c : Soup.node) : nat :=
  String.length (Str.strip (Soup.get_text EmptyString c)).

(** The stripped, non-empty paragraph texts of a document, in order. *)
Definition paragraph_texts (doc : list Soup.node) : list string :=
  List.filter (fun t => negb (String.eqb t EmptyString))
    (List.map (fun p => Str.strip (Soup.get_text EmptyString p))
       (Soup.find_all ["p"] None doc)).

(** A string that starts, or ends, with a character that is not white
    space. *)
Definition starts_clean (s : string) : bool :=
  match s with
  | EmptyString => false
  | String c _ => negb (Str.isspace c)
  end.

Fixpoint ends_clean (s : string) : bool :=
  match s with
  | EmptyString => false
  | String c EmptyString => negb (Str.isspace c)
  | String _ s' => ends_clean s'
  end.

End ArticleWords.

(** ** The crawl of scraper.py *)

Section CrawlWords.

Import Env Json Scraper.

Variable E : env.

(** An attempt fails when the GET raises or [raise_for_status] does. *)
Definition attempt_fails (tr : list event) (url : string) : bool :=
  match http_get E tr url with
  | Some r => negb (ok r)
  | None => true
  end.

(** The events of [k] failed attempts in a row, the first being attempt
    [i]: each is a GET, a warning and a pause of [1 + 2 i] seconds. *)
Fixpoint failures (url : string) (i k : nat) (tr : list event) : list event :=
  match k with
  | O => tr
  | S k' =>
      failures url (S i) k'
        (EvSleep (1000 * (1 + Z.of_nat i * 2)) :: EvWarn url (S i) :: EvGet url i :: tr)
  end.

(** The URLs of the tasks started, the URLs of the first attempts of
    the fetches, and the lines appended to a log, newest first. *)
Definition task_urls (evs : list event) : list string :=
  omap (fun e => match e with EvInfo _ u => Some u | _ => None end) evs.

Definition first_gets (evs : list event) : list string :=
  omap (fun e => match e with EvGet u O => Some u | _ => None end) evs.

Definition appends (evs : list event) : list (string * string) :=
  omap (fun e => match e with EvAppend p d => Some (p, d) | _ => None end) evs.

(** Every GET follows the start of the task it belongs to. *)
Fixpoint claimed (evs : list event) : Prop :=
  match evs with
  | [] => True
  | EvGet u _ :: rest =>
      (exists d src, EvInfo d src ∈ rest /\ request_url src = u) /\ claimed rest
  | _ :: rest => claimed rest
  end.

(** Every task deeper than [lo] follows the start of a task one level
    up. *)
Fixpoint parented (lo : nat) (evs : list event) : Prop :=
  match evs with
  | [] => True
  | EvInfo d _ :: rest =>
      (d = lo \/ exists d' p, d = S d' /\ EvInfo d' p ∈ rest) /\ parented lo rest
  | _ :: rest => parented lo rest
  end.

(** Events that start no task, issue no request and append nothing. *)
Definition quiet_event (e : event) : bool :=
  match e with
  | EvInfo _ _ | EvGet _ _ | EvAppend _ _ => false
  | _ => true
  end.

Definition quiet (evs : list event) : Prop := Forall (fun e => quiet_event e = true) evs.

(** The line of the combined log for a result. *)
Definition log_line (result : dict) : string * string :=
  (COMBINED_JSONL, dumps result +:+ EmptyString).

Definition source_of (result : dict) : pyval := get "source_url" result.

(** What a crawl at depth [lo] or deeper does to the world: [evs] are
    its events.  The tasks it starts have distinct URLs, none visited
    before; they are what is added to the visited set; their depths lie
    between [lo] and the maximum; each task issues one fetch, of its
    request URL; every GET comes after the start of its task; and the
    lines of the combined log are the results of distinct tasks. *)
Record crawled (lo : nat) (w w' : world) (evs : list event) : Prop := {
  cr_trace : trace w' = evs ++ trace w;
  cr_visited : visited w' = list_to_set (task_urls evs) ∪ visited w;
  cr_nodup : NoDup (task_urls evs);
  cr_fresh : forall u, u ∈ task_urls evs -> u ∉ visited w;
  cr_depth : forall d u, EvInfo d u ∈ evs -> (lo <= d <= MAX_CRAWL_DEPTH)%nat;
  cr_gets : first_gets evs = request_url <$> task_urls evs;
  cr_claimed : claimed evs;
  cr_records :
    exists records : list dict,
      appends evs = log_line <$> records
      /\ (source_of <$> records) ⊆+ (PStr <$> task_urls evs)
}.

(** One task.  Beyond the shape of its events: a URL already visited
    gives [None] and changes nothing; a new one is logged at its depth,
    the tasks below it are deeper, and it gives a non-empty result that
    names it as its source. *)
Definition task_outcome (url : string) (depth : nat) (w w' : world)
  (r : option dict) (evs : list event) : Prop :=
  crawled depth w w' evs
  /\ parented depth evs
  /\ (url ∈ visited w -> evs = [] /\ r = None /\ w' = w)
  /\ (url ∉ visited w ->
      EvInfo depth url ∈ evs
      /\ (forall d u, EvInfo d u ∈ evs -> (d = depth /\ u = url) \/ (S depth <= d)%nat)
      /\ exists result, r = Some result /\ source_of result = PStr url /\ result <> []).

(** The tasks of a trace with their depths, newest first. *)
Definition tasks (evs : list event) : list (nat * string) :=
  omap (fun e => match e with EvInfo d u => Some (d, u) | _ => None end) evs.

(** A dictionary whose values are all strings, as every record of
    scrape.py is. *)
Definition string_valued (d : dict) : Prop :=
  Forall (fun kv => exists s, snd kv = PStr s) d.

Definition no_newline (s : string) : Prop := Str.mem (ascii_of_N 10) s = false.

(** The test of [is_pdf_response], on the lower-cased content type
    [ct] of the response and the URL that was requested. *)
Definition pdf_signal (ct request : string) : bool :=
  Str.contains "pdf" ct || Str.endswith ".pdf" (Str.lower request).

(** The rule as the specification words it: the URL tested is the path
    of the final URL of the response. *)
Definition pdf_signal_of_final_url (resp : response) : bool :=
  Str.contains "pdf" (Str.lower (default EmptyString (resp_content_type resp)))
  || Str.endswith ".pdf" (Str.lower (path (urlparse E (resp_url resp)))).

End CrawlWords.

(** ** The scraper and the search of scrape.py *)

Section ScrapeWords.

Import Env Json Scrape.

Variable E : env.
Variables base_root base_query : string.
Variable max_items : nat.

(** The HTML test as the specification words it. *)
Definition html_signal (resp : response) : bool :=
  Str.contains "text/html" (Str.lower (default EmptyString (resp_content_type resp)))
  || Str.contains "<html" (Str.lower (Str.take 500 (resp_text resp))).




(** The files an item page links to, as [scrape_archive_item] sees them
    when it fetches the item after the events [tr]: none when the fetch
    fails or the page is not HTML. *)
Definition linked_files (tr : list event) (item_url : string) : list string :=
  match snd (fetch E item_url tr) with
  | Some resp =>
      if looks_like_html (header_ct resp) resp
      then file_links E item_url (resp_text resp) else []
  | None => []
  end.

(** A request for one of the items [seen], or for a file such an item
    links to; a first attempt, as [fetch] does not retry. *)
Definition item_fetch (seen : gset string) (g : string * nat) : Prop :=
  snd g = 0%nat
  /\ (fst g ∈ seen
      \/ exists item tr, item ∈ seen /\ fst g ∈ linked_files tr item).

(** The requests for the [k] result pages from page [p] on. *)
Definition page_requests (p k : nat) : list (string * nat) :=
  (fun q => (page_url base_root base_query q, 0%nat)) <$> seq p k.


(** The number of result pages the loop fetches from [st] to [st'],
    where it ends with [out]: the pages before that of [st'], and that
    page too unless the loop returned with the quota reached, or has not
    come to it. *)
Definition pages_fetched (st st' : search_state) (out : outcome) : nat :=
  (page st' - page st
   + match out with
     | Returned => if (scraped_items st' <? max_items)%nat then 1 else 0
     | Raised _ => 1
     | Unfinished => 0
     end)%nat.

End ScrapeWords.

Section PathWords.

Import Env Json Scraper.

(** A path directly inside the directory [dir]: the directory, a slash,
    and a name without slash. *)
Definition inside (dir path : string) : Prop :=
  exists name, Str.mem "/" name = false /\ path = dir +:+ "/" +:+ name.

(** An event that writes only where the crawler keeps its files, and
    appends only to the combined log. *)
Definition confined (e : event) : Prop :=
  match e with
  | EvWrite p _ => inside DOWNLOAD_DIR p \/ inside EXTRACT_DIR p \/ inside JSON_OUT_DIR p
  | EvAppend p _ => p = COMBINED_JSONL
  | _ => True
  end.

End PathWords.

Section CrawlShape.

Import Env Json Scraper.

(** The test that keeps a link from being followed: its lower-cased
    text ends in one of the binary extensions. *)
Definition is_binary_link (link : string) : bool :=
  existsb (fun ext => Str.endswith ext (Str.lower link)) BINARY_EXTENSIONS.

(** The events of one call of [process_url] at a depth for a URL,
    newest first, and of the loop over the links of its page, which
    follows [n] of them.  A call for a visited URL does nothing.  A task
    starts, makes up to three attempts to fetch, and either gives up or
    goes on: it writes its files, follows links (each after a pause, one
    level down, none that looks binary), may log an exception, writes the
    JSON file, appends to the combined log and pauses. *)
Inductive task_events : nat -> string -> list event -> Prop :=
| task_skipped depth url : task_events depth url []
| task_failed depth url :
    task_events depth url
      (EvGiveUp (request_url url)
         :: failures (request_url url) 0 REQUEST_RETRIES [EvInfo depth url])
| task_done depth url k files n below handled json_path json line :
    (k < REQUEST_RETRIES)%nat ->
    quiet files -> Forall confined files -> quiet handled -> Forall confined handled ->
    inside JSON_OUT_DIR json_path ->
    links_events depth n below -> (n <= MAX_LINKS_PER_PAGE)%nat ->
    task_events depth url
      (EvSleep SLEEP_BETWEEN_REQUESTS :: EvAppend COMBINED_JSONL line
         :: EvWrite json_path json
         :: handled ++ below ++ files
         ++ EvGet (request_url url) k
         :: failures (request_url url) 0 k [EvInfo depth url])
with links_events : nat -> nat -> list event -> Prop :=
| links_none depth : links_events depth 0 []
| links_more depth n link child rest :
    (depth < MAX_CRAWL_DEPTH)%nat -> is_binary_link link = false ->
    task_events (S depth) link child -> links_events depth n rest ->
    links_events depth (S n) (rest ++ child ++ [EvSleep SLEEP_BETWEEN_REQUESTS]).

Scheme task_events_mut := Minimality for task_events Sort Prop
  with links_events_mut := Minimality for links_events Sort Prop.

Combined Scheme crawl_events_ind from task_events_mut, links_events_mut.

(** The events of [main]: the calls for the seeds, one after the other. *)
Inductive seeds_events : list string -> list event -> Prop :=
| seeds_none : seeds_events [] []
| seeds_more u urls evs rest :
    task_events 0 u evs -> seeds_events urls rest -> seeds_events (u :: urls) (rest ++ evs).

(** A trace is rested when no request was made since the last pause of
    at least [SLEEP_BETWEEN_REQUESTS]. *)
Fixpoint rested (tr : list event) : bool :=
  match tr with
  | [] => true
  | EvSleep ms :: tr' => (SLEEP_BETWEEN_REQUESTS <=? ms) || rested tr'
  | EvGet _ _ :: _ => false
  | _ :: tr' => rested tr'
  end.

(** A trace is paced when every request was made at rest. *)
Fixpoint paced (tr : list event) : bool :=
  match tr with
  | [] => true
  | EvGet _ _ :: tr' => rested tr' && paced tr'
  | _ :: tr' => paced tr'
  end.

(** The requests of a trace. *)
Definition gets (evs : list event) : list (string * nat) :=
  omap (fun e => match e with EvGet u i => Some (u, i) | _ => None end) evs.

(** The greatest number of tasks of a crawl with [levels] levels below
    its root: each page has at most [MAX_LINKS_PER_PAGE] children. *)
Fixpoint crawl_bound (levels : nat) : nat :=
  match levels with
  | O => 1
  | S l => 1 + MAX_LINKS_PER_PAGE * crawl_bound l
  end.

End CrawlShape.

Section RecordWords.

Import Env Json Scraper.

(** The keys of a dictionary, in order. *)
Definition keys (d : dict) : list string := fst <$> d.

(** The keys every result starts with. *)
Definition RESULT_KEYS : list string :=
  [ "source_url"; "root_url"; "fetched_url"; "local_path"; "downloaded";
    "content_type"; "status_code"; "title"; "published"; "full_text_path";
    "article_text_path"; "article_text"; "full_text"; "error"; "discovered_links" ].

Definition is_str (v : pyval) : Prop := exists s, v = PStr s.

(** What every result of a task satisfies. *)
Record record_ok (url : string) (root_url : option string) (depth : nat)
  (result : dict) : Prop := {
  ro_keys :
    keys result = RESULT_KEYS
    \/ (keys result = RESULT_KEYS ++ ["children_count"]
        /\ (depth < MAX_CRAWL_DEPTH)%nat /\ get "error" result = PNone);
  ro_source : get "source_url" result = PStr url;
  ro_root : get "root_url" result = PStr (root_or root_url url);
  ro_response :
    (get "error" result = PStr "failed_to_fetch"
     /\ get "status_code" result = PNone /\ get "fetched_url" result = PNone
     /\ get "content_type" result = PNone /\ get "local_path" result = PNone)
    \/ exists resp,
         ok resp = true
         /\ get "status_code" result = PInt (resp_status resp)
         /\ get "fetched_url" result = PStr (resp_url resp)
         /\ get "content_type" result
            = PStr (Str.lower (default EmptyString (resp_content_type resp)));
  ro_download :
    (get "local_path" result = PNone /\ get "downloaded" result = PBool false
     /\ get "full_text" result = PNone)
    \/ (is_str (get "local_path" result) /\ get "downloaded" result = PBool true);
  ro_full_text :
    (get "full_text_path" result = PNone /\ get "full_text" result = PNone
     /\ get "article_text" result = PNone)
    \/ (is_str (get "full_text_path" result) /\ is_str (get "full_text" result));
  ro_article :
    (get "article_text_path" result = PNone /\ get "article_text" result = PNone
     /\ get "title" result = PNone /\ get "published" result = PNone
     /\ get "discovered_links" result = PList [] /\ get "children_count" result = PNone)
    \/ (is_str (get "article_text_path" result) /\ is_str (get "article_text" result));
  ro_success :
    get "error" result = PNone ->
    get "downloaded" result = PBool true /\ is_str (get "full_text" result);
  ro_links :
    exists links,
      get "discovered_links" result = PList links
      /\ (length links <= MAX_LINKS_PER_PAGE)%nat /\ NoDup links
      /\ (get "children_count" result = PNone
          \/ exists n, get "children_count" result = PInt n
                       /\ 0 <= n <= Z.of_nat (length links))
}.

End RecordWords.

Section LogWords.

Import Env Json.

(** One line of a JSONL log: a text without newline, and the newline
    that ends it. *)
Definition jsonl_line (data : string) : Prop :=
  exists line, data = line +:+ Str.nl /\ no_newline line.

(** The log of a brain. *)
Definition brain_log (brain : string) : string :=
  Str.path_join Scrape.BASE_OUTPUT_DIR (brain +:+ ".jsonl").

(** Events whose appends are lines of the log of [brain]. *)
Definition logs_to (brain : string) (evs : list event) : Prop :=
  Forall (fun pd => fst pd = brain_log brain /\ jsonl_line (snd pd)) (appends evs).

(** The records of a call match its requests: every append is a line of
    the log of [brain]; a call that returned appended as many records as
    it made requests; a call that raised, because the directory of the
    binary payloads could not be made, left its last request without a
    record. *)
Definition recorded (E : env) (brain : string) (evs : list event)
  (out : Scrape.outcome) : Prop :=
  logs_to brain evs
  /\ match out with
     | Scrape.Returned => length (appends evs) = length (gets evs)
     | Scrape.Raised msg =>
         S (length (appends evs)) = length (gets evs)
         /\ exists tr, makedirs_error E tr (Scrape.binary_output_dir brain) = Some msg
     | Scrape.Unfinished => False
     end.

(** Every append goes, as one line, to the log of one of the brains. *)
Definition logs_among (brains : list string) (evs : list event) : Prop :=
  Forall (fun pd => exists brain, brain ∈ brains /\ fst pd = brain_log brain
                                  /\ jsonl_line (snd pd))
         (appends evs).

End LogWords.

(** ** The archive client (archive.py) *)

Section ArchiveWords.

Import Json Archive.

(** The search requests among some actions, the URLs of the other
    requests, and the paths written. *)
Definition searches (evs : list action) : list (string * Z * Z) :=
  omap (fun a => match a with AcSearch q r p => Some (q, r, p) | _ => None end) evs.

Definition requests (evs : list action) : list string :=
  omap (fun a => match a with AcGet u => Some u | _ => None end) evs.

Definition stores (evs : list action) : list string :=
  omap (fun a => match a with AcWrite p _ => Some p | _ => None end) evs.

(** The name a file is asked for: a missing name raises, [null] is
    formatted as [None]. *)
Definition asked_name (f : fileinfo) : option string :=
  match name f with
  | Absent => None
  | Null => Some "None"
  | Text s => Some s
  end.

(** The requests for metadata and for files. *)
Definition item_request (url : string) : Prop :=
  Str.startswith METADATA_URL url = true \/ Str.startswith DOWNLOAD_BASE_URL url = true.

(** The keys every item starts with. *)
Definition ITEM_KEYS : list string :=
  [ "item_url"; "identifier"; "title"; "creator"; "year"; "mediatype"; "collection";
    "file_type"; "source_file"; "text" ].

(** What the item made for the document [d] satisfies. *)
Record item_ok (d : doc) (item : dict) : Prop := {
  io_keys : keys item = ITEM_KEYS \/ keys item = ITEM_KEYS ++ ["error"];
  io_identifier :
    exists id, identifier d = Some id
               /\ get "identifier" item = PStr id
               /\ get "item_url" item = PStr ("https://archive.org/details/" +:+ id);
  io_copied :
    get "title" item = title d /\ get "creator" item = creator d
    /\ get "year" item = year d /\ get "mediatype" item = mediatype d
    /\ get "collection" item = collection d;
  io_text : is_str (get "text" item);
  io_file :
    ((get "file_type" item = PStr "text" \/ get "file_type" item = PStr "pdf")
     /\ exists p, get "source_file" item = PStr p /\ inside ARCHIVE_RAW_DIR p)
    \/ (get "file_type" item = PStr "none" /\ get "text" item = PStr EmptyString);
  io_error :
    keys item = ITEM_KEYS ++ ["error"] ->
    get "file_type" item = PStr "none" /\ get "source_file" item = PNone
    /\ exists msg, get "error" item = PStr ("metadata_failed: " +:+ msg)
}.

End ArchiveWords.

(** * Properties *)

(** ** Strings *)

Module StrFacts.

Import Str.

Lemma all_filter p s : all p (filter p s) = true.
Proof.
  induction s as [|c s IH]; simpl; [reflexivity|].
  destruct (p c) eqn:E; simpl; [rewrite E|]; assumption.
Qed.

Lemma all_lstrip p s : all p s = true -> all p (lstrip s) = true.
Proof.
  induction s as [|c s IH]; simpl; [auto|].
  intros [Hc Hs]%andb_prop. destruct (isspace c); [auto|].
  simpl. rewrite Hc. exact Hs.
Qed.

Lemma all_rstrip p s : all p s = true -> all p (rstrip s) = true.
Proof.
  induction s as [|c s IH]; simpl; [auto|].
  intros [Hc Hs]%andb_prop. specialize (IH Hs).
  destruct (rstrip s) as [|d r].
  - destruct (isspace c); simpl; [reflexivity|]. rewrite Hc. reflexivity.
  - change (p c && all p (String d r) = true). rewrite Hc. exact IH.
Qed.

Lemma all_strip p s : all p s = true -> all p (strip s) = true.
Proof. intros H. apply all_rstrip, all_lstrip, H. Qed.

Lemma all_impl (p q : ascii -> bool) s :
  (forall c, p c = true -> q c = true) -> all p s = true -> all q s = true.
Proof.
  intros Hpq. induction s as [|c s IH]; simpl; [auto|].
  intros [Hc Hs]%andb_prop. rewrite (Hpq _ Hc). auto.
Qed.

Lemma all_mem p c s : all p s = true -> mem c s = true -> p c = true.
Proof.
  induction s as [|d s IH]; simpl; [discriminate|].
  intros [Hd Hs]%andb_prop [E|E]%orb_prop; [|auto].
  apply Ascii.eqb_eq in E. subst d. exact Hd.
Qed.

Lemma all_or_else p x d :
  all p x = true -> all p d = true -> all p (or_else x d) = true.
Proof. destruct x; simpl; auto. Qed.

Lemma or_else_nonempty x d : d <> EmptyString -> or_else x d <> EmptyString.
Proof. destruct x; simpl; [auto|discriminate]. Qed.

(** Stripping a string without white space leaves it unchanged. *)
Lemma lstrip_id s : all (fun c => negb (isspace c)) s = true -> lstrip s = s.
Proof.
  destruct s as [|c s]; simpl; [reflexivity|].
  intros [Hc _]%andb_prop. apply negb_true_iff in Hc. rewrite Hc. reflexivity.
Qed.

Lemma rstrip_id s : all (fun c => negb (isspace c)) s = true -> rstrip s = s.
Proof.
  induction s as [|c s IH]; simpl; [reflexivity|].
  intros [Hc Hs]%andb_prop. rewrite (IH Hs).
  apply negb_true_iff in Hc. rewrite Hc. destruct s; reflexivity.
Qed.

Lemma strip_id s : all (fun c => negb (isspace c)) s = true -> strip s = s.
Proof. intros H. unfold strip. rewrite (lstrip_id _ H). apply rstrip_id, H. Qed.

(** A character that is not white space survives stripping. *)
Lemma mem_lstrip c s : isspace c = false -> mem c s = true -> mem c (lstrip s) = true.
Proof.
  intros Hc. induction s as [|d s IH]; simpl; [auto|].
  intros H. destruct (isspace d) eqn:Hd; [|exact H].
  apply orb_prop in H as [E|E]; [|auto].
  apply Ascii.eqb_eq in E. congruence.
Qed.

Lemma mem_rstrip c s : isspace c = false -> mem c s = true -> mem c (rstrip s) = true.
Proof.
  intros Hc. induction s as [|d s IH]; simpl; [auto|].
  intros H. apply orb_prop in H as [E|E].
  - apply Ascii.eqb_eq in E. subst d. rewrite Hc.
    destruct (rstrip s); simpl; rewrite Ascii.eqb_refl; reflexivity.
  - specialize (IH E). destruct (rstrip s) as [|e r]; [discriminate|].
    change (Ascii.eqb c d || mem c (String e r) = true).
    rewrite IH. apply orb_true_r.
Qed.

Lemma mem_strip c s : isspace c = false -> mem c s = true -> mem c (strip s) = true.
Proof. intros Hc H. apply mem_rstrip, mem_lstrip; assumption. Qed.

Lemma mem_filter p c s : p c = true -> mem c s = true -> mem c (filter p s) = true.
Proof.
  intros Hc. induction s as [|d s IH]; simpl; [auto|].
  intros [E|E]%orb_prop.
  - apply Ascii.eqb_eq in E. subst d. rewrite Hc. simpl.
    rewrite Ascii.eqb_refl. reflexivity.
  - destruct (p d); simpl; rewrite (IH E); [apply orb_true_r|reflexivity].
Qed.

Lemma mem_app_r c s t : mem c t = true -> mem c (s ++ t) = true.
Proof.
  intros H. induction s as [|d s IH]; simpl; [exact H|].
  rewrite IH. apply orb_true_r.
Qed.

Lemma mem_app_l c s t : mem c s = true -> mem c (s ++ t) = true.
Proof.
  induction s as [|d s IH]; simpl; [discriminate|].
  intros [E|E]%orb_prop; [rewrite E; reflexivity|].
  rewrite (IH E). apply orb_true_r.
Qed.

Lemma mem_or_else c x d : mem c x = true -> mem c (or_else x d) = true.
Proof. destruct x; simpl; [discriminate|auto]. Qed.

Lemma all_not_mem p c s : all p s = true -> p c = false -> mem c s = false.
Proof.
  intros Hall Hc. destruct (mem c s) eqn:E; [|reflexivity].
  rewrite (all_mem p c s Hall E) in Hc. discriminate.
Qed.

Lemma alnum_not_space c : isalnum c = true -> isspace c = false.
Proof. destruct c as [[] [] [] [] [] [] [] []]; vm_compute; congruence. Qed.

End StrFacts.

(** ** File names (scrape.py and archive.py) *)

Section FileNames.

Import Str StrFacts.

Lemma sanitised_name (extra s : string) :
  let keep := fun c => isalnum c || mem c extra in
  let r := or_else (strip (filter keep s)) "file" in
  r <> EmptyString
  /\ all keep r = true
  /\ (filter keep s = EmptyString -> r = "file").
Proof.
  intros keep r. split; [|split].
  - apply or_else_nonempty. discriminate.
  - apply all_or_else; [apply all_strip, all_filter|reflexivity].
  - intros H. unfold r. rewrite H. reflexivity.
Qed.

Lemma sanitised_component (extra s : string) :
  let keep := fun c => isalnum c || mem c extra in
  mem "/" extra = false -> mem "000" extra = false ->
  path_component (or_else (strip (filter keep s)) "file").
Proof.
  intros keep H1 H2. destruct (sanitised_name extra s) as (Hne & Hall & _).
  split; [exact Hne|].
  split; eapply all_not_mem; try exact Hall; cbv beta; rewrite ?H1, ?H2; reflexivity.
Qed.

(** A name that held an underscore keeps one, so it is neither [.] nor
    [..]. *)
Lemma sanitised_keeps_underscore (extra a b : string) :
  let keep := fun c => isalnum c || mem c extra in
  mem "_" extra = true ->
  mem "_" (or_else (strip (filter keep (a +:+ "_" +:+ b))) "file") = true.
Proof.
  intros keep H. apply mem_or_else, mem_strip; [reflexivity|].
  apply mem_filter; [unfold keep; rewrite H; apply orb_true_r|].
  apply mem_app_r. simpl. reflexivity.
Qed.

Lemma underscore_not_dots (s : string) : mem "_" s = true -> s <> "." /\ s <> "..".
Proof. intros H; split; intros ->; discriminate. Qed.

(** C10: [safe_filename], in scrape.py and in archive.py, always returns
    a non-empty string whose characters are alphanumeric or in the
    module's punctuation set, and returns [file] when no character
    survives the filter; so it holds no slash and no NUL, and the names
    derived for stored files (which contain an underscore) are never
    [.] or [..]: each is a valid, non-empty path component. *)
Theorem safe_filename_path_component :
  forall s : string,
    (Scrape.safe_filename s <> EmptyString
     /\ all (fun c => isalnum c || mem c "-_.+=") (Scrape.safe_filename s) = true
     /\ (filter (fun c => isalnum c || mem c "-_.+=") s = EmptyString ->
         Scrape.safe_filename s = "file")
     /\ path_component (Scrape.safe_filename s))
    /\ (Archive.safe_filename s <> EmptyString
        /\ all (fun c => isalnum c || mem c "-_.+ ") (Archive.safe_filename s) = true
        /\ (filter (fun c => isalnum c || mem c "-_.+ ") s = EmptyString ->
            Archive.safe_filename s = "file")
        /\ path_component (Archive.safe_filename s))
    /\ (forall (E : Env.env) (url ext : string),
          path_component (Scrape.binary_filename E url ext)
          /\ Scrape.binary_filename E url ext <> "."
          /\ Scrape.binary_filename E url ext <> "..")
    /\ (forall identifier name : string,
          path_component (Archive.download_name identifier name)
          /\ Archive.download_name identifier name <> "."
          /\ Archive.download_name identifier name <> "..").
Proof.
  intros s. repeat split.
  all: try (apply (sanitised_name "-_.+=" s) || apply (sanitised_name "-_.+ " s)).
  all: try (apply (sanitised_component "-_.+=") || apply (sanitised_component "-_.+ ");
            reflexivity).
  all: try (apply (underscore_not_dots _
                     (sanitised_keeps_underscore "-_.+=" _ _ eq_refl))).
  all: apply (underscore_not_dots _ (sanitised_keeps_underscore "-_.+ " _ _ eq_refl)).
Qed.

End FileNames.

(** ** Article extraction (scraper.py) *)

Section ArticleText.

Import Scraper.

(** The loop keeps the first candidate of greatest length, if any is
    longer than what it started from. *)
Lemma best_step_fold (cands : list Soup.node) (acc : option string * nat) :
  (fold_left best_step cands acc = acc
   /\ forall c, c ∈ cands -> (block_len c <= snd acc)%nat)
  \/ exists pre b post,
       cands = pre ++ b :: post
       /\ fold_left best_step cands acc
          = (Some (Str.strip (Soup.get_text EmptyString b)), block_len b)
       /\ (snd acc < block_len b)%nat
       /\ (forall c, c ∈ pre -> (block_len c < block_len b)%nat)
       /\ (forall c, c ∈ post -> (block_len c <= block_len b)%nat).
Proof.
  revert acc. induction cands as [|c cands IH]; intros acc; simpl.
  - left. split; [reflexivity|]. intros c Hc. inversion Hc.
  - replace (best_step acc c)
      with (if (snd acc <? block_len c)%nat
            then (Some (Str.strip (Soup.get_text EmptyString c)), block_len c)
            else acc) by reflexivity.
    destruct (snd acc <? block_len c)%nat eqn:Hlt.
    + apply Nat.ltb_lt in Hlt.
      destruct (IH (Some (Str.strip (Soup.get_text EmptyString c)), block_len c))
        as [[Heq Hall] | (pre & b & post & -> & Heq & Hb & Hpre & Hpost)].
      * right. exists [], c, cands. simpl in Hall.
        repeat split; [exact Heq|exact Hlt| |exact Hall].
        intros c' Hc'. inversion Hc'.
      * right. exists (c :: pre), b, post. simpl in Hb.
        repeat split; [exact Heq|lia| |exact Hpost].
        intros c' [->|Hc']%elem_of_cons; [exact Hb|auto].
    + apply Nat.ltb_ge in Hlt.
      destruct (IH acc) as [[Heq Hall] | (pre & b & post & -> & Heq & Hb & Hpre & Hpost)].
      * left. split; [exact Heq|].
        intros c' [->|Hc']%elem_of_cons; [exact Hlt|auto].
      * right. exists (c :: pre), b, post.
        repeat split; [exact Heq|exact Hb| |exact Hpost].
        intros c' [->|Hc']%elem_of_cons; [lia|auto].
Qed.

Lemma lstrip_starts_clean s : Str.lstrip s = EmptyString \/ starts_clean (Str.lstrip s) = true.
Proof.
  induction s as [|c s IH]; simpl; [auto|].
  destruct (Str.isspace c) eqn:Hc; [exact IH|]. right. simpl. rewrite Hc. reflexivity.
Qed.

Lemma rstrip_ends_clean s : Str.rstrip s = EmptyString \/ ends_clean (Str.rstrip s) = true.
Proof.
  induction s as [|c s IH]; simpl; [auto|].
  destruct (Str.rstrip s) as [|d r].
  - destruct (Str.isspace c) eqn:Hc; [auto|]. right. simpl. rewrite Hc. reflexivity.
  - right. destruct IH as [IH|IH]; [discriminate|]. exact IH.
Qed.

Lemma rstrip_starts_clean s : starts_clean s = true -> starts_clean (Str.rstrip s) = true.
Proof.
  destruct s as [|c s]; simpl; [auto|]. intros Hc.
  destruct (Str.rstrip s); [|exact Hc].
  apply negb_true_iff in Hc. rewrite Hc. simpl. rewrite Hc. reflexivity.
Qed.

Lemma strip_clean s :
  Str.strip s <> EmptyString ->
  starts_clean (Str.strip s) = true /\ ends_clean (Str.strip s) = true.
Proof.
  unfold Str.strip. intros Hne. split.
  - destruct (lstrip_starts_clean s) as [H|H].
    + rewrite H in Hne. contradiction.
    + apply rstrip_starts_clean, H.
  - destruct (rstrip_ends_clean (Str.lstrip s)) as [H|H]; [contradiction|exact H].
Qed.

Lemma rstrip_clean s : ends_clean s = true -> Str.rstrip s = s.
Proof.
  induction s as [|c s IH]; [reflexivity|].
  destruct s as [|d s].
  - simpl. intros Hc. apply negb_true_iff in Hc. rewrite Hc. reflexivity.
  - intros H. change (ends_clean (String d s) = true) in H.
    cbn [Str.rstrip] in *. rewrite (IH H). reflexivity.
Qed.

Lemma strip_of_clean s : starts_clean s = true -> ends_clean s = true -> Str.strip s = s.
Proof.
  intros Hs He. unfold Str.strip.
  assert (Hl : Str.lstrip s = s).
  { destruct s as [|c s]; [reflexivity|]. simpl in *.
    apply negb_true_iff in Hs. rewrite Hs. reflexivity. }
  rewrite Hl. apply rstrip_clean, He.
Qed.

Lemma starts_clean_app a b : starts_clean a = true -> starts_clean (a +:+ b) = true.
Proof. destruct a; [discriminate|auto]. Qed.

Lemma ends_clean_app a b : ends_clean b = true -> ends_clean (a +:+ b) = true.
Proof.
  intros Hb. induction a as [|c a IH]; [exact Hb|].
  change (String c a +:+ b) with (String c (a +:+ b)).
  destruct (a +:+ b) eqn:Hab; [discriminate|exact IH].
Qed.

(** The concatenation of stripped, non-empty texts is itself stripped. *)
Lemma join_clean (l : list string) :
  l <> [] ->
  Forall (fun t => starts_clean t = true /\ ends_clean t = true) l ->
  Str.strip (Str.join EmptyString l) = Str.join EmptyString l.
Proof.
  intros Hne Hall.
  assert (H : starts_clean (Str.join EmptyString l) = true
              /\ ends_clean (Str.join EmptyString l) = true).
  { induction Hall as [|t l [Hs He] Hall IH]; [contradiction|].
    destruct l as [|t' l]; [auto|].
    change (Str.join EmptyString (t :: t' :: l))
      with (t +:+ EmptyString +:+ Str.join EmptyString (t' :: l)).
    destruct IH as [IHs IHe]; [discriminate|]. split.
    - apply starts_clean_app, Hs.
    - apply ends_clean_app, IHe. }
  destruct H. apply strip_of_clean; assumption.
Qed.

Lemma paragraph_texts_clean (doc : list Soup.node) :
  Forall (fun t => starts_clean t = true /\ ends_clean t = true) (paragraph_texts doc).
Proof.
  unfold paragraph_texts. apply Forall_forall. intros t Ht.
  apply list_elem_of_In, filter_In in Ht as [Hin Hne].
  apply in_map_iff in Hin as (p & <- & _).
  apply strip_clean. intros Heq. rewrite Heq in Hne. discriminate.
Qed.

(** C5: the article text follows the ordered fallback: the first
    [article] element's text; else the first [main] element's text; else
    the text of the largest block among the first 40 div, section,
    article and body elements (the first of the largest ones), taken only
    when it is longer than 200 characters; else the concatenation of the
    first 50 non-empty paragraph texts in document order; else the text
    of the whole page.  [extract_text_from_html] returns this text
    stripped, which leaves the concatenation of paragraphs as it is. *)
Theorem extract_main_article_text_fallback :
  forall doc : list Soup.node,
    let result := extract_main_article_text doc in
    let candidates := Soup.find_all ["div"; "section"; "article"; "body"] (Some 40%nat) doc in
    let no_large_block := forall c, c ∈ candidates -> (block_len c <= 200)%nat in
    (forall article, Soup.find "article" doc = Some article ->
        result = Soup.get_text EmptyString article)
    /\ (Soup.find "article" doc = None ->
        forall main, Soup.find "main" doc = Some main ->
          result = Soup.get_text EmptyString main)
    /\ (length candidates <= 40)%nat
    /\ (Soup.find "article" doc = None -> Soup.find "main" doc = None ->
        ~ no_large_block ->
        exists pre best post,
          candidates = pre ++ best :: post
          /\ result = Str.strip (Soup.get_text EmptyString best)
          /\ (200 < block_len best)%nat
          /\ (forall c, c ∈ pre -> (block_len c < block_len best)%nat)
          /\ (forall c, c ∈ post -> (block_len c <= block_len best)%nat))
    /\ (Soup.find "article" doc = None -> Soup.find "main" doc = None ->
        no_large_block -> paragraph_texts doc <> [] ->
        result = Str.join EmptyString (firstn 50 (paragraph_texts doc)))
    /\ (Soup.find "article" doc = None -> Soup.find "main" doc = None ->
        no_large_block -> paragraph_texts doc = [] ->
        result = Soup.doc_text EmptyString doc)
    /\ (paragraph_texts doc <> [] ->
        Str.strip (Str.join EmptyString (firstn 50 (paragraph_texts doc)))
        = Str.join EmptyString (firstn 50 (paragraph_texts doc)))
    /\ (forall (E : Env.env) (html : string),
          snd (extract_text_from_html E html)
          = Str.strip
              (extract_main_article_text
                 (Soup.decompose ["script"; "style"; "noscript"] (Env.parse_html E html)))).
Proof.
  intros doc result candidates no_large_block.
  assert (Hcap : (length candidates <= 40)%nat).
  { unfold candidates, Soup.find_all. rewrite length_firstn. lia. }
  assert (Hrest : Soup.find "article" doc = None -> Soup.find "main" doc = None ->
            result =
              let '(best, best_len) := fold_left best_step candidates (None, 0%nat) in
              if (200 <? best_len)%nat then default EmptyString best
              else match Soup.find_all ["p"] None doc, paragraph_texts doc with
                   | _ :: _, _ :: _ => Str.join EmptyString (firstn 50 (paragraph_texts doc))
                   | _, _ => Soup.doc_text EmptyString doc
                   end).
  { intros Ha Hm. unfold result, extract_main_article_text. rewrite Ha, Hm. reflexivity. }
  split; [|split; [|split; [exact Hcap|split; [|split; [|split; [|split]]]]]].
  7: { intros E html. reflexivity. }
  6: { intros Hne. apply join_clean.
       - destruct (paragraph_texts doc); [contradiction|discriminate].
       - apply Forall_take, paragraph_texts_clean. }
  - intros a Ha. unfold result, extract_main_article_text. rewrite Ha. reflexivity.
  - intros Ha m Hm. unfold result, extract_main_article_text. rewrite Ha, Hm. reflexivity.
  - intros Ha Hm Hlarge. rewrite (Hrest Ha Hm).
    destruct (best_step_fold candidates (None, 0%nat))
      as [[Heq Hall] | (pre & b & post & Hc & Heq & Hb & Hpre & Hpost)].
    + exfalso. apply Hlarge. intros c Hc. specialize (Hall c Hc). simpl in Hall. lia.
    + rewrite Heq.
      destruct (200 <? block_len b)%nat eqn:Hlen.
      * apply Nat.ltb_lt in Hlen. exists pre, b, post. auto.
      * exfalso. apply Hlarge. apply Nat.ltb_ge in Hlen.
        intros c Hin. rewrite Hc in Hin.
        apply elem_of_app in Hin as [Hin|Hin].
        { specialize (Hpre c Hin). lia. }
        apply elem_of_cons in Hin as [->|Hin]; [lia|].
        specialize (Hpost c Hin). lia.
  - intros Ha Hm Hsmall Htexts. rewrite (Hrest Ha Hm).
    assert (Hfold : (snd (fold_left best_step candidates (None, 0%nat)) <= 200)%nat).
    { destruct (best_step_fold candidates (None, 0%nat))
        as [[Heq Hall] | (pre & b & post & Hc & Heq & Hb & Hpre & Hpost)];
        rewrite Heq; simpl; [lia|].
      apply Hsmall. rewrite Hc. apply elem_of_app. right. apply elem_of_cons. auto. }
    destruct (fold_left best_step candidates (None, 0%nat)) as [best best_len].
    simpl in Hfold. apply Nat.ltb_ge in Hfold. rewrite Hfold.
    destruct (paragraph_texts doc) as [|t ts] eqn:Hts; [congruence|].
    destruct (Soup.find_all ["p"] None doc) eqn:Hps; [|reflexivity].
    unfold paragraph_texts in Hts. rewrite Hps in Hts. discriminate.
  - intros Ha Hm Hsmall Htexts. rewrite (Hrest Ha Hm).
    assert (Hfold : (snd (fold_left best_step candidates (None, 0%nat)) <= 200)%nat).
    { destruct (best_step_fold candidates (None, 0%nat))
        as [[Heq Hall] | (pre & b & post & Hc & Heq & Hb & Hpre & Hpost)];
        rewrite Heq; simpl; [lia|].
      apply Hsmall. rewrite Hc. apply elem_of_app. right. apply elem_of_cons. auto. }
    destruct (fold_left best_step candidates (None, 0%nat)) as [best best_len].
    simpl in Hfold. apply Nat.ltb_ge in Hfold. rewrite Hfold.
    rewrite Htexts. destruct (Soup.find_all ["p"] None doc); reflexivity.
Qed.

End ArticleText.

(** ** Fetching with retries (scraper.py) and without (scrape.py) *)

Section Fetching.

Import Env Json Scraper.

Variable E : env.

Lemma failures_snoc url i k tr :
  failures url i (S k) tr
  = EvSleep (1000 * (1 + Z.of_nat (i + k) * 2)) :: EvWarn url (S (i + k))
      :: EvGet url (i + k) :: failures url i k tr.
Proof.
  revert i tr. induction k as [|k IH]; intros i tr.
  - simpl. rewrite Nat.add_0_r. reflexivity.
  - change (failures url i (S (S k)) tr)
      with (failures url (S i) (S k)
              (EvSleep (1000 * (1 + Z.of_nat i * 2)) :: EvWarn url (S i) :: EvGet url i :: tr)).
    rewrite IH. replace (S i + k)%nat with (i + S k)%nat by lia. reflexivity.
Qed.

(** What [safe_get_from] does: it stops at the first attempt that
    succeeds, or gives up after [n] failures. *)
Lemma safe_get_from_spec (n i : nat) (url : string) (tr : list event) :
  (exists k r,
      (k < n)%nat
      /\ (forall j, (j < k)%nat -> attempt_fails E (failures url i j tr) url = true)
      /\ http_get E (failures url i k tr) url = Some r /\ ok r = true
      /\ safe_get_from E i n url tr = (EvGet url (i + k) :: failures url i k tr, Some r))
  \/ ((forall j, (j < n)%nat -> attempt_fails E (failures url i j tr) url = true)
      /\ safe_get_from E i n url tr = (EvGiveUp url :: failures url i n tr, None)).
Proof.
  revert i tr. induction n as [|n IH]; intros i tr.
  - right. split; [intros j Hj; lia|reflexivity].
  - simpl safe_get_from.
    destruct (http_get E tr url) as [r|] eqn:Hget.
    2: {
      destruct (IH (S i)
                  (EvSleep (1000 * (1 + Z.of_nat i * 2)) :: EvWarn url (S i)
                     :: EvGet url i :: tr))
        as [(k & r & Hk & Hf & Hg & Hok & Heq) | [Hf Heq]].
      - left. exists (S k), r. replace (i + S k)%nat with (S i + k)%nat by lia.
        repeat split; [lia| |exact Hg|exact Hok|exact Heq].
        intros [|j] Hj; [unfold attempt_fails; simpl; rewrite Hget; reflexivity|].
        apply Hf. lia.
      - right. split; [|exact Heq].
        intros [|j] Hj; [unfold attempt_fails; simpl; rewrite Hget; reflexivity|].
        apply Hf. lia. }
    destruct (ok r) eqn:Hok.
    + left. exists 0%nat, r. rewrite Nat.add_0_r.
      repeat split; [lia| |exact Hget|exact Hok].
      intros j Hj. lia.
    + destruct (IH (S i)
                  (EvSleep (1000 * (1 + Z.of_nat i * 2)) :: EvWarn url (S i)
                     :: EvGet url i :: tr))
        as [(k & r' & Hk & Hf & Hg & Hok' & Heq) | [Hf Heq]].
      * left. exists (S k), r'. replace (i + S k)%nat with (S i + k)%nat by lia.
        repeat split; [lia| |exact Hg|exact Hok'|exact Heq].
        intros [|j] Hj; [unfold attempt_fails; simpl; rewrite Hget, Hok; reflexivity|].
        apply Hf. lia.
      * right. split; [|exact Heq].
        intros [|j] Hj; [unfold attempt_fails; simpl; rewrite Hget, Hok; reflexivity|].
        apply Hf. lia.
Qed.

Lemma safe_get_ok (url : string) (tr tr' : list event) (r : response) :
  safe_get E url tr = (tr', Some r) -> ok r = true.
Proof.
  unfold safe_get. intros H.
  destruct (safe_get_from_spec REQUEST_RETRIES 0 url tr)
    as [(k & r' & _ & _ & _ & Hok & Heq) | [_ Heq]]; congruence.
Qed.

End Fetching.

(** ** The crawl as a whole (scraper.py) *)

Section Crawl.

Import Env Json Scraper.

Variable E : env.

Lemma task_urls_app a b : task_urls (a ++ b) = task_urls a ++ task_urls b.
Proof. apply omap_app. Qed.

Lemma first_gets_app a b : first_gets (a ++ b) = first_gets a ++ first_gets b.
Proof. apply omap_app. Qed.

Lemma appends_app a b : appends (a ++ b) = appends a ++ appends b.
Proof. apply omap_app. Qed.

Lemma claimed_app a b : claimed a -> claimed b -> claimed (a ++ b).
Proof.
  intros Ha Hb. induction a as [|e a IH]; [exact Hb|].
  destruct e; simpl in *; try (apply IH; exact Ha).
  destruct Ha as [(d & src & Hin & Hreq) Ha]. split; [|auto].
  exists d, src. split; [|exact Hreq]. apply elem_of_app. left. exact Hin.
Qed.

Lemma parented_app lo a b : parented lo a -> parented lo b -> parented lo (a ++ b).
Proof.
  intros Ha Hb. induction a as [|e a IH]; [exact Hb|].
  destruct e; simpl in *; try (apply IH; exact Ha).
  destruct Ha as [Hd Ha]. split; [|auto].
  destruct Hd as [->|(d' & p & -> & Hin)]; [auto|].
  right. exists d', p. split; [reflexivity|]. apply elem_of_app. auto.
Qed.

(** The crawl of the links of a task at depth [lo], put after the
    start of that task. *)
Lemma parented_below lo e2 g url :
  parented (S lo) e2 -> task_urls g = [] -> parented lo (e2 ++ g ++ [EvInfo lo url]).
Proof.
  intros H2 Hg. induction e2 as [|e e2 IH].
  - simpl. induction g as [|e g IHg]; simpl; [auto|].
    destruct e; simpl in Hg; try discriminate; auto.
  - destruct e; simpl in *; try (apply IH; exact H2).
    destruct H2 as [Hd H2]. split; [|auto]. right.
    destruct Hd as [->|(d' & p & -> & Hin)].
    + exists lo, url. split; [reflexivity|].
      apply elem_of_app. right. apply elem_of_app. right. apply elem_of_cons. auto.
    + exists d', p. split; [reflexivity|]. apply elem_of_app. auto.
Qed.

Lemma quiet_parented lo q : quiet q -> parented lo q.
Proof. induction 1 as [|e q He _ IH]; [exact I|]. destruct e; try discriminate; exact IH. Qed.

Lemma quiet_task_urls q : quiet q -> task_urls q = [].
Proof. induction 1 as [|e q He _ IH]; [reflexivity|]. destruct e; try discriminate; exact IH. Qed.

Lemma quiet_first_gets q : quiet q -> first_gets q = [].
Proof. induction 1 as [|e q He _ IH]; [reflexivity|]. destruct e; try discriminate; exact IH. Qed.

Lemma quiet_appends q : quiet q -> appends q = [].
Proof. induction 1 as [|e q He _ IH]; [reflexivity|]. destruct e; try discriminate; exact IH. Qed.

Lemma quiet_claimed q : quiet q -> claimed q.
Proof. induction 1 as [|e q He _ IH]; [exact I|]. destruct e; try discriminate; exact IH. Qed.

Lemma quiet_no_info q d u : quiet q -> EvInfo d u ∉ q.
Proof.
  intros Hq Hin. unfold quiet in Hq. rewrite Forall_forall in Hq.
  specialize (Hq _ Hin). discriminate.
Qed.

Lemma quiet_app a b : quiet a -> quiet b -> quiet (a ++ b).
Proof. apply Forall_app_2. Qed.

Lemma info_task_urls d u evs : EvInfo d u ∈ evs -> u ∈ task_urls evs.
Proof.
  intros H. unfold task_urls. apply list_elem_of_omap. exists (EvInfo d u). auto.
Qed.

Lemma task_urls_info u evs : u ∈ task_urls evs -> exists d, EvInfo d u ∈ evs.
Proof.
  unfold task_urls. intros (e & Hin & He)%list_elem_of_omap.
  destruct e; try discriminate. injection He as ->. eauto.
Qed.

Lemma crawled_trans lo w1 w2 w3 e1 e2 :
  crawled lo w1 w2 e1 -> crawled lo w2 w3 e2 -> crawled lo w1 w3 (e2 ++ e1).
Proof.
  intros [T1 V1 N1 F1 D1 G1 C1 (r1 & A1 & S1)] [T2 V2 N2 F2 D2 G2 C2 (r2 & A2 & S2)].
  split.
  - rewrite T2, T1. rewrite app_assoc. reflexivity.
  - rewrite V2, V1, task_urls_app. set_solver.
  - rewrite task_urls_app. apply NoDup_app. repeat split; [exact N2| |exact N1].
    intros u H2 H1. apply (F2 u H2). rewrite V1. set_solver.
  - intros u. rewrite task_urls_app. intros [H|H]%elem_of_app; [|auto].
    intros Hv. apply (F2 u H). rewrite V1. set_solver.
  - intros d u [H|H]%elem_of_app; eauto.
  - rewrite first_gets_app, task_urls_app, fmap_app, G1, G2. reflexivity.
  - apply claimed_app; assumption.
  - exists (r2 ++ r1). rewrite appends_app, !fmap_app, A1, A2, task_urls_app, fmap_app.
    split; [reflexivity|]. apply submseteq_app; assumption.
Qed.

Lemma crawled_quiet lo w q :
  quiet q -> crawled lo w {| visited := visited w; trace := q ++ trace w |} q.
Proof.
  intros Hq. split; simpl.
  - reflexivity.
  - rewrite (quiet_task_urls q Hq). set_solver.
  - rewrite (quiet_task_urls q Hq). constructor.
  - rewrite (quiet_task_urls q Hq). intros u Hu. inversion Hu.
  - intros d u Hu. destruct (quiet_no_info q d u Hq Hu).
  - rewrite (quiet_task_urls q Hq), (quiet_first_gets q Hq). reflexivity.
  - apply quiet_claimed, Hq.
  - exists []. rewrite (quiet_appends q Hq). split; [reflexivity|]. apply submseteq_nil_l.
Qed.

Lemma crawled_refl lo w : crawled lo w w [].
Proof. destruct w as [v t]. apply (crawled_quiet lo {| visited := v; trace := t |} []). constructor. Qed.

Lemma crawled_weaken lo lo' w w' evs :
  (lo' <= lo)%nat -> crawled lo w w' evs -> crawled lo' w w' evs.
Proof.
  intros Hle [T V N F D G C R]. split; try assumption.
  intros d u Hu. specialize (D d u Hu). lia.
Qed.

(** *** Dictionaries *)

Lemma get_set_eq k v d : get k (set k v d) = v.
Proof.
  induction d as [|[k' v'] d IH]; simpl.
  - rewrite String.eqb_refl. reflexivity.
  - destruct (String.eqb k' k) eqn:Hk; simpl.
    + rewrite String.eqb_refl. reflexivity.
    + rewrite Hk. exact IH.
Qed.

Lemma get_set_ne k k' v d : k <> k' -> get k (set k' v d) = get k d.
Proof.
  intros Hne. induction d as [|[k2 v2] d IH]; simpl.
  - destruct (String.eqb k' k) eqn:Hk; [|reflexivity].
    apply String.eqb_eq in Hk. congruence.
  - destruct (String.eqb k2 k') eqn:Hk; simpl.
    + apply String.eqb_eq in Hk. subst k2.
      destruct (String.eqb k' k) eqn:Hk'; [|reflexivity].
      apply String.eqb_eq in Hk'. congruence.
    + rewrite IH. reflexivity.
Qed.

Lemma set_nonempty k v d : set k v d <> [].
Proof. destruct d as [|[k' v'] d]; simpl; [discriminate|]. destruct (String.eqb k' k); discriminate. Qed.

(** *** The steps of a task *)

Lemma write_file_quiet path data tr :
  exists q, fst (write_file E path data tr) = q ++ tr /\ quiet q.
Proof.
  unfold write_file. destruct (open_error E tr path); simpl.
  - exists []. split; [reflexivity|constructor].
  - exists [EvWrite path data]. split; [reflexivity|]. repeat constructor.
Qed.

Lemma extract_text_from_pdf_quiet path tr :
  exists q, fst (extract_text_from_pdf E path tr) = q ++ tr /\ quiet q.
Proof.
  unfold extract_text_from_pdf. destruct (file_contents path tr ≫= pdf_extract E); simpl.
  - exists []. split; [reflexivity|constructor].
  - eexists [_]. split; [reflexivity|]. repeat constructor.
Qed.

Lemma pdf_branch_quiet resp tr result :
  exists q,
    fst (fst (pdf_branch E resp tr result)) = q ++ tr /\ quiet q
    /\ source_of (snd (fst (pdf_branch E resp tr result))) = source_of result.
Proof.
  unfold pdf_branch.
  set (p1 := Str.path_join DOWNLOAD_DIR _).
  destruct (write_file_quiet p1 (resp_content resp) tr) as (q1 & H1 & Q1).
  destruct (write_file E p1 (resp_content resp) tr) as [tr1 [e|]]; simpl in H1; subst tr1.
  { exists q1. auto. }
  destruct (extract_text_from_pdf_quiet p1 (q1 ++ tr)) as (q2 & H2 & Q2).
  destruct (extract_text_from_pdf E p1 (q1 ++ tr)) as [tr2 text]; simpl in H2; subst tr2.
  set (p3 := Str.path_join EXTRACT_DIR _).
  destruct (write_file_quiet p3 text (q2 ++ q1 ++ tr)) as (q3 & H3 & Q3).
  destruct (write_file E p3 text (q2 ++ q1 ++ tr)) as [tr3 [e|]]; simpl in H3; subst tr3; simpl.
  - exists (q3 ++ q2 ++ q1). rewrite <- !app_assoc.
    repeat split; [repeat apply quiet_app; assumption|].
    unfold source_of. rewrite !get_set_ne by discriminate. reflexivity.
  - exists (q3 ++ q2 ++ q1). rewrite <- !app_assoc.
    repeat split; [repeat apply quiet_app; assumption|].
    unfold source_of. rewrite !get_set_ne by discriminate. reflexivity.
Qed.

Lemma html_branch_quiet resp tr result :
  exists q,
    fst (fst (html_branch E resp tr result)) = q ++ tr /\ quiet q
    /\ source_of (snd (fst (html_branch E resp tr result))) = source_of result.
Proof.
  unfold html_branch.
  set (p1 := Str.path_join DOWNLOAD_DIR _).
  destruct (write_file_quiet p1 (resp_text resp) tr) as (q1 & H1 & Q1).
  destruct (write_file E p1 (resp_text resp) tr) as [tr1 [e|]]; simpl in H1; subst tr1.
  { exists q1. auto. }
  destruct (extract_text_from_html E (resp_text resp)) as [full_text article_text].
  set (p2 := Str.path_join EXTRACT_DIR _).
  destruct (write_file_quiet p2 full_text (q1 ++ tr)) as (q2 & H2 & Q2).
  destruct (write_file E p2 full_text (q1 ++ tr)) as [tr2 [e|]]; simpl in H2; subst tr2.
  { exists (q2 ++ q1). rewrite <- app_assoc. simpl.
    repeat split; [apply quiet_app; assumption|].
    unfold source_of. rewrite !get_set_ne by discriminate. reflexivity. }
  set (p3 := Str.path_join EXTRACT_DIR _).
  destruct (write_file_quiet p3 article_text (q2 ++ q1 ++ tr)) as (q3 & H3 & Q3).
  destruct (write_file E p3 article_text (q2 ++ q1 ++ tr)) as [tr3 [e|]];
    simpl in H3; subst tr3.
  { exists (q3 ++ q2 ++ q1). rewrite <- !app_assoc. simpl.
    repeat split; [repeat apply quiet_app; assumption|].
    unfold source_of. rewrite !get_set_ne by discriminate. reflexivity. }
  exists (q3 ++ q2 ++ q1). rewrite <- !app_assoc. simpl.
  repeat split; [repeat apply quiet_app; assumption|].
  unfold source_of.
  rewrite get_set_ne by discriminate.
  destruct (published E _); [rewrite get_set_ne by discriminate|];
    (destruct (Soup.find "title" _); [rewrite get_set_ne by discriminate|]);
    rewrite !get_set_ne by discriminate; reflexivity.
Qed.

Lemma failures_events url i k tr :
  exists f,
    failures url i k tr = f ++ tr
    /\ task_urls f = [] /\ appends f = []
    /\ first_gets f = (if (i =? 0)%nat && (0 <? k)%nat then [url] else [])
    /\ (forall u j, EvGet u j ∈ f -> u = url).
Proof.
  revert i tr. induction k as [|k IH]; intros i tr.
  - exists []. rewrite andb_false_r. repeat split. intros u j Hin. inversion Hin.
  - simpl failures.
    destruct (IH (S i) (EvSleep (1000 * (1 + Z.of_nat i * 2)) :: EvWarn url (S i)
                          :: EvGet url i :: tr))
      as (f & Hf & Ht & Ha & Hg & Hu).
    exists (f ++ [EvSleep (1000 * (1 + Z.of_nat i * 2)); EvWarn url (S i); EvGet url i]).
    rewrite <- app_assoc. split; [exact Hf|].
    rewrite task_urls_app, appends_app, first_gets_app, Ht, Ha, Hg. simpl.
    repeat split.
    + destruct i; reflexivity.
    + intros u j [Hin|Hin]%elem_of_app; [eauto|].
      repeat (apply elem_of_cons in Hin as [Hin|Hin]; [congruence|]).
      inversion Hin.
Qed.

(** A fetch starts no task and makes one first attempt, for its URL. *)
Lemma safe_get_events url tr :
  exists g,
    fst (safe_get E url tr) = g ++ tr
    /\ task_urls g = [] /\ appends g = [] /\ first_gets g = [url]
    /\ (forall u j, EvGet u j ∈ g -> u = url).
Proof.
  unfold safe_get.
  destruct (safe_get_from_spec E REQUEST_RETRIES 0 url tr)
    as [(k & r & Hk & _ & _ & _ & ->) | [_ ->]]; cbn [fst].
  - destruct (failures_events url 0 k tr) as (f & -> & Ht & Ha & Hg & Hu).
    exists (EvGet url k :: f). simpl. rewrite Ht, Ha, Hg.
    repeat split.
    + destruct k; reflexivity.
    + intros u j [Hin|Hin]%elem_of_cons; [congruence|eauto].
  - destruct (failures_events url 0 REQUEST_RETRIES tr) as (f & -> & Ht & Ha & Hg & Hu).
    exists (EvGiveUp url :: f). simpl. rewrite Ht, Ha, Hg.
    repeat split.
    intros u j [Hin|Hin]%elem_of_cons; [congruence|eauto].
Qed.

Lemma claimed_gets g d src :
  task_urls g = [] -> (forall u j, EvGet u j ∈ g -> u = request_url src) ->
  claimed (g ++ [EvInfo d src]).
Proof.
  intros _ Hu. induction g as [|e g IH]; [exact I|].
  assert (IH' : claimed (g ++ [EvInfo d src])).
  { apply IH. intros u j Hin. apply (Hu u j). apply elem_of_cons. auto. }
  destruct e; simpl; try exact IH'.
  split; [|exact IH']. exists d, src. split.
  - apply elem_of_app. right. apply elem_of_cons. auto.
  - symmetry. apply (Hu url attempt). apply elem_of_cons. auto.
Qed.

(** Claiming a URL and fetching it. *)
Lemma crawled_fetch depth url w tr r :
  url ∉ visited w -> (depth <= MAX_CRAWL_DEPTH)%nat ->
  safe_get E (request_url url) (EvInfo depth url :: trace w) = (tr, r) ->
  exists g,
    crawled depth w {| visited := {[url]} ∪ visited w; trace := tr |} (g ++ [EvInfo depth url])
    /\ task_urls g = [] /\ appends g = [].
Proof.
  intros Hfresh Hdepth Hget.
  destruct (safe_get_events (request_url url) (EvInfo depth url :: trace w))
    as (g & Hg & Ht & Ha & Hf & Hu).
  rewrite Hget in Hg. simpl in Hg. subst tr.
  exists g. split; [|auto]. split; simpl.
  - rewrite <- app_assoc. reflexivity.
  - rewrite task_urls_app, Ht. simpl. set_solver.
  - rewrite task_urls_app, Ht. simpl. apply NoDup_singleton.
  - rewrite task_urls_app, Ht. simpl. intros u ->%list_elem_of_singleton. exact Hfresh.
  - intros d u [Hin|Hin]%elem_of_app.
    + apply info_task_urls in Hin. rewrite Ht in Hin. inversion Hin.
    + apply list_elem_of_singleton in Hin. injection Hin as -> ->. lia.
  - rewrite first_gets_app, task_urls_app, Hf, Ht. reflexivity.
  - apply claimed_gets; assumption.
  - exists []. rewrite appends_app, Ha. split; [reflexivity|]. apply submseteq_nil_l.
Qed.

(** Closing a task: the result is written and appended to the log. *)
Lemma crawled_task lo w w1 w2 g e2 url req result :
  crawled lo w w1 (g ++ [EvInfo lo url]) -> task_urls g = [] -> appends g = [] ->
  crawled (S lo) w1 w2 e2 -> parented (S lo) e2 ->
  source_of result = PStr url ->
  exists evs,
    crawled lo w {| visited := visited w2; trace := persist E req result (trace w2) |} evs
    /\ parented lo evs
    /\ EvInfo lo url ∈ evs
    /\ (forall d u, EvInfo d u ∈ evs -> (d = lo /\ u = url) \/ (S lo <= d)%nat).
Proof.
  intros H1 Ht Ha H2 P2 Hsrc.
  assert (H2' : crawled lo w1 w2 e2) by (apply (crawled_weaken (S lo)); [lia|exact H2]).
  pose proof (crawled_trans lo w w1 w2 _ _ H1 H2') as [T V N F D G C _].
  destruct H2 as [_ _ _ _ D2 _ _ (r2 & A2 & S2)].
  eexists (EvSleep _ :: EvAppend _ _ :: EvWrite _ _ :: e2 ++ g ++ [EvInfo lo url]).
  split; [split|split; [|split]].
  - unfold persist. simpl. rewrite T. reflexivity.
  - exact V.
  - exact N.
  - exact F.
  - intros d' u Hin. apply (D d' u).
    repeat (apply elem_of_cons in Hin as [Hin|Hin]; [discriminate|]). exact Hin.
  - exact G.
  - exact C.
  - exists (result :: r2). simpl. rewrite !appends_app, A2, Ha, !task_urls_app, Ht. simpl.
    split; [rewrite app_nil_r; reflexivity|].
    rewrite Hsrc, fmap_app. simpl.
    rewrite <- (Permutation_cons_append (PStr <$> task_urls e2) (PStr url)).
    apply submseteq_skip. exact S2.
  - simpl. apply parented_below; assumption.
  - do 3 (apply elem_of_cons; right). apply elem_of_app. right.
    apply elem_of_app. right. apply elem_of_cons. auto.
  - intros d u Hin.
    repeat (apply elem_of_cons in Hin as [Hin|Hin]; [discriminate|]).
    apply elem_of_app in Hin as [Hin|Hin].
    + right. apply (D2 d u Hin).
    + apply elem_of_app in Hin as [Hin|Hin].
      * apply info_task_urls in Hin. rewrite Ht in Hin. inversion Hin.
      * apply list_elem_of_singleton in Hin. injection Hin as -> ->. auto.
Qed.

Lemma follow_links_crawled lo recurse root links children w w' cs :
  (forall link w1 w2 r,
      recurse link w1 = Some (w2, r) -> exists evs, crawled lo w1 w2 evs /\ parented lo evs) ->
  follow_links E recurse root links children w = Some (w', cs) ->
  exists evs, crawled lo w w' evs /\ parented lo evs.
Proof.
  intros Hrec. revert children w.
  induction links as [|link links IH]; intros children w H; cbn [follow_links] in H.
  - injection H as <- _. exists []. split; [apply crawled_refl|exact I].
  - destruct (negb (within_domain E root link)); [eauto|].
    destruct (existsb _ BINARY_EXTENSIONS); [eauto|].
    destruct (recurse link (pause w)) as [[w1 child]|] eqn:Hchild; [|discriminate].
    destruct (Hrec _ _ _ _ Hchild) as (e1 & H1 & P1).
    assert (Hrest : exists evs, crawled lo w1 w' evs /\ parented lo evs).
    { destruct child as [[|kv child]|]; eauto. }
    destruct Hrest as (e2 & H2 & P2).
    pose proof (crawled_quiet lo w [EvSleep SLEEP_BETWEEN_REQUESTS]) as H0.
    exists (e2 ++ e1 ++ [EvSleep SLEEP_BETWEEN_REQUESTS]). split.
    + eapply crawled_trans; [|exact H2].
      eapply crawled_trans; [|exact H1].
      apply H0. repeat constructor.
    + repeat apply parented_app; try assumption. exact I.
Qed.

Lemma source_of_new_result url root_url : source_of (new_result url root_url) = PStr url.
Proof. reflexivity. Qed.

Lemma process_url_body_crawled recurse url root_url depth w w' r :
  (depth <= MAX_CRAWL_DEPTH)%nat ->
  (forall link root w1 w2 r',
      (S depth <= MAX_CRAWL_DEPTH)%nat ->
      recurse link root (S depth) w1 = Some (w2, r') ->
      exists evs, crawled (S depth) w1 w2 evs /\ parented (S depth) evs) ->
  process_url_body E recurse url root_url depth w = Some (w', r) ->
  exists evs, task_outcome url depth w w' r evs.
Proof.
  intros Hdepth Hrec H. unfold process_url_body in H. unfold task_outcome.
  destruct (bool_decide (url ∈ visited w)) eqn:Hvis.
  { apply bool_decide_eq_true in Hvis. injection H as <- <-.
    exists []. split; [apply crawled_refl|]. split; [exact I|].
    split; [auto|]. intros Hn. contradiction. }
  apply bool_decide_eq_false in Hvis.
  destruct (safe_get E (request_url url) (EvInfo depth url :: trace w)) as [tr resp] eqn:Hget.
  destruct (crawled_fetch depth url w tr resp Hvis Hdepth Hget) as (g & Hfetch & Ht & Ha).
  destruct resp as [resp|].
  2: { injection H as <- <-. eexists. split; [exact Hfetch|].
       split; [apply (parented_below depth [] g url I Ht)|].
       split; [intros Hv; contradiction|]. intros _. split; [|split].
       - apply elem_of_app. right. apply elem_of_cons. auto.
       - intros d u [Hin|Hin]%elem_of_app.
         + apply info_task_urls in Hin. rewrite Ht in Hin. inversion Hin.
         + apply list_elem_of_singleton in Hin. injection Hin as -> ->. auto.
       - eexists. split; [reflexivity|]. split; [|first [apply set_nonempty|discriminate]].
         reflexivity. }
  set (w1 := {| visited := {[url]} ∪ visited w; trace := tr |}) in *.
  set (result0 := set "content_type" _ _) in H.
  assert (Hsrc0 : source_of result0 = PStr url).
  { unfold source_of, result0. rewrite !get_set_ne by discriminate. reflexivity. }
  match type of H with
  | match ?t with _ => _ end = _ => destruct t as [[[w2 result] err]|] eqn:Htried
  end; [|discriminate].
  assert (Hbody : (exists e2, crawled (S depth) w1 w2 e2 /\ parented (S depth) e2)
                  /\ source_of result = PStr url).
  { destruct (is_pdf_response (Some resp) (request_url url)).
    - destruct (pdf_branch_quiet resp tr result0) as (q & Hq & Qq & Hs).
      destruct (pdf_branch E resp tr result0) as [[tr2 result2] err2].
      simpl in Hq, Hs. injection Htried as <- <- <-. subst tr2.
      split; [|congruence]. exists q.
      split; [apply (crawled_quiet (S depth) w1 q Qq)|apply quiet_parented, Qq].
    - destruct (html_branch_quiet resp tr result0) as (q & Hq & Qq & Hs).
      destruct (html_branch E resp tr result0) as [[tr2 result2] [e|links]].
      + simpl in Hq, Hs. injection Htried as <- <- <-. subst tr2.
        split; [|congruence]. exists q.
        split; [apply (crawled_quiet (S depth) w1 q Qq)|apply quiet_parented, Qq].
      + simpl in Hq, Hs. subst tr2.
        pose proof (crawled_quiet (S depth) w1 q Qq) as Hq1.
        destruct (FOLLOW_LINKS && (depth <? MAX_CRAWL_DEPTH)%nat) eqn:Hfollow.
        * apply andb_prop in Hfollow as [_ Hlt]. apply Nat.ltb_lt in Hlt.
          match type of Htried with
          | match ?t with _ => _ end = _ => destruct t as [[w3 children]|] eqn:Hchildren
          end; [|discriminate].
          injection Htried as <- <- <-.
          apply follow_links_crawled with (lo := S depth) in Hchildren.
          2: { intros link wa wb r' Hr. apply (Hrec _ _ _ _ _ Hlt Hr). }
          destruct Hchildren as (e3 & H3 & P3).
          split.
          -- exists (e3 ++ q). split; [eapply crawled_trans; [exact Hq1|exact H3]|].
             apply parented_app; [exact P3|apply quiet_parented, Qq].
          -- unfold source_of in *. rewrite get_set_ne by discriminate. congruence.
        * injection Htried as <- <- <-. split; [|congruence]. exists q.
          split; [exact Hq1|apply quiet_parented, Qq]. }
  destruct Hbody as [(e2 & H2 & P2) Hsrc].
  destruct (handle (request_url url) err w2 result) as [w4 result4] eqn:Hhandle.
  injection H as <- <-.
  assert (H4 : (exists e4, crawled (S depth) w1 w4 e4 /\ parented (S depth) e4)
               /\ source_of result4 = PStr url).
  { unfold handle in Hhandle. destruct err as [e|]; injection Hhandle as <- <-.
    - split.
      + exists ([EvExc (request_url url) e] ++ e2). split.
        * eapply crawled_trans; [exact H2|].
          apply (crawled_quiet (S depth) w2 [EvExc (request_url url) e]). repeat constructor.
        * exact P2.
      + unfold source_of. rewrite get_set_ne by discriminate. exact Hsrc.
    - split; [eauto|exact Hsrc]. }
  destruct H4 as [(e4 & H4 & P4) Hsrc4].
  destruct (crawled_task depth w w1 w4 g e4 url (request_url url) result4
              Hfetch Ht Ha H4 P4 Hsrc4) as (evs & Hevs & Pevs & Hin & Hdeep).
  exists evs. split; [exact Hevs|]. split; [exact Pevs|].
  split; [intros Hv; contradiction|].
  intros _. split; [exact Hin|]. split; [exact Hdeep|].
  exists result4. repeat split; [exact Hsrc4|].
  intros ->. discriminate.
Qed.

Lemma process_url_crawled fuel url root_url depth w w' r :
  (depth <= MAX_CRAWL_DEPTH)%nat ->
  process_url E fuel url root_url depth w = Some (w', r) ->
  exists evs, task_outcome url depth w w' r evs.
Proof.
  revert url root_url depth w w' r.
  induction fuel as [|fuel IH]; intros url root_url depth w w' r Hdepth H; [discriminate|].
  apply (process_url_body_crawled (process_url E fuel) url root_url depth w w' r Hdepth);
    [|exact H].
  intros link root w1 w2 r' Hd Hr.
  destruct (IH _ _ _ _ _ _ Hd Hr) as (evs & Hevs & Pevs & _). eauto.
Qed.

(** *** Termination: the depth limit bounds the recursion *)

Lemma follow_links_total recurse root links children w :
  (forall link w1, is_Some (recurse link w1)) ->
  is_Some (follow_links E recurse root links children w).
Proof.
  intros Hrec. revert children w.
  induction links as [|link links IH]; intros children w; cbn [follow_links]; [eauto|].
  destruct (negb (within_domain E root link)); [apply IH|].
  destruct (existsb _ BINARY_EXTENSIONS); [apply IH|].
  destruct (Hrec link (pause w)) as [[w1 child] ->].
  destruct child as [[|kv child]|]; apply IH.
Qed.

Lemma process_url_body_total recurse url root_url depth w :
  ((depth < MAX_CRAWL_DEPTH)%nat ->
   forall link root w1, is_Some (recurse link root (S depth) w1)) ->
  is_Some (process_url_body E recurse url root_url depth w).
Proof.
  intros Hrec. unfold process_url_body.
  destruct (bool_decide (url ∈ visited w)); [eauto|].
  destruct (safe_get E (request_url url) (EvInfo depth url :: trace w)) as [tr [resp|]];
    [|eauto].
  set (result0 := set "content_type" _ _).
  destruct (is_pdf_response (Some resp) (request_url url)).
  { destruct (pdf_branch E resp tr result0) as [[tr2 result2] err2].
    destruct (handle (request_url url) err2 _ result2). eauto. }
  destruct (html_branch E resp tr result0) as [[tr2 result2] [e|links]].
  { destruct (handle (request_url url) (Some e) _ result2). eauto. }
  destruct (FOLLOW_LINKS && (depth <? MAX_CRAWL_DEPTH)%nat) eqn:Hfollow.
  - apply andb_prop in Hfollow as [_ Hlt]. apply Nat.ltb_lt in Hlt.
    match goal with
    | |- context [follow_links E ?rec ?root ?ls ?cs ?w0] =>
        destruct (follow_links_total rec root ls cs w0) as [[w3 children] ->]
    end.
    { intros link w1. apply Hrec, Hlt. }
    destruct (handle (request_url url) None w3 _). eauto.
  - destruct (handle (request_url url) None _ result2). eauto.
Qed.

(** With more fuel than levels left, [process_url] returns. *)
Lemma process_url_total fuel url root_url depth w :
  (0 < fuel)%nat -> (MAX_CRAWL_DEPTH < fuel + depth)%nat ->
  is_Some (process_url E fuel url root_url depth w).
Proof.
  revert url root_url depth w.
  induction fuel as [|fuel IH]; intros url root_url depth w Hpos Hfuel; [lia|].
  cbn [process_url]. apply process_url_body_total.
  intros Hlt link root w1. apply IH; lia.
Qed.

(** *** The loop of [main] *)

Lemma main_loop_total fuel urls all_results w :
  (MAX_CRAWL_DEPTH < fuel)%nat -> is_Some (main_loop E fuel urls all_results w).
Proof.
  intros Hfuel. revert all_results w.
  induction urls as [|u urls IH]; intros all_results w; cbn [main_loop]; [eauto|].
  destruct (process_url_total fuel u (Some u) 0 w) as [[w1 r] ->]; [lia|lia|].
  destruct r as [[|kv r]|]; apply IH.
Qed.

Lemma main_loop_crawled fuel urls all_results w w' rs :
  main_loop E fuel urls all_results w = Some (w', rs) ->
  exists evs,
    crawled 0 w w' evs /\ parented 0 evs
    /\ (forall u, u ∈ urls -> u ∈ visited w')
    /\ (forall u, EvInfo 0 u ∈ evs -> u ∈ urls)
    /\ (forall r, r ∈ rs ->
          r ∈ all_results
          \/ exists u, u ∈ urls /\ source_of r = PStr u /\ EvInfo 0 u ∈ evs).
Proof.
  revert all_results w.
  induction urls as [|u urls IH]; intros all_results w H; cbn [main_loop] in H.
  - injection H as <- <-. exists []. split; [apply crawled_refl|]. split; [exact I|].
    split; [intros u Hu; inversion Hu|]. split; [intros u Hu; inversion Hu|auto].
  - destruct (process_url E fuel u (Some u) 0 w) as [[w1 r]|] eqn:Hp; [|discriminate].
    destruct (process_url_crawled fuel u (Some u) 0 w w1 r (Nat.le_0_l _) Hp)
      as (e1 & C1 & P1 & Hold & Hnew).
    assert (Hrest : exists all',
               main_loop E fuel urls all' w1 = Some (w', rs)
               /\ forall x, x ∈ all' -> x ∈ all_results \/ r = Some x).
    { destruct r as [[|kv r]|]; eexists; (split; [exact H|]); auto.
      intros x [Hx|Hx]%elem_of_app; [auto|].
      apply list_elem_of_singleton in Hx. subst x. auto. }
    destruct Hrest as (all' & Hloop & Hall).
    destruct (IH all' w1 Hloop) as (e2 & C2 & P2 & Hvis & Hzero & Hrs).
    assert (Hu : u ∈ visited w1).
    { destruct (decide (u ∈ visited w)) as [Hv|Hv].
      - destruct (Hold Hv) as (_ & _ & ->). exact Hv.
      - destruct (Hnew Hv) as (Hin & _). rewrite (cr_visited _ _ _ _ C1).
        apply info_task_urls in Hin. set_solver. }
    exists (e2 ++ e1). split; [eapply crawled_trans; eassumption|].
    split; [apply parented_app; assumption|]. split; [|split].
    + intros x [->|Hx]%elem_of_cons; [|auto].
      rewrite (cr_visited _ _ _ _ C2). set_solver.
    + intros x [Hx|Hx]%elem_of_app.
      * apply elem_of_cons. right. auto.
      * apply elem_of_cons. left.
        destruct (decide (u ∈ visited w)) as [Hv|Hv].
        -- destruct (Hold Hv) as (-> & _). inversion Hx.
        -- destruct (Hnew Hv) as (_ & Hdeep & _).
           destruct (Hdeep 0%nat x Hx) as [[_ ->]|Hbad]; [reflexivity|lia].
    + intros x Hx. destruct (Hrs x Hx) as [Hx'|(u' & Hu' & Hs & Hin)].
      * destruct (Hall x Hx') as [Hx''|Hr]; [auto|]. right. exists u.
        destruct (decide (u ∈ visited w)) as [Hv|Hv].
        -- destruct (Hold Hv) as (_ & Hnone & _). congruence.
        -- destruct (Hnew Hv) as (Hin & _ & result & Hres & Hsrc & _).
           assert (x = result) by congruence. subst x.
           repeat split; [apply elem_of_cons; auto|exact Hsrc|].
           apply elem_of_app. auto.
      * right. exists u'. repeat split; [apply elem_of_cons; auto|exact Hs|].
        apply elem_of_app. auto.
Qed.

(** *** The laws of the crawl *)

Lemma submseteq_nodup {A} (l k : list A) : l ⊆+ k -> NoDup k -> NoDup l.
Proof.
  intros (k' & Hk)%submseteq_Permutation Hnd. rewrite Hk in Hnd.
  apply NoDup_app in Hnd as [Hl _]. exact Hl.
Qed.

Lemma parented_split lo evs newer d u older :
  parented lo evs -> evs = newer ++ EvInfo d u :: older ->
  d = lo \/ exists d' p, d = S d' /\ EvInfo d' p ∈ older.
Proof.
  intros H ->. induction newer as [|e newer IH]; simpl in H.
  - destruct H as [H _]. exact H.
  - destruct e; try (apply IH; exact H). destruct H as [_ H]. apply IH, H.
Qed.

(** C2, amended: within a crawl that shares one visited set, every URL
    string is claimed by at most one task, and a task is what puts its
    URL into the visited set; the claim comes before the fetch: every GET
    follows the start of the task whose request URL it fetches; each task
    issues exactly one fetch, of its request URL (its URL after the
    rewrite of GitHub blob views); and the records appended to the
    combined log belong to distinct tasks.  The call returns when the
    fuel exceeds the levels left. *)
Theorem process_url_claims_once :
  forall (fuel : nat) (url : string) (root_url : option string) (depth : nat) (w : world),
    (depth <= MAX_CRAWL_DEPTH)%nat -> (MAX_CRAWL_DEPTH < fuel + depth)%nat ->
    exists w' r evs,
      process_url E fuel url root_url depth w = Some (w', r)
      /\ trace w' = evs ++ trace w
      /\ visited w' = list_to_set (task_urls evs) ∪ visited w
      /\ NoDup (task_urls evs)
      /\ (forall u, u ∈ task_urls evs -> u ∉ visited w)
      /\ claimed evs
      /\ first_gets evs = request_url <$> task_urls evs
      /\ exists records : list dict,
           appends evs = log_line <$> records
           /\ NoDup (source_of <$> records)
           /\ forall rec, rec ∈ records ->
                 exists u, u ∈ task_urls evs /\ source_of rec = PStr u.
Proof.
  intros fuel url root_url depth w Hdepth Hfuel.
  destruct (process_url_total fuel url root_url depth w) as [[w' r] Hp]; [lia|lia|].
  destruct (process_url_crawled fuel url root_url depth w w' r Hdepth Hp)
    as (evs & [T V N F D G C (records & A & S)] & _).
  exists w', r, evs. repeat split; try assumption.
  exists records. split; [exact A|]. split.
  - apply (submseteq_nodup _ _ S). apply NoDup_fmap_2; [|exact N].
    intros x y Hxy. congruence.
  - intros rec Hrec.
    assert (Hin : source_of rec ∈ PStr <$> task_urls evs).
    { apply (elem_of_submseteq _ _ _ (list_elem_of_fmap_2 source_of _ _ Hrec) S). }
    apply list_elem_of_fmap in Hin as (u & Hu & Hin). eauto.
Qed.

(** A URL has one task at most, so one depth at most. *)
Lemma one_task_per_url (evs : list event) (d d' : nat) (u : string) :
  NoDup (task_urls evs) -> EvInfo d u ∈ evs -> EvInfo d' u ∈ evs -> d = d'.
Proof.
  induction evs as [|e evs IH]; intros Hnd H1 H2; [inversion H1|].
  assert (Hrest : NoDup (task_urls evs)).
  { destruct e; try exact Hnd. apply NoDup_cons in Hnd as [_ Hnd]. exact Hnd. }
  apply elem_of_cons in H1 as [H1|H1]; apply elem_of_cons in H2 as [H2|H2].
  - congruence.
  - subst e. apply NoDup_cons in Hnd as [Hnew _].
    apply info_task_urls in H2. contradiction.
  - subst e. apply NoDup_cons in Hnd as [Hnew _].
    apply info_task_urls in H1. contradiction.
  - apply (IH Hrest H1 H2).
Qed.

(** C4, amended: [main] returns when the fuel exceeds the depth limit;
    no task is deeper than the limit; a task deeper than the seeds
    follows the start of a task one level up, which is below the limit;
    every seed URL gets a task; only seeds have tasks at depth 0; and
    every result [main] collects is that of a seed processed at depth 0.
    The visited set is shared by all seeds: over the whole run a URL has
    one task at most, hence one depth; so a seed that was reached as a
    descendant of an earlier seed has its only task at that depth (1 or
    more) and none at depth 0. *)
Theorem main_depth_law :
  forall (fuel : nat) (urls : list string),
    (MAX_CRAWL_DEPTH < fuel)%nat ->
    exists w' rs,
      main E fuel urls = Some (w', rs)
      /\ (forall d u, EvInfo d u ∈ trace w' -> (d <= MAX_CRAWL_DEPTH)%nat)
      /\ (forall newer d u older,
            trace w' = newer ++ EvInfo (S d) u :: older ->
            (d < MAX_CRAWL_DEPTH)%nat /\ exists p, EvInfo d p ∈ older)
      /\ (forall u, u ∈ urls -> exists d, EvInfo d u ∈ trace w')
      /\ (forall u, EvInfo 0 u ∈ trace w' -> u ∈ urls)
      /\ (forall r, r ∈ rs ->
            exists u, u ∈ urls /\ source_of r = PStr u /\ EvInfo 0 u ∈ trace w')
      /\ NoDup (task_urls (trace w'))
      /\ (forall d d' u, EvInfo d u ∈ trace w' -> EvInfo d' u ∈ trace w' -> d = d')
      /\ (forall d u, u ∈ urls -> EvInfo (S d) u ∈ trace w' -> EvInfo 0 u ∉ trace w').
Proof.
  intros fuel urls Hfuel. unfold main.
  destruct (main_loop_total fuel urls [] {| visited := ∅; trace := [] |} Hfuel)
    as [[w' rs] Hm].
  destruct (main_loop_crawled fuel urls [] _ w' rs Hm)
    as (evs & [T V N F D G C R] & P & Hvis & Hzero & Hrs).
  simpl in T, V. rewrite app_nil_r in T. subst evs.
  exists w', rs. split; [exact Hm|]. repeat split.
  - intros d u Hin. apply (D d u Hin).
  - assert (Hin : EvInfo (S d) u ∈ trace w').
    { rewrite H. apply elem_of_app. right. apply elem_of_cons. auto. }
    specialize (D _ _ Hin). lia.
  - destruct (parented_split 0 _ _ _ _ _ P H) as [Hbad|(d' & p & Hd & Hp)];
      [discriminate|].
    injection Hd as ->. eauto.
  - intros u Hu. apply task_urls_info. specialize (Hvis u Hu).
    rewrite V in Hvis. set_solver.
  - exact Hzero.
  - intros r Hr. destruct (Hrs r Hr) as [Hbad|Hok]; [inversion Hbad|exact Hok].
  - exact N.
  - intros d d' u. apply one_task_per_url, N.
  - intros d u _ Hdeep Hzero'. discriminate (one_task_per_url _ _ _ _ N Hdeep Hzero').
Qed.

End Crawl.

Lemma process_url_claims_once_witness :
  (0 <= Scraper.MAX_CRAWL_DEPTH)%nat /\ (Scraper.MAX_CRAWL_DEPTH < 3 + 0)%nat
  /\ exists w' r evs,
       Scraper.process_url (Demo.static Demo.site) 3 "https://example.com/a" None 0
         {| Scraper.visited := ∅; Scraper.trace := [] |} = Some (w', r)
       /\ Scraper.trace w' = evs ++ []
       /\ Scraper.visited w' = list_to_set (task_urls evs) ∪ ∅
       /\ NoDup (task_urls evs)
       /\ (forall u, u ∈ task_urls evs -> u ∉ (∅ : gset string))
       /\ claimed evs
       /\ first_gets evs = Scraper.request_url <$> task_urls evs
       /\ exists records : list Json.dict,
            appends evs = log_line <$> records
            /\ NoDup (source_of <$> records)
            /\ forall rec, rec ∈ records ->
                  exists u, u ∈ task_urls evs /\ source_of rec = Json.PStr u.
Proof.
  split; [apply Nat.le_0_l|]. split; [unfold Scraper.MAX_CRAWL_DEPTH; lia|].
  apply (process_url_claims_once (Demo.static Demo.site) 3 "https://example.com/a" None 0
           {| Scraper.visited := ∅; Scraper.trace := [] |}).
  - apply Nat.le_0_l.
  - unfold Scraper.MAX_CRAWL_DEPTH. lia.
Defined.

(** The claim as first stated fails: no URL is fetched twice.  A page
    links to a GitHub file by its blob view and by its raw address; both
    are new to the visited set, and both tasks fetch the raw address. *)
Lemma same_address_fetched_twice :
  match Scraper.main (Demo.static Demo.forge) 3 ["https://example.com/a"] with
  | Some (w, _) =>
      rev (tasks (Scraper.trace w))
      = [ (0%nat, "https://example.com/a");
          (1%nat, "https://github.com/u/r/blob/main/f.txt");
          (1%nat, "https://raw.githubusercontent.com/u/r/main/f.txt") ]
      /\ rev (first_gets (Scraper.trace w))
         = [ "https://example.com/a";
             "https://raw.githubusercontent.com/u/r/main/f.txt";
             "https://raw.githubusercontent.com/u/r/main/f.txt" ]
      /\ ~ NoDup (first_gets (Scraper.trace w))
  | None => False
  end.
Proof.
  vm_compute. split; [reflexivity|]. split; [reflexivity|].
  apply (bool_decide_eq_false_1 (NoDup _)). vm_compute. reflexivity.
Qed.

Lemma main_depth_law_witness :
  (Scraper.MAX_CRAWL_DEPTH < 3)%nat
  /\ exists w' rs,
       Scraper.main (Demo.static Demo.site) 3 ["https://example.com/a"] = Some (w', rs)
       /\ (forall d u, Env.EvInfo d u ∈ Scraper.trace w' -> (d <= Scraper.MAX_CRAWL_DEPTH)%nat)
       /\ (forall newer d u older,
             Scraper.trace w' = newer ++ Env.EvInfo (S d) u :: older ->
             (d < Scraper.MAX_CRAWL_DEPTH)%nat /\ exists p, Env.EvInfo d p ∈ older)
       /\ (forall u, u ∈ ["https://example.com/a"] -> exists d, Env.EvInfo d u ∈ Scraper.trace w')
       /\ (forall u, Env.EvInfo 0 u ∈ Scraper.trace w' -> u ∈ ["https://example.com/a"])
       /\ (forall r, r ∈ rs ->
             exists u, u ∈ ["https://example.com/a"] /\ source_of r = Json.PStr u
                       /\ Env.EvInfo 0 u ∈ Scraper.trace w')
       /\ NoDup (task_urls (Scraper.trace w'))
       /\ (forall d d' u, Env.EvInfo d u ∈ Scraper.trace w' ->
                          Env.EvInfo d' u ∈ Scraper.trace w' -> d = d')
       /\ (forall d u, u ∈ ["https://example.com/a"] ->
                       Env.EvInfo (S d) u ∈ Scraper.trace w' ->
                       Env.EvInfo 0 u ∉ Scraper.trace w').
Proof.
  split; [unfold Scraper.MAX_CRAWL_DEPTH; lia|].
  apply (main_depth_law (Demo.static Demo.site) 3 ["https://example.com/a"]).
  unfold Scraper.MAX_CRAWL_DEPTH. lia.
Defined.

(** The claim as first stated fails: every seed is processed at depth 0.
    With the seeds [/a] and [/b], where [/a] links to [/b], the only
    task for [/b] is the one at depth 1 below [/a]. *)
Lemma seed_processed_below_another_seed :
  match Scraper.main (Demo.static Demo.site) 3
          ["https://example.com/a"; "https://example.com/b"] with
  | Some (w, rs) =>
      rev (tasks (Scraper.trace w))
      = [ (0%nat, "https://example.com/a"); (1%nat, "https://example.com/b");
          (2%nat, "https://example.com/d"); (1%nat, "https://example.com/c") ]
      /\ (1%nat, "https://example.com/b") ∈ tasks (Scraper.trace w)
      /\ (0%nat, "https://example.com/b") ∉ tasks (Scraper.trace w)
  | None => False
  end.
Proof.
  vm_compute. split; [reflexivity|]. split.
  - apply (bool_decide_eq_true_1 (_ ∈ _)). vm_compute. reflexivity.
  - apply (bool_decide_eq_false_1 (_ ∈ _)). vm_compute. reflexivity.
Qed.

(** ** Failed fetches and the combined log (scraper.py) *)

Section Persistence.

Import Env Json Scraper.

Variable E : env.

(** A task whose fetch fails returns at once. *)
Lemma process_url_fetch_failed fuel url root_url depth w tr :
  url ∉ visited w ->
  safe_get E (request_url url) (EvInfo depth url :: trace w) = (tr, None) ->
  process_url E (S fuel) url root_url depth w
  = Some ({| visited := {[url]} ∪ visited w; trace := tr |},
          Some (set "error" (PStr "failed_to_fetch") (new_result url root_url))).
Proof.
  intros Hvis Hget. cbn [process_url]. unfold process_url_body.
  rewrite bool_decide_eq_false_2 by exact Hvis. rewrite Hget. reflexivity.
Qed.

(** A fetch that gives up after its three attempts wrote no file. *)
Lemma safe_get_failed_writes_nothing url tr tr' path :
  safe_get E url tr = (tr', None) -> file_contents path tr' = file_contents path tr.
Proof.
  unfold safe_get. intros H.
  destruct (safe_get_from_spec E REQUEST_RETRIES 0 url tr)
    as [(k & r & _ & _ & _ & _ & Heq) | [_ Heq]]; [congruence|].
  rewrite Heq in H. injection H as <-. reflexivity.
Qed.

(** C1, at the failing input: a task whose fetch fails all retries
    returns a result with [error] set to [failed_to_fetch] and no text,
    and neither the per-source JSON file nor the combined log is written:
    every file is as it was before the task. *)
Theorem fetch_failure_is_not_persisted :
  forall (fuel : nat) (url : string) (root_url : option string) (depth : nat) (w : world),
    url ∉ visited w ->
    snd (safe_get E (request_url url) (EvInfo depth url :: trace w)) = None ->
    exists w' result,
      process_url E (S fuel) url root_url depth w = Some (w', Some result)
      /\ get "error" result = PStr "failed_to_fetch"
      /\ get "full_text" result = PNone
      /\ appends (trace w') = appends (trace w)
      /\ forall path, file_contents path (trace w') = file_contents path (trace w).
Proof.
  intros fuel url root_url depth w Hvis Hfail.
  destruct (safe_get E (request_url url) (EvInfo depth url :: trace w)) as [tr r] eqn:Hget.
  simpl in Hfail. subst r.
  eexists _, _. split; [apply (process_url_fetch_failed _ _ _ _ _ _ Hvis Hget)|].
  split; [reflexivity|]. split; [reflexivity|]. simpl. split.
  - destruct (safe_get_events E (request_url url) (EvInfo depth url :: trace w))
      as (g & Hg & _ & Ha & _). rewrite Hget in Hg. simpl in Hg. subst tr.
    rewrite appends_app, Ha. reflexivity.
  - intros path. rewrite (safe_get_failed_writes_nothing _ _ _ path Hget). reflexivity.
Qed.

Lemma endswith_last (c d : ascii) (a : string) :
  Str.endswith (String c EmptyString) (a +:+ String d EmptyString) = Ascii.eqb c d.
Proof.
  induction a as [|x a IH].
  - simpl. destruct (Ascii.eqb c d); reflexivity.
  - change (String x a +:+ String d EmptyString) with (String x (a +:+ String d EmptyString)).
    cbn [Str.endswith]. rewrite IH.
    destruct a; simpl; destruct (Ascii.eqb c x); reflexivity.
Qed.

Lemma append_assoc (a b c : string) : (a +:+ b) +:+ c = a +:+ (b +:+ c).
Proof.
  induction a as [|x a IH]; [reflexivity|].
  change (String x ((a +:+ b) +:+ c) = String x (a +:+ (b +:+ c))). rewrite IH. reflexivity.
Qed.

Lemma append_empty_r (a : string) : a +:+ EmptyString = a.
Proof.
  induction a as [|x a IH]; [reflexivity|].
  change (String x (a +:+ EmptyString) = String x a). rewrite IH. reflexivity.
Qed.

(** A serialised dictionary ends with its closing brace. *)
Lemma dumps_not_newline_terminated (d : dict) : Str.endswith Str.nl (dumps d) = false.
Proof.
  unfold dumps. destruct d as [|kv d]; [reflexivity|].
  set (body := Str.join _ _).
  change ("{" +:+ body +:+ "}") with (String "{" body +:+ String "}" EmptyString).
  unfold Str.nl. rewrite endswith_last. reflexivity.
Qed.

(** *** The sibling log of scrape.py *)

Lemma mem_append c a b : Str.mem c (a +:+ b) = Str.mem c a || Str.mem c b.
Proof.
  induction a as [|x a IH]; [reflexivity|].
  change (String x a +:+ b) with (String x (a +:+ b)). cbn [Str.mem].
  rewrite IH. apply orb_assoc.
Qed.

Lemma no_newline_append a b : no_newline a -> no_newline b -> no_newline (a +:+ b).
Proof. unfold no_newline. intros Ha Hb. rewrite mem_append, Ha, Hb. reflexivity. Qed.

Lemma escape_char_no_newline c : no_newline (escape_char c).
Proof. destruct c as [[] [] [] [] [] [] [] []]; vm_compute; reflexivity. Qed.

Lemma escape_no_newline s : no_newline (escape s).
Proof.
  induction s as [|c s IH]; [reflexivity|].
  cbn [escape]. apply no_newline_append; [apply escape_char_no_newline|exact IH].
Qed.

Lemma dumps_str_no_newline s : no_newline (dumps_str s).
Proof.
  unfold dumps_str. repeat apply no_newline_append; try reflexivity. apply escape_no_newline.
Qed.

Lemma join_no_newline sep l :
  no_newline sep -> Forall no_newline l -> no_newline (Str.join sep l).
Proof.
  intros Hsep Hall. induction Hall as [|x l Hx Hall IH]; [reflexivity|].
  destruct l as [|y l]; [exact Hx|].
  change (Str.join sep (x :: y :: l)) with (x +:+ sep +:+ Str.join sep (y :: l)).
  repeat apply no_newline_append; assumption.
Qed.

Lemma dumps_no_newline d : string_valued d -> no_newline (dumps d).
Proof.
  intros Hd. unfold dumps. destruct d as [|kv d]; [reflexivity|].
  repeat apply no_newline_append; try reflexivity.
  apply join_no_newline; [reflexivity|].
  apply Forall_fmap. eapply Forall_impl; [exact Hd|].
  intros [k v] (t & Hv). simpl in *. subst v.
  repeat apply no_newline_append; try reflexivity;
    first [apply dumps_str_no_newline|apply escape_no_newline].
Qed.

(** [append_jsonl_record] writes one line: the serialised record, which
    holds no newline, and the newline that ends it. *)
Lemma append_jsonl_record_one_line (brain : string) (record : dict) (tr : list event) :
  string_valued record ->
  exists path line,
    Scrape.append_jsonl_record brain record tr = EvAppend path (line +:+ Str.nl) :: tr
    /\ line = dumps record /\ no_newline line.
Proof.
  intros Hd. eexists _, _. split; [reflexivity|]. split; [reflexivity|].
  apply dumps_no_newline, Hd.
Qed.

(** C7, at the failing input: the line appended to the combined log is
    the serialised result and nothing more; it ends with a closing brace,
    not with a newline, so the records of a run share one line (here the
    four records of the example site). *)
Theorem combined_log_records_run_together :
  (forall (url : string) (result : dict) (tr : list event),
      exists json_path,
        persist E url result tr
        = EvSleep SLEEP_BETWEEN_REQUESTS
            :: EvAppend COMBINED_JSONL (dumps result)
            :: EvWrite json_path (dumps_indent2 result) :: tr
        /\ Str.endswith Str.nl (dumps result) = false)
  /\ match main (Demo.static Demo.site) 3 ["https://example.com/a"] with
     | Some (w, _) =>
         length (appends (trace w)) = 4%nat
         /\ exists log,
              file_contents COMBINED_JSONL (trace w) = Some log
              /\ Str.mem (ascii_of_N 10) log = false
     | None => False
     end.
Proof.
  split.
  - intros url result tr. eexists. unfold persist. rewrite append_empty_r.
    split; [reflexivity|apply dumps_not_newline_terminated].
  - vm_compute. split; [reflexivity|]. eexists. split; reflexivity.
Qed.

End Persistence.

Lemma fetch_failure_is_not_persisted_witness :
  ("https://example.com/gone" ∉ (∅ : gset string))
  /\ snd (Scraper.safe_get (Demo.static []) (Scraper.request_url "https://example.com/gone")
            [Env.EvInfo 0 "https://example.com/gone"]) = None
  /\ exists w' result,
       Scraper.process_url (Demo.static []) 1 "https://example.com/gone" None 0
         {| Scraper.visited := ∅; Scraper.trace := [] |} = Some (w', Some result)
       /\ Json.get "error" result = Json.PStr "failed_to_fetch"
       /\ Json.get "full_text" result = Json.PNone
       /\ appends (Scraper.trace w') = appends []
       /\ forall path, Env.file_contents path (Scraper.trace w') = Env.file_contents path [].
Proof.
  split; [set_solver|]. split; [reflexivity|].
  apply (fetch_failure_is_not_persisted (Demo.static []) 0 "https://example.com/gone" None 0
           {| Scraper.visited := ∅; Scraper.trace := [] |}).
  - set_solver.
  - reflexivity.
Defined.

(** The sibling failure path: a task whose download cannot be saved is
    caught by the handler of the task, and its result, with the error, is
    written to the JSON file and appended to the combined log. *)
Lemma write_failure_is_persisted :
  match Scraper.process_url (Demo.read_only Demo.site) 1 "https://example.com/c" None 0
          {| Scraper.visited := ∅; Scraper.trace := [] |} with
  | Some (w, Some result) =>
      Json.get "error" result = Json.PStr "Permission denied"
      /\ appends (Scraper.trace w) = [log_line result]
  | _ => False
  end.
Proof. vm_compute. split; reflexivity. Qed.

(** ** The bound on retries *)

Section Retries.

Import Env Json Scraper.

Variable E : env.

(** C8, amended: [safe_get] (scraper.py) makes at most three attempts;
    an attempt fails when the GET raises or the status is a 4xx or 5xx
    code; failed attempt [j] is followed by a pause of [1 + 2 j] seconds;
    the first success is returned, and after three failures the result is
    [None], which [process_url] records as [failed_to_fetch] in a result
    it returns normally.  [fetch] (scrape.py) makes one attempt and
    returns [None] when it fails; its callers record that and return
    normally: [scrape_url_for_brain] appends a record with the error
    [request_failed], [scrape_archive_item] one with
    [item_request_failed], the loop over the files of an item one with
    [file_request_failed] before it goes on to the next file, and the
    search ends, without a record, at a result page that it cannot
    fetch. *)
Theorem safe_get_retries_three_times :
  forall (url : string) (tr : list event),
    REQUEST_RETRIES = 3%nat
    /\ (forall tr', attempt_fails E tr' url = true <->
          http_get E tr' url = None
          \/ exists r, http_get E tr' url = Some r
                       /\ 400 <= resp_status r /\ resp_status r < 600)
    /\ (forall j,
          failures url 0 (S j) tr
          = EvSleep (1000 * (1 + Z.of_nat j * 2)) :: EvWarn url (S j) :: EvGet url j
              :: failures url 0 j tr)
    /\ ((exists k r,
            (k < 3)%nat
            /\ (forall j, (j < k)%nat -> attempt_fails E (failures url 0 j tr) url = true)
            /\ http_get E (failures url 0 k tr) url = Some r /\ ok r = true
            /\ safe_get E url tr = (EvGet url k :: failures url 0 k tr, Some r))
        \/ ((forall j, (j < 3)%nat -> attempt_fails E (failures url 0 j tr) url = true)
            /\ safe_get E url tr
               = ([ EvGiveUp url;
                    EvSleep 5000; EvWarn url 3; EvGet url 2;
                    EvSleep 3000; EvWarn url 2; EvGet url 1;
                    EvSleep 1000; EvWarn url 1; EvGet url 0 ] ++ tr, None)))
    /\ (forall fuel src root_url depth w,
          src ∉ visited w -> request_url src = url ->
          snd (safe_get E url (EvInfo depth src :: trace w)) = None ->
          exists w',
            process_url E (S fuel) src root_url depth w
            = Some (w', Some (set "error" (PStr "failed_to_fetch") (new_result src root_url))))
    /\ Scrape.fetch E url tr
       = (EvGet url 0 :: tr, if attempt_fails E tr url then None else http_get E tr url)
    /\ (attempt_fails E tr url = true ->
        (forall fuel brain,
            Scrape.is_archive_search E url = false ->
            Scrape.scrape_url_for_brain E fuel brain url tr
            = (Scrape.append_jsonl_record brain
                 [ ("brain", PStr brain); ("url", PStr url);
                   ("domain", PStr (netloc (urlparse E url))); ("status", PStr "error");
                   ("error", PStr "request_failed");
                   ("fetched_at", PStr (utcnow E (EvGet url 0 :: tr) +:+ "Z")) ]
                 (EvGet url 0 :: tr),
               Scrape.Returned))
        /\ (forall brain fetched_at,
              Scrape.scrape_archive_item E brain url fetched_at tr
              = (Scrape.append_jsonl_record brain
                   [ ("brain", PStr brain); ("url", PStr url);
                     ("domain", PStr (netloc (urlparse E url))); ("status", PStr "error");
                     ("error", PStr "item_request_failed");
                     ("fetched_at",
                      PStr (Str.or_else (default EmptyString fetched_at)
                              (utcnow E (EvGet url 0 :: tr) +:+ "Z"))) ]
                   (EvGet url 0 :: tr),
                 Scrape.Returned))
        /\ (forall brain item_url ts rest,
              Scrape.scrape_item_files E brain item_url ts (url :: rest) tr
              = Scrape.scrape_item_files E brain item_url ts rest
                  (Scrape.append_jsonl_record brain
                     [ ("brain", PStr brain); ("url", PStr url);
                       ("domain", PStr (netloc (urlparse E url))); ("status", PStr "error");
                       ("error", PStr "file_request_failed"); ("fetched_at", PStr ts);
                       ("parent_item", PStr item_url) ]
                     (EvGet url 0 :: tr)))
        /\ (forall fuel brain fetched_at base_root base_query max_items delay st,
              (Scrape.scraped_items st < max_items)%nat ->
              Scrape.page_url base_root base_query (Scrape.page st) = url ->
              Scrape.events st = tr ->
              Scrape.search_loop E (S fuel) brain fetched_at base_root base_query
                max_items delay st
              = ({| Scrape.events := EvGet url 0 :: tr;
                    Scrape.scraped_items := Scrape.scraped_items st;
                    Scrape.seen_items := Scrape.seen_items st;
                    Scrape.page := Scrape.page st |},
                 Scrape.Returned))).
Proof.
  intros url tr. split; [reflexivity|]. split; [|split; [|split; [|split; [|split]]]].
  - intros tr'. unfold attempt_fails, ok.
    destruct (http_get E tr' url) as [r|]; [|split; auto].
    rewrite negb_involutive, andb_true_iff, Z.leb_le, Z.ltb_lt. split.
    + intros [H1 H2]. right. exists r. auto.
    + intros [Hbad|(r' & Hr & H1 & H2)]; [discriminate|]. injection Hr as <-. auto.
  - intros j. apply (failures_snoc url 0 j tr).
  - exact (safe_get_from_spec E 3 0 url tr).
  - intros fuel src root_url depth w Hvis Hreq Hfail.
    destruct (safe_get E url (EvInfo depth src :: trace w)) as [tr' r] eqn:Hget.
    simpl in Hfail. subst r. rewrite <- Hreq in Hget.
    eexists. apply (process_url_fetch_failed E fuel src root_url depth w tr' Hvis Hget).
  - unfold Scrape.fetch, attempt_fails.
    destruct (http_get E tr url) as [r|]; [|reflexivity].
    destruct (ok r); reflexivity.
  - intros Hfails.
    assert (Hfetch : Scrape.fetch E url tr = (EvGet url 0 :: tr, None)).
    { unfold Scrape.fetch. unfold attempt_fails in Hfails.
      destruct (http_get E tr url) as [r|]; [|reflexivity].
      destruct (ok r); [discriminate|reflexivity]. }
    split; [|split; [|split]].
    + intros fuel brain Harch. unfold Scrape.scrape_url_for_brain.
      rewrite Harch, Hfetch. reflexivity.
    + intros brain fetched_at. unfold Scrape.scrape_archive_item.
      rewrite Hfetch. reflexivity.
    + intros brain item_url ts rest. cbn [Scrape.scrape_item_files].
      rewrite Hfetch. reflexivity.
    + intros fuel brain fetched_at base_root base_query max_items delay st Hq Hpage Htr.
      cbn [Scrape.search_loop].
      apply Nat.ltb_lt in Hq. rewrite Hq, Hpage, Htr, Hfetch. reflexivity.
Qed.

End Retries.

(** The claim as first stated fails in two ways.  [fetch] does not
    retry: with a network whose first request fails and whose second
    would succeed, it returns [None] after one GET, where [safe_get]
    succeeds at its second attempt.  And a status that is neither 2xx nor
    4xx/5xx is no failure: a 304 answer is returned at the first attempt. *)
Lemma fetch_gives_up_without_retry :
  Scrape.fetch (Demo.flaky Demo.site) "https://example.com/c" []
  = ([Env.EvGet "https://example.com/c" 0], None)
  /\ (exists r,
        Env.http_get (Demo.flaky Demo.site) [Env.EvGet "https://example.com/c" 0]
          "https://example.com/c" = Some r
        /\ Env.ok r = true)
  /\ (exists r,
        Scraper.safe_get (Demo.flaky Demo.site) "https://example.com/c" []
        = ([ Env.EvGet "https://example.com/c" 1; Env.EvSleep 1000;
             Env.EvWarn "https://example.com/c" 1; Env.EvGet "https://example.com/c" 0 ],
           Some r))
  /\ Scraper.safe_get (Demo.static Demo.cache) "https://example.com/cached" []
     = ([Env.EvGet "https://example.com/cached" 0], Some Demo.not_modified)
  /\ Env.resp_status Demo.not_modified = 304.
Proof.
  split; [reflexivity|]. split; [eexists; split; reflexivity|].
  split; [eexists; reflexivity|]. split; reflexivity.
Qed.

(** ** Classification of responses *)

Section Classification.

Import Env Json Scraper.

Variable E : env.

Lemma endswith_refl s : Str.endswith s s = true.
Proof. destruct s; simpl; [reflexivity|]. rewrite Ascii.eqb_refl, String.eqb_refl. reflexivity. Qed.

Lemma endswith_app suf a s : Str.endswith suf s = true -> Str.endswith suf (a +:+ s) = true.
Proof.
  intros H. induction a as [|x a IH]; [exact H|].
  change (String x a +:+ s) with (String x (a +:+ s)). cbn [Str.endswith].
  rewrite IH. apply orb_true_r.
Qed.

Lemma lower_app a b : Str.lower (a +:+ b) = Str.lower a +:+ Str.lower b.
Proof.
  induction a as [|x a IH]; [reflexivity|].
  change (String x a +:+ b) with (String x (a +:+ b)). cbn [Str.lower]. rewrite IH. reflexivity.
Qed.

Lemma with_ext_ends ext fname :
  Str.lower ext = ext -> Str.endswith ext (Str.lower (with_ext ext fname)) = true.
Proof.
  intros Hext. unfold with_ext.
  destruct (Str.endswith ext (Str.lower fname)) eqn:H; [exact H|].
  rewrite lower_app, Hext. apply endswith_app, endswith_refl.
Qed.

Lemma path_join_ends suf a b :
  Str.endswith suf (Str.lower b) = true -> Str.endswith suf (Str.lower (Str.path_join a b)) = true.
Proof.
  intros H. unfold Str.path_join.
  destruct (Str.startswith "/" b); [exact H|].
  destruct a as [|x a]; [exact H|].
  destruct (Str.endswith "/" (String x a)).
  - rewrite lower_app. apply endswith_app, H.
  - rewrite !lower_app. apply endswith_app, endswith_app, H.
Qed.

Ltac dict_simpl :=
  repeat (rewrite get_set_eq || rewrite get_set_ne by discriminate).

(** What the PDF branch leaves in the result. *)
Lemma pdf_branch_result resp tr result tr' result' err :
  pdf_branch E resp tr result = (tr', result', err) ->
  get "article_text" result' = get "article_text" result
  /\ get "error" result' = get "error" result
  /\ get "content_type" result' = get "content_type" result
  /\ (err = None ->
      exists p, get "local_path" result' = PStr p
                /\ Str.endswith ".pdf" (Str.lower p) = true).
Proof.
  unfold pdf_branch. set (p1 := Str.path_join DOWNLOAD_DIR _).
  assert (Hp1 : Str.endswith ".pdf" (Str.lower p1) = true).
  { apply path_join_ends, with_ext_ends. reflexivity. }
  destruct (write_file E p1 (resp_content resp) tr) as [tr1 [e|]].
  { intros H. injection H as <- <- <-. repeat split. discriminate. }
  destruct (extract_text_from_pdf E p1 tr1) as [tr2 text].
  destruct (write_file E _ text tr2) as [tr3 [e|]];
    intros H; injection H as <- <- <-; dict_simpl; repeat split; eauto.
Qed.

(** What the HTML branch leaves in the result when it ends normally. *)
Lemma html_branch_result resp tr result tr' result' links :
  html_branch E resp tr result = (tr', result', inr links) ->
  (exists t, get "article_text" result' = PStr t)
  /\ get "error" result' = get "error" result
  /\ get "content_type" result' = get "content_type" result
  /\ exists p, get "local_path" result' = PStr p
                /\ Str.endswith ".html" (Str.lower p) = true.
Proof.
  unfold html_branch. set (p1 := Str.path_join DOWNLOAD_DIR _).
  assert (Hp1 : Str.endswith ".html" (Str.lower p1) = true).
  { apply path_join_ends, with_ext_ends. reflexivity. }
  destruct (write_file E p1 (resp_text resp) tr) as [tr1 [e|]]; [discriminate|].
  destruct (extract_text_from_html E (resp_text resp)) as [full_text article_text].
  destruct (write_file E _ full_text tr1) as [tr2 [e|]]; [discriminate|].
  destruct (write_file E _ article_text tr2) as [tr3 [e|]]; [discriminate|].
  intros H. injection H as <- <- <-.
  destruct (published E _); destruct (Soup.find "title" _); dict_simpl; eauto 10.
Qed.

Lemma is_pdf_response_signal resp request :
  is_pdf_response (Some resp) request
  = ok resp
    && pdf_signal (Str.lower (default EmptyString (resp_content_type resp))) request.
Proof.
  unfold is_pdf_response, pdf_signal. destruct (ok resp); simpl; [|reflexivity].
  destruct (Str.contains "pdf" _); simpl; [reflexivity|].
  destruct (Str.endswith ".pdf" _); reflexivity.
Qed.

(** C3, amended: a task whose result carries no error was routed by the
    content type of the response and by the URL that was requested (the
    task's URL after the rewrite of GitHub blob views), the header test
    first: when the lower-cased content type contains [pdf] or else the
    lower-cased request URL ends in [.pdf], the response went down the
    PDF path (a [.pdf] download, no article text); otherwise it went down
    the HTML path (a [.html] download, with article text). *)
Theorem process_url_routes_by_request_url :
  forall (fuel : nat) (url : string) (root_url : option string) (depth : nat)
         (w w' : world) (result : dict),
    process_url E fuel url root_url depth w = Some (w', Some result) ->
    get "error" result = PNone ->
    exists ct,
      get "content_type" result = PStr ct
      /\ (forall resp, Str.lower (default EmptyString (resp_content_type resp)) = ct ->
            ok resp = true ->
            is_pdf_response (Some resp) (request_url url) = pdf_signal ct (request_url url))
      /\ if pdf_signal ct (request_url url)
         then get "article_text" result = PNone
              /\ exists p, get "local_path" result = PStr p
                           /\ Str.endswith ".pdf" (Str.lower p) = true
         else (exists t, get "article_text" result = PStr t)
              /\ exists p, get "local_path" result = PStr p
                           /\ Str.endswith ".html" (Str.lower p) = true.
Proof.
  intros fuel url root_url depth w w' result H Herr.
  destruct fuel as [|fuel]; [discriminate|].
  cbn [process_url] in H. unfold process_url_body in H.
  destruct (bool_decide (url ∈ visited w)); [discriminate|].
  destruct (safe_get E (request_url url) (EvInfo depth url :: trace w)) as [tr [resp|]] eqn:Hget.
  2: { injection H as <- <-. discriminate. }
  pose proof (safe_get_ok E _ _ _ _ Hget) as Hok.
  set (ct := Str.lower (default EmptyString (resp_content_type resp))) in *.
  set (result0 := set "content_type" _ _) in H.
  assert (H0 : get "article_text" result0 = PNone /\ get "error" result0 = PNone
               /\ get "content_type" result0 = PStr ct).
  { unfold result0. dict_simpl. repeat split. }
  destruct H0 as (Ha0 & He0 & Hc0).
  exists ct.
  match type of H with
  | match ?t with _ => _ end = _ => destruct t as [[[w2 result2] err]|] eqn:Htried
  end; [|discriminate].
  assert (Herr2 : err = None /\ result = result2).
  { unfold handle in H. destruct err as [e|]; injection H as <- <-; [|auto].
    rewrite get_set_eq in Herr. discriminate. }
  destruct Herr2 as [-> ->]. clear H.
  rewrite is_pdf_response_signal, Hok in Htried. simpl in Htried. fold ct in Htried.
  assert (Hsig : forall resp', Str.lower (default EmptyString (resp_content_type resp')) = ct ->
                   ok resp' = true ->
                   is_pdf_response (Some resp') (request_url url)
                   = pdf_signal ct (request_url url)).
  { intros resp' Hct Hok'. rewrite is_pdf_response_signal, Hok', Hct. reflexivity. }
  destruct (pdf_signal ct (request_url url)).
  - destruct (pdf_branch E resp tr result0) as [[tr2 result'] err2] eqn:Hpdf.
    injection Htried as _ <- ->.
    destruct (pdf_branch_result _ _ _ _ _ _ Hpdf) as (Ha & He & Hc & Hp).
    split; [congruence|]. split; [exact Hsig|]. split; [congruence|auto].
  - destruct (html_branch E resp tr result0) as [[tr2 result'] [e|links]] eqn:Hhtml;
      [discriminate|].
    destruct (html_branch_result _ _ _ _ _ _ Hhtml) as (Ha & He & Hc & Hp).
    assert (Hres : forall k, k <> "children_count" -> get k result2 = get k result').
    { intros k Hk.
      match type of Htried with (if ?b then _ else _) = _ => destruct b end.
      - match type of Htried with
        | match ?t with _ => _ end = _ => destruct t as [[w3 children]|]
        end; [|discriminate].
        injection Htried as _ <-. apply get_set_ne, Hk.
      - injection Htried as _ <-. reflexivity. }
    rewrite !Hres by discriminate.
    split; [congruence|]. split; [exact Hsig|]. split; assumption.
Qed.

End Classification.

Lemma process_url_routes_by_request_url_witness :
  exists w' result,
    Scraper.process_url (Demo.static Demo.papers) 1 "https://example.com/report.pdf" None 0
      {| Scraper.visited := ∅; Scraper.trace := [] |} = Some (w', Some result)
    /\ Json.get "error" result = Json.PNone
    /\ exists ct,
         Json.get "content_type" result = Json.PStr ct
         /\ (forall resp,
               Str.lower (default EmptyString (Env.resp_content_type resp)) = ct ->
               Env.ok resp = true ->
               Scraper.is_pdf_response (Some resp)
                 (Scraper.request_url "https://example.com/report.pdf")
               = pdf_signal ct (Scraper.request_url "https://example.com/report.pdf"))
         /\ if pdf_signal ct (Scraper.request_url "https://example.com/report.pdf")
            then Json.get "article_text" result = Json.PNone
                 /\ exists p, Json.get "local_path" result = Json.PStr p
                              /\ Str.endswith ".pdf" (Str.lower p) = true
            else (exists t, Json.get "article_text" result = Json.PStr t)
                 /\ exists p, Json.get "local_path" result = Json.PStr p
                              /\ Str.endswith ".html" (Str.lower p) = true.
Proof.
  eexists _, _. split; [vm_compute; reflexivity|]. split; [reflexivity|].
  eapply (process_url_routes_by_request_url (Demo.static Demo.papers) 1
            "https://example.com/report.pdf" None 0
            {| Scraper.visited := ∅; Scraper.trace := [] |}).
  - vm_compute. reflexivity.
  - reflexivity.
Defined.

(** The claim as first stated fails: the URL that is tested is the one
    requested, not the final one.  A request for [/report.pdf] that is
    redirected to an HTML login page has no PDF signal in its header or
    its final URL, yet it is saved and extracted as a PDF; a request for
    [/paper] that is redirected to [/files/paper.pdf] and served as an
    octet stream has a final URL ending in [.pdf], yet it is handled as
    HTML. *)
Lemma redirect_is_routed_by_request_url :
  (exists resp,
      Env.http_get (Demo.static Demo.papers) [] "https://example.com/report.pdf" = Some resp
      /\ pdf_signal_of_final_url (Demo.static Demo.papers) resp = false
      /\ Scraper.is_pdf_response (Some resp) "https://example.com/report.pdf" = true)
  /\ match Scraper.process_url (Demo.static Demo.papers) 1
             "https://example.com/report.pdf" None 0
             {| Scraper.visited := ∅; Scraper.trace := [] |} with
     | Some (_, Some result) =>
         Json.get "local_path" result = Json.PStr "downloads/example.com_login.pdf"
         /\ Json.get "full_text" result = Json.PStr "pdf text"
         /\ Json.get "article_text" result = Json.PNone
     | _ => False
     end
  /\ (exists resp,
        Env.http_get (Demo.static Demo.papers) [] "https://example.com/paper" = Some resp
        /\ pdf_signal_of_final_url (Demo.static Demo.papers) resp = true
        /\ Scraper.is_pdf_response (Some resp) "https://example.com/paper" = false)
  /\ match Scraper.process_url (Demo.static Demo.papers) 1 "https://example.com/paper" None 0
             {| Scraper.visited := ∅; Scraper.trace := [] |} with
     | Some (_, Some result) =>
         Json.get "local_path" result
         = Json.PStr "downloads/example.com_files_paper.pdf.html"
         /\ Json.get "article_text" result = Json.PStr EmptyString
     | _ => False
     end.
Proof.
  split; [eexists; repeat split; reflexivity|].
  split; [vm_compute; repeat split; reflexivity|].
  split; [eexists; repeat split; reflexivity|].
  vm_compute. repeat split; reflexivity.
Qed.


Module StrMore.

Import Str StrFacts.

Lemma all_map p f s : (forall c, p (f c) = true) -> all p (map f s) = true.
Proof. intros H. induction s as [|c s IH]; simpl; [reflexivity|]. rewrite H, IH. reflexivity. Qed.

Lemma all_take p n s : all p s = true -> all p (take n s) = true.
Proof.
  revert n. induction s as [|c s IH]; intros [|n]; simpl; try reflexivity.
  intros [Hc Hs]%andb_prop. rewrite Hc. apply IH, Hs.
Qed.

Lemma length_take n s : (String.length (take n s) <= n)%nat.
Proof.
  revert n. induction s as [|c s IH]; intros [|n]; simpl; try lia.
  specialize (IH n). lia.
Qed.

Lemma all_append p a b : all p (a +:+ b) = all p a && all p b.
Proof.
  induction a as [|c a IH]; [reflexivity|].
  change (String c a +:+ b) with (String c (a +:+ b)). simpl. rewrite IH, andb_assoc. reflexivity.
Qed.

Lemma length_append a b : String.length (a +:+ b) = (String.length a + String.length b)%nat.
Proof.
  induction a as [|c a IH]; [reflexivity|].
  change (String c a +:+ b) with (String c (a +:+ b)). simpl. rewrite IH. reflexivity.
Qed.

Lemma prefix_one c s : String.prefix (String c EmptyString) s = true -> mem c s = true.
Proof.
  destruct s as [|d s]; simpl; [discriminate|].
  destruct (ascii_dec c d) as [->|Hne].
  - rewrite Ascii.eqb_refl. reflexivity.
  - discriminate.
Qed.

Lemma contains_one c s : contains (String c EmptyString) s = mem c s.
Proof.
  induction s as [|d s IH]; [reflexivity|].
  cbn [contains mem]. rewrite IH. cbn [String.prefix].
  destruct (ascii_dec c d) as [->|Hne].
  - rewrite Ascii.eqb_refl. destruct s; reflexivity.
  - destruct (Ascii.eqb c d) eqn:Heq; [apply Ascii.eqb_eq in Heq; contradiction|reflexivity].
Qed.

Lemma startswith_no_mem c s : mem c s = false -> startswith (String c EmptyString) s = false.
Proof.
  intros H. destruct (startswith (String c EmptyString) s) eqn:Hp; [|reflexivity].
  apply prefix_one in Hp. congruence.
Qed.

Lemma endswith_app_same suf a : endswith suf (a +:+ suf) = true.
Proof.
  induction a as [|c a IH].
  - destruct suf; simpl; [reflexivity|]. rewrite Ascii.eqb_refl, String.eqb_refl. reflexivity.
  - change (String c a +:+ suf) with (String c (a +:+ suf)). cbn [endswith].
    rewrite IH. apply orb_true_r.
Qed.

Lemma endswith_one_mem c s : mem c s = false -> endswith (String c EmptyString) s = false.
Proof.
  induction s as [|d s IH]; [reflexivity|]. cbn [mem endswith String.eqb].
  intros [Hd Hs]%orb_false_elim. rewrite Hd, (IH Hs). reflexivity.
Qed.

(** [path_join] of a directory and a plain name. *)
Lemma path_join_plain dir name :
  dir <> EmptyString -> endswith "/" dir = false -> mem "/" name = false ->
  path_join dir name = dir +:+ "/" +:+ name.
Proof.
  intros Hne Hend Hname. unfold path_join.
  rewrite (startswith_no_mem _ _ Hname).
  destruct dir; [contradiction|]. rewrite Hend. reflexivity.
Qed.

Lemma basename_plain name : mem "/" name = false -> basename name = name.
Proof.
  intros H. destruct name as [|c name]; [reflexivity|].
  cbn [basename]. rewrite (contains_one "/"), H. reflexivity.
Qed.

Lemma basename_inside dir name :
  mem "/" name = false -> basename (dir +:+ "/" +:+ name) = name.
Proof.
  intros H. induction dir as [|c dir IH].
  - change (EmptyString +:+ "/" +:+ name) with (String "/" name).
    cbn [basename]. rewrite (contains_one "/"). simpl. apply basename_plain, H.
  - change (String c dir +:+ "/" +:+ name) with (String c (dir +:+ "/" +:+ name)).
    cbn [basename]. rewrite (contains_one "/").
    assert (Hm : mem "/" (String c (dir +:+ "/" +:+ name)) = true).
    { apply (mem_app_r "/" (String c dir) ("/" +:+ name)). reflexivity. }
    rewrite Hm. exact IH.
Qed.


End StrMore.

Section FileNamesOfUrls.

Import Env Json Scraper Str StrFacts StrMore.

Variable E : env.

Lemma is_name_char_no_slash c : is_name_char c = true -> negb (Ascii.eqb c "/") = true.
Proof. destruct c as [[] [] [] [] [] [] [] []]; vm_compute; congruence. Qed.

Lemma make_filename_from_url_chars url :
  all is_name_char (make_filename_from_url E url) = true.
Proof.
  unfold make_filename_from_url.
  match goal with
  | |- context [Str.map ?f ?s] =>
      assert (H : all is_name_char (Str.map f s) = true)
  end.
  { apply all_map. intros c. destruct (is_name_char c) eqn:Hc; [exact Hc|reflexivity]. }
  match goal with |- context [if ?b then _ else _] => destruct b end;
    [apply all_take|]; exact H.
Qed.

Lemma name_chars_no_slash s : all is_name_char s = true -> mem "/" s = false.
Proof. intros H. apply (all_not_mem _ _ _ H). reflexivity. Qed.

Lemma with_ext_no_slash ext fname :
  mem "/" ext = false -> mem "/" fname = false -> mem "/" (with_ext ext fname) = false.
Proof.
  intros He Hf. unfold with_ext. destruct (endswith ext (lower fname)); [exact Hf|].
  rewrite mem_append, He, Hf. reflexivity.
Qed.

(** Where a task stores its files: the download directly inside the
    download directory, the texts directly inside the extraction
    directory, under the name of the download. *)
Lemma stored_names (final ext : string) :
  mem "/" ext = false ->
  let fname := with_ext ext (make_filename_from_url E final) in
  let local_path := path_join DOWNLOAD_DIR fname in
  mem "/" fname = false
  /\ local_path = DOWNLOAD_DIR +:+ "/" +:+ fname
  /\ forall suffix, mem "/" suffix = false ->
        path_join EXTRACT_DIR (basename local_path +:+ suffix)
        = EXTRACT_DIR +:+ "/" +:+ (fname +:+ suffix).
Proof.
  intros Hext fname local_path.
  assert (Hf : mem "/" fname = false).
  { apply with_ext_no_slash; [exact Hext|].
    apply name_chars_no_slash, make_filename_from_url_chars. }
  assert (Hl : local_path = DOWNLOAD_DIR +:+ "/" +:+ fname).
  { apply path_join_plain; [discriminate|reflexivity|exact Hf]. }
  split; [exact Hf|]. split; [exact Hl|].
  intros suffix Hs. rewrite Hl, (basename_inside _ _ Hf).
  apply path_join_plain; [discriminate|reflexivity|].
  rewrite mem_append, Hf, Hs. reflexivity.
Qed.

Lemma json_path_inside (x : string) :
  inside JSON_OUT_DIR (path_join JSON_OUT_DIR (make_filename_from_url E x +:+ ".json")).
Proof.
  assert (H : mem "/" (make_filename_from_url E x +:+ ".json") = false).
  { rewrite mem_append, (name_chars_no_slash _ (make_filename_from_url_chars x)). reflexivity. }
  eexists. split; [exact H|].
  apply path_join_plain; [discriminate|reflexivity|exact H].
Qed.

Lemma write_file_confined path data tr :
  confined (EvWrite path data) ->
  exists q, fst (write_file E path data tr) = q ++ tr /\ quiet q /\ Forall confined q.
Proof.
  intros Hc. unfold write_file. destruct (open_error E tr path); simpl.
  - exists []. repeat split; constructor.
  - exists [EvWrite path data]. split; [reflexivity|]. split; [repeat constructor|].
    constructor; [exact Hc|constructor].
Qed.

Lemma extract_text_from_pdf_confined path tr :
  exists q, fst (extract_text_from_pdf E path tr) = q ++ tr /\ quiet q /\ Forall confined q.
Proof.
  unfold extract_text_from_pdf. destruct (file_contents path tr ≫= pdf_extract E); simpl.
  - exists []. repeat split; constructor.
  - eexists [_]. repeat split; repeat constructor.
Qed.

Lemma pdf_branch_confined resp tr result :
  exists q, fst (fst (pdf_branch E resp tr result)) = q ++ tr /\ quiet q /\ Forall confined q.
Proof.
  unfold pdf_branch.
  destruct (stored_names (resp_url resp) ".pdf" eq_refl) as (Hf & Hl & Hx).
  set (fname := with_ext ".pdf" _) in *.
  set (p1 := path_join DOWNLOAD_DIR fname) in *.
  destruct (write_file_confined p1 (resp_content resp) tr) as (q1 & H1 & Q1 & C1).
  { left. exists fname. auto. }
  destruct (write_file E p1 (resp_content resp) tr) as [tr1 [e|]]; simpl in H1; subst tr1.
  { exists q1. auto. }
  destruct (extract_text_from_pdf_confined p1 (q1 ++ tr)) as (q2 & H2 & Q2 & C2).
  destruct (extract_text_from_pdf E p1 (q1 ++ tr)) as [tr2 text]; simpl in H2; subst tr2.
  destruct (write_file_confined (path_join EXTRACT_DIR (basename p1 +:+ ".txt")) text
              (q2 ++ q1 ++ tr)) as (q3 & H3 & Q3 & C3).
  { right. left. exists (fname +:+ ".txt"). rewrite (Hx ".txt" eq_refl).
    split; [|reflexivity]. rewrite mem_append, Hf. reflexivity. }
  destruct (write_file E _ text (q2 ++ q1 ++ tr)) as [tr3 [e|]]; simpl in H3; subst tr3; simpl;
    exists (q3 ++ q2 ++ q1); rewrite <- !app_assoc;
    (repeat split; [repeat apply quiet_app|repeat apply Forall_app_2]; assumption).
Qed.

Lemma html_branch_confined resp tr result :
  exists q, fst (fst (html_branch E resp tr result)) = q ++ tr /\ quiet q /\ Forall confined q.
Proof.
  unfold html_branch.
  destruct (stored_names (resp_url resp) ".html" eq_refl) as (Hf & Hl & Hx).
  set (fname := with_ext ".html" _) in *.
  set (p1 := path_join DOWNLOAD_DIR fname) in *.
  destruct (write_file_confined p1 (resp_text resp) tr) as (q1 & H1 & Q1 & C1).
  { left. exists fname. auto. }
  destruct (write_file E p1 (resp_text resp) tr) as [tr1 [e|]]; simpl in H1; subst tr1.
  { exists q1. auto. }
  destruct (extract_text_from_html E (resp_text resp)) as [full_text article_text].
  destruct (write_file_confined (path_join EXTRACT_DIR (basename p1 +:+ ".txt")) full_text
              (q1 ++ tr)) as (q2 & H2 & Q2 & C2).
  { right. left. exists (fname +:+ ".txt"). rewrite (Hx ".txt" eq_refl).
    split; [|reflexivity]. rewrite mem_append, Hf. reflexivity. }
  destruct (write_file E _ full_text (q1 ++ tr)) as [tr2 [e|]]; simpl in H2; subst tr2.
  { exists (q2 ++ q1). rewrite <- app_assoc. simpl.
    repeat split; [apply quiet_app|apply Forall_app_2]; assumption. }
  destruct (write_file_confined (path_join EXTRACT_DIR (basename p1 +:+ ".article.txt"))
              article_text (q2 ++ q1 ++ tr)) as (q3 & H3 & Q3 & C3).
  { right. left. exists (fname +:+ ".article.txt"). rewrite (Hx ".article.txt" eq_refl).
    split; [|reflexivity]. rewrite mem_append, Hf. reflexivity. }
  destruct (write_file E _ article_text (q2 ++ q1 ++ tr)) as [tr3 [e|]];
    simpl in H3; subst tr3; simpl;
    exists (q3 ++ q2 ++ q1); rewrite <- !app_assoc;
    (repeat split; [repeat apply quiet_app|repeat apply Forall_app_2]; assumption).
Qed.

End FileNamesOfUrls.

Section Records.

Import Env Json Scraper.

Variable E : env.

Lemma dedup_spec (seen : gset string) (l : list string) :
  NoDup (dedup seen l)
  /\ (forall x, x ∈ dedup seen l <-> x ∈ l /\ x ∉ seen)
  /\ sublist (dedup seen l) l.
Proof.
  revert seen. induction l as [|u l IH]; intros seen; cbn [dedup].
  - split; [constructor|]. split; [|constructor].
    intros x. split; [intros H; inversion H|intros [H _]; inversion H].
  - destruct (bool_decide (u ∈ seen)) eqn:Hu.
    + apply bool_decide_eq_true in Hu. destruct (IH seen) as (Hnd & Hin & Hsub).
      split; [exact Hnd|]. split; [|apply sublist_cons, Hsub].
      intros x. rewrite Hin, elem_of_cons. split; [intros [H1 H2]; auto|].
      intros [[->|H1] H2]; [contradiction|auto].
    + apply bool_decide_eq_false in Hu.
      destruct (IH ({[u]} ∪ seen)) as (Hnd & Hin & Hsub).
      split; [|split; [|apply sublist_skip, Hsub]].
      * apply NoDup_cons. split; [|exact Hnd]. rewrite Hin. set_solver.
      * intros x. rewrite !elem_of_cons, Hin. split.
        -- intros [->|[H1 H2]]; [auto|]. split; [auto|set_solver].
        -- intros [[->|H1] H2]; [auto|].
           destruct (decide (x = u)) as [->|Hne]; [auto|]. right. split; [exact H1|set_solver].
Qed.

Lemma discover_links_nodup html base : NoDup (discover_links E html base).
Proof. apply dedup_spec. Qed.

Lemma follow_links_length recurse root links children w w' cs :
  follow_links E recurse root links children w = Some (w', cs) ->
  (length children <= length cs <= length children + length links)%nat.
Proof.
  revert children w.
  induction links as [|link links IH]; intros children w H; cbn [follow_links] in H.
  - injection H as _ <-. simpl. lia.
  - destruct (negb (within_domain E root link)); [apply IH in H; simpl; lia|].
    destruct (existsb _ BINARY_EXTENSIONS); [apply IH in H; simpl; lia|].
    destruct (recurse link (pause w)) as [[w1 child]|]; [|discriminate].
    destruct child as [[|kv child]|]; apply IH in H; rewrite ?length_app in H; simpl in *; lia.
Qed.

Ltac record_fields :=
  split;
  [ first [left; reflexivity | right; split; [reflexivity|split; [assumption|reflexivity]]]
  | reflexivity
  | reflexivity
  | first [left; repeat split; reflexivity | right; eexists; repeat split; [eassumption|..]; reflexivity]
  | first [left; repeat split; reflexivity | right; split; [eexists|]; reflexivity]
  | first [left; repeat split; reflexivity | right; split; eexists; reflexivity]
  | first [left; repeat split; reflexivity | right; split; eexists; reflexivity]
  | first [discriminate | intros _; split; [reflexivity|eexists; reflexivity]]
  | idtac ].

Lemma process_url_body_record recurse url root_url depth w w' result :
  process_url_body E recurse url root_url depth w = Some (w', Some result) ->
  record_ok url root_url depth result.
Proof.
  intros H. unfold process_url_body in H.
  destruct (bool_decide (url ∈ visited w)); [discriminate|].
  destruct (safe_get E (request_url url) (EvInfo depth url :: trace w)) as [tr [resp|]] eqn:Hget.
  2: { injection H as _ <-. record_fields.
       exists []. repeat split; [simpl; lia|constructor|left; reflexivity]. }
  pose proof (safe_get_ok E _ _ _ _ Hget) as Hok.
  destruct (is_pdf_response (Some resp) (request_url url)).
  - unfold pdf_branch in H.
    destruct (write_file E _ (resp_content resp) tr) as [tr1 [e|]].
    { injection H as _ <-. record_fields.
      exists []. repeat split; [simpl; lia|constructor|left; reflexivity]. }
    destruct (extract_text_from_pdf E _ tr1) as [tr2 text].
    destruct (write_file E _ text tr2) as [tr3 [e|]]; injection H as _ <-; record_fields;
      exists []; (repeat split; [simpl; lia|constructor|left; reflexivity]).
  - unfold html_branch in H.
    destruct (write_file E _ (resp_text resp) tr) as [tr1 [e|]].
    { injection H as _ <-. record_fields.
      exists []. repeat split; [simpl; lia|constructor|left; reflexivity]. }
    destruct (extract_text_from_html E (resp_text resp)) as [full_text article_text].
    destruct (write_file E _ full_text tr1) as [tr2 [e|]].
    { injection H as _ <-. record_fields.
      exists []. repeat split; [simpl; lia|constructor|left; reflexivity]. }
    destruct (write_file E _ article_text tr2) as [tr3 [e|]].
    { injection H as _ <-. record_fields.
      exists []. repeat split; [simpl; lia|constructor|left; reflexivity]. }
    set (links := discover_links E (resp_text resp) (resp_url resp)) in *.
    assert (Hlen : (length (firstn MAX_LINKS_PER_PAGE links) <= MAX_LINKS_PER_PAGE)%nat)
      by (rewrite length_firstn; lia).
    assert (Hnd : NoDup (firstn MAX_LINKS_PER_PAGE links))
      by (eapply sublist_NoDup; [apply discover_links_nodup|apply sublist_take]).
    destruct (FOLLOW_LINKS && (depth <? MAX_CRAWL_DEPTH)%nat) eqn:Hfollow.
    + apply andb_prop in Hfollow as [_ Hlt]. apply Nat.ltb_lt in Hlt.
      match type of H with
      | context [follow_links E ?rec ?root ?ls ?cs ?w0] =>
          destruct (follow_links E rec root ls cs w0) as [[w3 children]|] eqn:Hchildren
      end; [|discriminate].
      apply follow_links_length in Hchildren. simpl in Hchildren.
      injection H as _ <-.
      destruct (published E _); destruct (Soup.find "title" _); record_fields;
        (exists (firstn MAX_LINKS_PER_PAGE links));
        (split; [reflexivity|]); (split; [exact Hlen|]); (split; [exact Hnd|]);
        right; eexists; (split; [reflexivity|lia]).
    + injection H as _ <-.
      destruct (published E _); destruct (Soup.find "title" _); record_fields;
        (exists (firstn MAX_LINKS_PER_PAGE links));
        (split; [reflexivity|]); (split; [exact Hlen|]); (split; [exact Hnd|]);
        left; reflexivity.
Qed.

Lemma process_url_record fuel url root_url depth w w' result :
  process_url E fuel url root_url depth w = Some (w', Some result) ->
  record_ok url root_url depth result.
Proof.
  destruct fuel as [|fuel]; [discriminate|]. apply process_url_body_record.
Qed.

End Records.

Section CrawlShapeFacts.

Import Env Json Scraper.

Variable E : env.

Lemma failures_app url i k a tr :
  failures url i k (a ++ tr) = failures url i k a ++ tr.
Proof.
  revert i a. induction k as [|k IH]; intros i a; [reflexivity|].
  cbn [failures]. rewrite !app_comm_cons. apply IH.
Qed.

Lemma safe_get_shape url tr :
  (exists k r, (k < REQUEST_RETRIES)%nat
     /\ safe_get E url tr = (EvGet url k :: failures url 0 k [] ++ tr, Some r))
  \/ safe_get E url tr = (EvGiveUp url :: failures url 0 REQUEST_RETRIES [] ++ tr, None).
Proof.
  unfold safe_get.
  destruct (safe_get_from_spec E REQUEST_RETRIES 0 url tr)
    as [(k & r & Hk & _ & _ & _ & Heq) | [_ Heq]]; rewrite Heq.
  - left. exists k, r. split; [exact Hk|].
    rewrite <- (failures_app url 0 k [] tr). reflexivity.
  - right. rewrite <- (failures_app url 0 REQUEST_RETRIES [] tr). reflexivity.
Qed.

Lemma follow_links_events depth recurse root links children w w' cs :
  (depth < MAX_CRAWL_DEPTH)%nat ->
  (forall link w1 w2 r,
      recurse link w1 = Some (w2, r) ->
      exists evs, trace w2 = evs ++ trace w1 /\ task_events (S depth) link evs) ->
  follow_links E recurse root links children w = Some (w', cs) ->
  exists n below,
    trace w' = below ++ trace w /\ links_events depth n below
    /\ (n <= length links)%nat /\ (length cs <= length children + n)%nat.
Proof.
  intros Hdepth Hrec. revert children w.
  induction links as [|link links IH]; intros children w H; cbn [follow_links] in H.
  - injection H as <- <-. exists 0%nat, []. repeat split; [constructor|simpl; lia|lia].
  - destruct (negb (within_domain E root link)).
    { destruct (IH _ _ H) as (n & below & Ht & Hl & Hn & Hc).
      exists n, below. repeat split; try assumption. simpl. lia. }
    destruct (existsb _ BINARY_EXTENSIONS) eqn:Hbin.
    { destruct (IH _ _ H) as (n & below & Ht & Hl & Hn & Hc).
      exists n, below. repeat split; try assumption. simpl. lia. }
    destruct (recurse link (pause w)) as [[w1 child]|] eqn:Hchild; [|discriminate].
    destruct (Hrec _ _ _ _ Hchild) as (evs & Hevs & Htask).
    assert (Hrest : exists children',
               follow_links E recurse root links children' w1 = Some (w', cs)
               /\ (length children' <= S (length children))%nat).
    { destruct child as [[|kv child]|]; eexists; (split; [exact H|]);
        rewrite ?length_app; simpl; lia. }
    destruct Hrest as (children' & Hloop & Hlen).
    destruct (IH _ _ Hloop) as (n & below & Ht & Hl & Hn & Hc).
    exists (S n), (below ++ evs ++ [EvSleep SLEEP_BETWEEN_REQUESTS]).
    repeat split.
    + rewrite Ht, Hevs. simpl. rewrite <- !app_assoc. reflexivity.
    + apply (links_more depth n link evs below); assumption.
    + simpl. lia.
    + lia.
Qed.

Lemma process_url_body_events recurse url root_url depth w w' r :
  (forall link root w1 w2 r',
      recurse link root (S depth) w1 = Some (w2, r') ->
      exists evs, trace w2 = evs ++ trace w1 /\ task_events (S depth) link evs) ->
  process_url_body E recurse url root_url depth w = Some (w', r) ->
  exists evs, trace w' = evs ++ trace w /\ task_events depth url evs.
Proof.
  intros Hrec H. unfold process_url_body in H.
  destruct (bool_decide (url ∈ visited w)).
  { injection H as <- <-. exists []. split; [reflexivity|constructor]. }
  destruct (safe_get_shape (request_url url) (EvInfo depth url :: trace w))
    as [(k & resp & Hk & Hget) | Hget]; rewrite Hget in H.
  2: { injection H as <- <-. eexists. split; [|apply task_failed].
       cbn [trace]. rewrite <- app_comm_cons, <- !failures_app. reflexivity. }
  set (tr := EvGet (request_url url) k :: _) in *.
  set (vis := {[url]} ∪ visited w) in *.
  set (result0 := set "content_type" _ _) in H.
  match type of H with
  | match ?t with _ => _ end = _ => destruct t as [[[w2 result] err]|] eqn:Htried
  end; [|discriminate].
  assert (Hbody : exists files n below,
             trace w2 = below ++ files ++ tr /\ quiet files /\ Forall confined files
             /\ links_events depth n below /\ (n <= MAX_LINKS_PER_PAGE)%nat).
  { destruct (is_pdf_response (Some resp) (request_url url)).
    - destruct (pdf_branch_confined E resp tr result0) as (q & Hq & Qq & Cq).
      destruct (pdf_branch E resp tr result0) as [[tr2 result2] err2].
      simpl in Hq. injection Htried as <- <- <-. subst tr2.
      exists q, 0%nat, []. repeat split; [exact Qq|exact Cq|constructor|lia].
    - destruct (html_branch_confined E resp tr result0) as (q & Hq & Qq & Cq).
      destruct (html_branch E resp tr result0) as [[tr2 result2] [e|links]].
      + simpl in Hq. injection Htried as <- <- <-. subst tr2.
        exists q, 0%nat, []. repeat split; [exact Qq|exact Cq|constructor|lia].
      + simpl in Hq. subst tr2.
        destruct (FOLLOW_LINKS && (depth <? MAX_CRAWL_DEPTH)%nat) eqn:Hfollow.
        * apply andb_prop in Hfollow as [_ Hlt]. apply Nat.ltb_lt in Hlt.
          match type of Htried with
          | match ?t with _ => _ end = _ => destruct t as [[w3 children]|] eqn:Hchildren
          end; [|discriminate].
          injection Htried as <- <- <-.
          apply follow_links_events with (depth := depth) in Hchildren; [|exact Hlt|].
          2: { intros link wa wb r' Hr. apply (Hrec _ _ _ _ _ Hr). }
          destruct Hchildren as (n & below & Ht & Hl & Hn & _).
          exists q, n, below. repeat split; [exact Ht|exact Qq|exact Cq|exact Hl|].
          rewrite length_firstn in Hn. lia.
        * injection Htried as <- <- <-.
          exists q, 0%nat, []. repeat split; [exact Qq|exact Cq|constructor|lia]. }
  destruct Hbody as (files & n & below & Ht & Qf & Cf & Hl & Hn).
  destruct (handle (request_url url) err w2 result) as [w4 result4] eqn:Hhandle.
  injection H as <- <-.
  assert (H4 : exists handled,
             trace w4 = handled ++ trace w2 /\ quiet handled /\ Forall confined handled).
  { unfold handle in Hhandle. destruct err as [e|]; injection Hhandle as <- <-.
    - exists [EvExc (request_url url) e]. repeat split; repeat constructor.
    - exists []. repeat split; constructor. }
  destruct H4 as (handled & Ht4 & Qh & Ch).
  exists (EvSleep SLEEP_BETWEEN_REQUESTS
            :: EvAppend COMBINED_JSONL (dumps result4 +:+ EmptyString)
            :: EvWrite
                 (Str.path_join JSON_OUT_DIR
                    (make_filename_from_url E
                       (get_str_or "fetched_url" (request_url url) result4) +:+ ".json"))
                 (dumps_indent2 result4)
            :: handled ++ below ++ files
            ++ EvGet (request_url url) k
            :: failures (request_url url) 0 k [EvInfo depth url]).
  split; [|apply (task_done depth url k files n below handled);
            try assumption; apply json_path_inside].
  unfold persist. cbn [trace]. rewrite Ht4, Ht. unfold tr.
  rewrite <- !app_comm_cons, <- !app_assoc, <- !app_comm_cons, <- !failures_app.
  reflexivity.
Qed.

Lemma process_url_events fuel url root_url depth w w' r :
  process_url E fuel url root_url depth w = Some (w', r) ->
  exists evs, trace w' = evs ++ trace w /\ task_events depth url evs.
Proof.
  revert url root_url depth w w' r.
  induction fuel as [|fuel IH]; intros url root_url depth w w' r H; [discriminate|].
  apply (process_url_body_events (process_url E fuel) url root_url depth w w' r); [|exact H].
  intros link root w1 w2 r' Hr. apply (IH _ _ _ _ _ _ Hr).
Qed.

Lemma main_loop_events fuel urls all_results w w' rs :
  main_loop E fuel urls all_results w = Some (w', rs) ->
  exists evs, trace w' = evs ++ trace w /\ seeds_events urls evs.
Proof.
  revert all_results w.
  induction urls as [|u urls IH]; intros all_results w H; cbn [main_loop] in H.
  - injection H as <- <-. exists []. split; [reflexivity|constructor].
  - destruct (process_url E fuel u (Some u) 0 w) as [[w1 r]|] eqn:Hp; [|discriminate].
    destruct (process_url_events _ _ _ _ _ _ _ Hp) as (e1 & H1 & T1).
    assert (Hrest : exists all', main_loop E fuel urls all' w1 = Some (w', rs)).
    { destruct r as [[|kv r]|]; eauto. }
    destruct Hrest as (all' & Hloop).
    destruct (IH _ _ Hloop) as (e2 & H2 & T2).
    exists (e2 ++ e1). split; [|constructor; assumption].
    rewrite H2, H1, app_assoc. reflexivity.
Qed.

End CrawlShapeFacts.

Section CrawlLaws.

Import Env Json Scraper.

Variable E : env.

(** *** Counting tasks and requests *)

Lemma tasks_app a b : tasks (a ++ b) = tasks a ++ tasks b.
Proof. apply omap_app. Qed.

Lemma gets_app a b : gets (a ++ b) = gets a ++ gets b.
Proof. apply omap_app. Qed.

Lemma quiet_tasks q : quiet q -> tasks q = [].
Proof. induction 1 as [|e q He _ IH]; [reflexivity|]. destruct e; try discriminate; exact IH. Qed.

Lemma quiet_gets q : quiet q -> gets q = [].
Proof. induction 1 as [|e q He _ IH]; [reflexivity|]. destruct e; try discriminate; exact IH. Qed.

Lemma failures_tasks url i k tr : tasks (failures url i k tr) = tasks tr.
Proof. revert i tr. induction k as [|k IH]; intros i tr; [reflexivity|]. cbn [failures]. rewrite IH. reflexivity. Qed.

Lemma failures_gets url i k tr :
  length (gets (failures url i k tr)) = (k + length (gets tr))%nat.
Proof.
  revert i tr. induction k as [|k IH]; intros i tr; [reflexivity|].
  cbn [failures]. rewrite IH. simpl. lia.
Qed.

Lemma crawl_bound_pos l : (1 <= crawl_bound l)%nat.
Proof. destruct l; simpl; lia. Qed.

Lemma crawl_events_size :
  (forall depth url evs,
      task_events depth url evs ->
      (length (tasks evs) <= crawl_bound (MAX_CRAWL_DEPTH - depth))%nat
      /\ (length (gets evs) <= REQUEST_RETRIES * length (tasks evs))%nat)
  /\ (forall depth n below,
        links_events depth n below ->
        (length (tasks below) <= n * crawl_bound (MAX_CRAWL_DEPTH - S depth))%nat
        /\ (length (gets below) <= REQUEST_RETRIES * length (tasks below))%nat
        /\ (0 < n -> depth < MAX_CRAWL_DEPTH)%nat).
Proof.
  apply crawl_events_ind.
  - intros depth url. simpl. split; lia.
  - intros depth url.
    set (X := failures (request_url url) 0 REQUEST_RETRIES [EvInfo depth url]).
    change (tasks (EvGiveUp (request_url url) :: X)) with (tasks X).
    change (gets (EvGiveUp (request_url url) :: X)) with (gets X).
    unfold X. rewrite failures_tasks, failures_gets. simpl.
    split; [apply crawl_bound_pos|lia].
  - intros depth url k files n below handled json_path json line Hk Qf _ Qh _ _ _ (Ht & Hg & Hn) Hle.
    assert (Htasks : tasks (EvSleep SLEEP_BETWEEN_REQUESTS :: EvAppend COMBINED_JSONL line
                              :: EvWrite json_path json :: handled ++ below ++ files
                              ++ EvGet (request_url url) k
                              :: failures (request_url url) 0 k [EvInfo depth url])
                     = tasks below ++ [(depth, url)]).
    { change (tasks (handled ++ below ++ files
                       ++ EvGet (request_url url) k
                       :: failures (request_url url) 0 k [EvInfo depth url])
              = tasks below ++ [(depth, url)]).
      rewrite !tasks_app, (quiet_tasks _ Qf), (quiet_tasks _ Qh).
      set (X := failures (request_url url) 0 k [EvInfo depth url]).
      change (tasks (EvGet (request_url url) k :: X)) with (tasks X).
      unfold X. rewrite failures_tasks. reflexivity. }
    assert (Hgets : length (gets (EvSleep SLEEP_BETWEEN_REQUESTS :: EvAppend COMBINED_JSONL line
                              :: EvWrite json_path json :: handled ++ below ++ files
                              ++ EvGet (request_url url) k
                              :: failures (request_url url) 0 k [EvInfo depth url]))
                    = (length (gets below) + S k)%nat).
    { change (length (gets (handled ++ below ++ files
                       ++ EvGet (request_url url) k
                       :: failures (request_url url) 0 k [EvInfo depth url]))
              = (length (gets below) + S k)%nat).
      rewrite !gets_app, (quiet_gets _ Qf), (quiet_gets _ Qh).
      set (X := failures (request_url url) 0 k [EvInfo depth url]).
      change (gets (EvGet (request_url url) k :: X)) with ((request_url url, k) :: gets X).
      cbn [app]. rewrite length_app. cbn [length]. unfold X.
      rewrite failures_gets. simpl. lia. }
    rewrite Htasks, Hgets, length_app. simpl. split; [|unfold REQUEST_RETRIES in *; lia].
    destruct n as [|n].
    + simpl in Ht. pose proof (crawl_bound_pos (MAX_CRAWL_DEPTH - depth)). lia.
    + specialize (Hn (Nat.lt_0_succ n)).
      replace (MAX_CRAWL_DEPTH - depth)%nat with (S (MAX_CRAWL_DEPTH - S depth)) by lia.
      cbn [crawl_bound].
      assert (S n * crawl_bound (MAX_CRAWL_DEPTH - S depth)
              <= MAX_LINKS_PER_PAGE * crawl_bound (MAX_CRAWL_DEPTH - S depth))%nat
        by (apply Nat.mul_le_mono_r; exact Hle).
      lia.
  - intros depth. simpl. repeat split; lia.
  - intros depth n link child rest Hd Hb _ (Ht & Hg) _ (Hts & Hgs & _).
    rewrite !tasks_app, !gets_app, !length_app.
    change (tasks [EvSleep SLEEP_BETWEEN_REQUESTS]) with (@nil (nat * string)).
    change (gets [EvSleep SLEEP_BETWEEN_REQUESTS]) with (@nil (string * nat)).
    cbn [length]. rewrite Nat.mul_succ_l.
    unfold REQUEST_RETRIES in *. repeat split; [lia|lia|intros _; exact Hd].
Qed.

Lemma seeds_events_size urls evs :
  seeds_events urls evs ->
  (length (tasks evs) <= length urls * crawl_bound MAX_CRAWL_DEPTH)%nat
  /\ (length (gets evs) <= REQUEST_RETRIES * length (tasks evs))%nat.
Proof.
  induction 1 as [|u urls evs rest Ht _ [IH1 IH2]]; [simpl; lia|].
  destruct (proj1 crawl_events_size _ _ _ Ht) as [H1 H2].
  rewrite Nat.sub_0_r in H1.
  rewrite tasks_app, gets_app, !length_app. cbn [length]. rewrite Nat.mul_succ_l.
  unfold REQUEST_RETRIES in *. lia.
Qed.

(** *** Binary links *)

Lemma failures_info url i k tr d u :
  EvInfo d u ∈ failures url i k tr -> EvInfo d u ∈ tr.
Proof.
  revert i tr. induction k as [|k IH]; intros i tr H; [exact H|].
  cbn [failures] in H. apply IH in H.
  repeat (apply elem_of_cons in H as [H|H]; [discriminate|]). exact H.
Qed.

Lemma crawl_events_binary :
  (forall depth url evs,
      task_events depth url evs ->
      forall d u, EvInfo d u ∈ evs ->
        (d = depth /\ u = url) \/ (depth < d /\ is_binary_link u = false)%nat)
  /\ (forall depth n below,
        links_events depth n below ->
        forall d u, EvInfo d u ∈ below -> (depth < d)%nat /\ is_binary_link u = false).
Proof.
  apply crawl_events_ind.
  - intros depth url d u H. inversion H.
  - intros depth url d u H.
    apply elem_of_cons in H as [H|H]; [discriminate|].
    apply failures_info, list_elem_of_singleton in H. injection H as -> ->. auto.
  - intros depth url k files n below handled json_path json line _ Qf _ Qh _ _ _ IH _ d u H.
    do 3 (apply elem_of_cons in H as [H|H]; [discriminate|]).
    apply elem_of_app in H as [H|H]; [destruct (quiet_no_info _ _ _ Qh H)|].
    apply elem_of_app in H as [H|H]; [right; apply (IH d u H)|].
    apply elem_of_app in H as [H|H]; [destruct (quiet_no_info _ _ _ Qf H)|].
    apply elem_of_cons in H as [H|H]; [discriminate|].
    apply failures_info, list_elem_of_singleton in H. injection H as -> ->. auto.
  - intros depth d u H. inversion H.
  - intros depth n link child rest _ Hb _ IHc _ IHr d u H.
    apply elem_of_app in H as [H|H]; [apply (IHr d u H)|].
    apply elem_of_app in H as [H|H].
    + destruct (IHc d u H) as [[-> ->]|[Hd Hu]]; split; try assumption; lia.
    + apply list_elem_of_singleton in H. discriminate.
Qed.

(** *** Where files are written *)

Lemma failures_confined url i k tr :
  Forall confined tr -> Forall confined (failures url i k tr).
Proof.
  revert i tr. induction k as [|k IH]; intros i tr H; [exact H|].
  cbn [failures]. apply IH. repeat (constructor; [exact I|]). exact H.
Qed.

Lemma crawl_events_confined :
  (forall depth url evs, task_events depth url evs -> Forall confined evs)
  /\ (forall depth n below, links_events depth n below -> Forall confined below).
Proof.
  apply crawl_events_ind.
  - intros depth url. constructor.
  - intros depth url. constructor; [exact I|].
    apply failures_confined. repeat constructor.
  - intros depth url k files n below handled json_path json line _ _ Cf _ Ch Hj _ IH _.
    constructor; [exact I|]. constructor; [reflexivity|].
    constructor; [right; right; exact Hj|].
    repeat apply Forall_app_2; try assumption.
    constructor; [exact I|]. apply failures_confined. repeat constructor.
  - intros depth. constructor.
  - intros depth n link child rest _ _ _ IHc _ IHr.
    repeat apply Forall_app_2; try assumption. repeat constructor.
Qed.

Lemma seeds_events_confined urls evs : seeds_events urls evs -> Forall confined evs.
Proof.
  induction 1 as [|u urls evs rest Ht _ IH]; [constructor|].
  apply Forall_app_2; [exact IH|]. apply (proj1 crawl_events_confined _ _ _ Ht).
Qed.

(** *** Pauses between requests *)

Lemma rested_quiet q tr : quiet q -> rested tr = true -> rested (q ++ tr) = true.
Proof.
  induction 1 as [|e q He _ IH]; intros H; [exact H|].
  destruct e; try discriminate; simpl; rewrite ?(IH H), ?orb_true_r; reflexivity.
Qed.

Lemma paced_quiet q tr : quiet q -> paced (q ++ tr) = paced tr.
Proof.
  induction 1 as [|e q He _ IH]; [reflexivity|].
  destruct e; try discriminate; exact IH.
Qed.

Lemma failures_paced url i k tr :
  rested tr = true -> paced tr = true ->
  rested (failures url i k tr) = true /\ paced (failures url i k tr) = true.
Proof.
  revert i tr. induction k as [|k IH]; intros i tr Hr Hp; [auto|].
  cbn [failures]. apply IH.
  - cbn [rested]. apply orb_true_iff. left. apply Z.leb_le.
    unfold SLEEP_BETWEEN_REQUESTS. lia.
  - cbn [paced]. rewrite Hr, Hp. reflexivity.
Qed.

Lemma crawl_events_paced :
  (forall depth url evs,
      task_events depth url evs ->
      forall tr, rested tr = true -> paced tr = true ->
        rested (evs ++ tr) = true /\ paced (evs ++ tr) = true)
  /\ (forall depth n below,
        links_events depth n below ->
        forall tr, paced tr = true -> paced (below ++ tr) = true).
Proof.
  apply crawl_events_ind.
  - intros depth url tr Hr Hp. auto.
  - intros depth url tr Hr Hp.
    rewrite <- app_comm_cons, <- failures_app. cbn [rested paced].
    apply failures_paced; assumption.
  - intros depth url k files n below handled json_path json line _ Qf _ Qh _ _ _ IH _ tr Hr Hp.
    rewrite <- !app_comm_cons. cbn [rested paced].
    split; [apply orb_true_iff; left; apply Z.leb_le; lia|].
    rewrite <- !app_assoc, (paced_quiet _ _ Qh). apply IH.
    rewrite (paced_quiet _ _ Qf), <- app_comm_cons, <- failures_app. cbn [paced].
    destruct (failures_paced (request_url url) 0 k ([EvInfo depth url] ++ tr)) as [H1 H2];
      [exact Hr|exact Hp|].
    rewrite H1, H2. reflexivity.
  - intros depth tr Hp. exact Hp.
  - intros depth n link child rest _ _ _ IHc _ IHr tr Hp.
    rewrite <- !app_assoc. apply IHr, IHc; [reflexivity|exact Hp].
Qed.

Lemma seeds_events_paced urls evs :
  seeds_events urls evs ->
  forall tr, rested tr = true -> paced tr = true ->
    rested (evs ++ tr) = true /\ paced (evs ++ tr) = true.
Proof.
  induction 1 as [|u urls evs rest Ht _ IH]; intros tr Hr Hp; [auto|].
  rewrite <- app_assoc.
  destruct (proj1 crawl_events_paced _ _ _ Ht tr Hr Hp) as [H1 H2].
  apply IH; assumption.
Qed.

Lemma seeds_events_binary urls evs :
  seeds_events urls evs ->
  forall d u, EvInfo d u ∈ evs ->
    (d = 0%nat /\ u ∈ urls) \/ (0 < d /\ is_binary_link u = false)%nat.
Proof.
  induction 1 as [|u urls evs rest Ht _ IH]; intros d x H; [inversion H|].
  apply elem_of_app in H as [H|H].
  - destruct (IH d x H) as [[-> Hx]|Hx]; [left|right; exact Hx].
    split; [reflexivity|]. apply elem_of_cons. auto.
  - destruct (proj1 crawl_events_binary _ _ _ Ht d x H) as [[-> ->]|Hx]; [left|right; exact Hx].
    split; [reflexivity|]. apply elem_of_cons. auto.
Qed.

(** What [paced] says of a request: it is the first of the run, or a
    pause of at least [SLEEP_BETWEEN_REQUESTS] lies between it and the
    request before it. *)
Lemma rested_split tr :
  rested tr = true ->
  (forall u j, EvGet u j ∉ tr)
  \/ exists between ms before,
       tr = between ++ EvSleep ms :: before
       /\ SLEEP_BETWEEN_REQUESTS <= ms
       /\ forall u j, EvGet u j ∉ between.
Proof.
  induction tr as [|e tr IH]; intros H.
  - left. intros u j Hin. inversion Hin.
  - assert (Hcons : forall e', (forall u j, e' <> EvGet u j) -> rested tr = true ->
               (forall u j, EvGet u j ∉ e' :: tr)
               \/ exists between ms before,
                    e' :: tr = between ++ EvSleep ms :: before
                    /\ SLEEP_BETWEEN_REQUESTS <= ms
                    /\ forall u j, EvGet u j ∉ between).
    { intros e' He' Hr. destruct (IH Hr) as [Hno|(b & ms & a & -> & Hms & Hb)].
      - left. intros u j [Hin|Hin]%elem_of_cons; [exact (He' u j (eq_sym Hin))|exact (Hno u j Hin)].
      - right. exists (e' :: b), ms, a. repeat split; [exact Hms|].
        intros u j [Hin|Hin]%elem_of_cons; [exact (He' u j (eq_sym Hin))|exact (Hb u j Hin)]. }
    destruct e; try (apply Hcons; [discriminate|exact H]); [discriminate|].
    simpl in H. apply orb_true_iff in H as [H|H]; [|apply Hcons; [discriminate|exact H]].
    right. exists [], ms, tr. repeat split; [apply Z.leb_le, H|].
    intros u j Hin. inversion Hin.
Qed.

Lemma paced_split tr newer u i older :
  paced tr = true -> tr = newer ++ EvGet u i :: older -> rested older = true.
Proof.
  intros H ->. induction newer as [|e newer IH].
  - simpl in H. apply andb_prop in H as [H _]. exact H.
  - apply IH. destruct e; simpl in H; try exact H.
    apply andb_prop in H as [_ H]. exact H.
Qed.

End CrawlLaws.

Section MainLaws.

Import Env Json Scraper.

Variable E : env.

(** The results of the loop of [main]: what it adds to [all_results]
    are the results of the seeds that were new when their turn came, in
    the order of the seeds. *)
Lemma main_loop_results fuel urls all_results w w' rs :
  main_loop E fuel urls all_results w = Some (w', rs) ->
  visited w ⊆ visited w'
  /\ exists new,
       rs = all_results ++ new
       /\ sublist (source_of <$> new) (PStr <$> urls)
       /\ (forall r, r ∈ new ->
             exists u, source_of r = PStr u /\ (u ∉ visited w) /\ (u ∈ visited w'))
       /\ NoDup (source_of <$> new)
       /\ match urls with
          | u :: _ => u ∉ visited w -> exists r new', new = r :: new' /\ source_of r = PStr u
          | [] => new = []
          end.
Proof.
  revert all_results w.
  induction urls as [|u urls IH]; intros all_results w H; cbn [main_loop] in H.
  - injection H as <- <-. split; [reflexivity|]. exists [].
    rewrite app_nil_r. repeat split; [constructor|intros r Hr; inversion Hr|constructor].
  - destruct (process_url E fuel u (Some u) 0 w) as [[w1 r]|] eqn:Hp; [|discriminate].
    destruct (process_url_crawled E fuel u (Some u) 0 w w1 r (Nat.le_0_l _) Hp)
      as (e1 & C1 & _ & Hold & Hnew).
    assert (Hmono : visited w ⊆ visited w1).
    { rewrite (cr_visited _ _ _ _ C1). set_solver. }
    destruct (decide (u ∈ visited w)) as [Hv|Hv].
    + destruct (Hold Hv) as (_ & -> & ->).
      destruct (IH _ _ H) as (Hsub & new & -> & Hsl & Hsrc & Hnd & _).
      split; [exact Hsub|]. exists new. repeat split; try assumption.
      * apply sublist_cons, Hsl.
      * intros Hn. contradiction.
    + destruct (Hnew Hv) as (Hin & _ & result & -> & Hres & Hne).
      assert (Hu1 : u ∈ visited w1).
      { rewrite (cr_visited _ _ _ _ C1). apply info_task_urls in Hin. set_solver. }
      destruct result as [|kv result]; [contradiction|].
      destruct (IH _ _ H) as (Hsub & new & -> & Hsl & Hsrc & Hnd & _).
      split; [etrans; eassumption|]. exists ((kv :: result) :: new).
      rewrite <- app_assoc. repeat split.
      * simpl. rewrite Hres. apply sublist_skip, Hsl.
      * intros r [->|Hr]%elem_of_cons.
        -- exists u. repeat split; [exact Hres|exact Hv|]. apply Hsub, Hu1.
        -- destruct (Hsrc r Hr) as (u' & Hs & Hn1 & Hi). exists u'.
           repeat split; [exact Hs| |exact Hi]. intros Hw. apply Hn1, Hmono, Hw.
      * simpl. apply NoDup_cons. split; [|exact Hnd].
        intros Hx. apply list_elem_of_fmap in Hx as (r & Hr & Hx).
        destruct (Hsrc r Hx) as (u' & Hs & Hn1 & _).
        rewrite Hres in Hr. rewrite Hs in Hr. injection Hr as ->. contradiction.
      * intros _. eauto.
Qed.

End MainLaws.

Section RecordLaws.

Import Env Json Scraper.

Variable E : env.

(** X1: every result of [process_url] has the fifteen keys that the
    task starts from, in that order, followed by [children_count] only
    when the links of the page were followed (which takes a depth below
    the limit and ends without error); [source_url] is the URL the task
    was called with, before any rewrite, and [root_url] is the root it
    was given, or the URL itself when none (or an empty one) was given. *)
Theorem process_url_result_schema :
  forall (fuel : nat) (url : string) (root_url : option string) (depth : nat)
         (w w' : world) (result : dict),
    process_url E fuel url root_url depth w = Some (w', Some result) ->
    (keys result = RESULT_KEYS
     \/ (keys result = RESULT_KEYS ++ ["children_count"]
         /\ (depth < MAX_CRAWL_DEPTH)%nat /\ get "error" result = PNone))
    /\ get "source_url" result = PStr url
    /\ get "root_url" result = PStr (root_or root_url url).
Proof.
  intros fuel url root_url depth w w' result H.
  destruct (process_url_record E _ _ _ _ _ _ _ H) as [K S R _ _ _ _ _ _]. auto.
Qed.

(** X2: the entries of a result are set together.  Either the fetch
    failed: [error] is [failed_to_fetch] and nothing of a response is
    recorded; or the response is recorded: a status that is no 4xx or 5xx
    code, the final URL, and the content type in lower case.  The
    download has a path exactly when [downloaded] is true, the full text
    and the article text each come with the path of their file, there is
    no article text without full text and no full text without download,
    and a result without error has its download and its full text. *)
Theorem process_url_result_entries :
  forall (fuel : nat) (url : string) (root_url : option string) (depth : nat)
         (w w' : world) (result : dict),
    process_url E fuel url root_url depth w = Some (w', Some result) ->
    ((get "error" result = PStr "failed_to_fetch"
      /\ get "status_code" result = PNone /\ get "fetched_url" result = PNone
      /\ get "content_type" result = PNone /\ get "local_path" result = PNone)
     \/ exists resp,
          ok resp = true
          /\ get "status_code" result = PInt (resp_status resp)
          /\ get "fetched_url" result = PStr (resp_url resp)
          /\ get "content_type" result
             = PStr (Str.lower (default EmptyString (resp_content_type resp))))
    /\ ((get "local_path" result = PNone /\ get "downloaded" result = PBool false
         /\ get "full_text" result = PNone)
        \/ (is_str (get "local_path" result) /\ get "downloaded" result = PBool true))
    /\ ((get "full_text_path" result = PNone /\ get "full_text" result = PNone
         /\ get "article_text" result = PNone)
        \/ (is_str (get "full_text_path" result) /\ is_str (get "full_text" result)))
    /\ ((get "article_text_path" result = PNone /\ get "article_text" result = PNone
         /\ get "title" result = PNone /\ get "published" result = PNone
         /\ get "discovered_links" result = PList [] /\ get "children_count" result = PNone)
        \/ (is_str (get "article_text_path" result) /\ is_str (get "article_text" result)))
    /\ (get "error" result = PNone ->
        get "downloaded" result = PBool true /\ is_str (get "full_text" result)).
Proof.
  intros fuel url root_url depth w w' result H.
  destruct (process_url_record E _ _ _ _ _ _ _ H) as [_ _ _ R D F A S _]. auto.
Qed.

(** X3: a result lists at most [MAX_LINKS_PER_PAGE] discovered links,
    without repetition, and [children_count], when present, counts the
    children that gave a result: it is at most the number of links
    listed. *)
Theorem process_url_links_capped :
  forall (fuel : nat) (url : string) (root_url : option string) (depth : nat)
         (w w' : world) (result : dict),
    process_url E fuel url root_url depth w = Some (w', Some result) ->
    exists links,
      get "discovered_links" result = PList links
      /\ (length links <= MAX_LINKS_PER_PAGE)%nat /\ NoDup links
      /\ (get "children_count" result = PNone
          \/ exists n, get "children_count" result = PInt n
                       /\ 0 <= n <= Z.of_nat (length links)).
Proof.
  intros fuel url root_url depth w w' result H.
  destruct (process_url_record E _ _ _ _ _ _ _ H) as [_ _ _ _ _ _ _ _ L]. exact L.
Qed.

End RecordLaws.

Lemma process_url_result_schema_witness :
  exists w' result,
    Scraper.process_url (Demo.static Demo.site) 3 "https://example.com/a" None 0
      {| Scraper.visited := ∅; Scraper.trace := [] |} = Some (w', Some result)
    /\ (keys result = RESULT_KEYS
        \/ (keys result = RESULT_KEYS ++ ["children_count"]
            /\ (0 < Scraper.MAX_CRAWL_DEPTH)%nat /\ Json.get "error" result = Json.PNone))
    /\ Json.get "source_url" result = Json.PStr "https://example.com/a"
    /\ Json.get "root_url" result
       = Json.PStr (Scraper.root_or None "https://example.com/a").
Proof.
  eexists _, _. split; [vm_compute; reflexivity|].
  eapply (process_url_result_schema (Demo.static Demo.site) 3 "https://example.com/a" None 0
            {| Scraper.visited := ∅; Scraper.trace := [] |}).
  vm_compute. reflexivity.
Defined.

Lemma process_url_result_entries_witness :
  exists w' result,
    Scraper.process_url (Demo.static Demo.site) 3 "https://example.com/a" None 0
      {| Scraper.visited := ∅; Scraper.trace := [] |} = Some (w', Some result)
    /\ ((Json.get "error" result = Json.PStr "failed_to_fetch"
         /\ Json.get "status_code" result = Json.PNone
         /\ Json.get "fetched_url" result = Json.PNone
         /\ Json.get "content_type" result = Json.PNone
         /\ Json.get "local_path" result = Json.PNone)
        \/ exists resp,
             Env.ok resp = true
             /\ Json.get "status_code" result = Json.PInt (Env.resp_status resp)
             /\ Json.get "fetched_url" result = Json.PStr (Env.resp_url resp)
             /\ Json.get "content_type" result
                = Json.PStr (Str.lower (default EmptyString (Env.resp_content_type resp))))
    /\ ((Json.get "local_path" result = Json.PNone
         /\ Json.get "downloaded" result = Json.PBool false
         /\ Json.get "full_text" result = Json.PNone)
        \/ (is_str (Json.get "local_path" result)
            /\ Json.get "downloaded" result = Json.PBool true))
    /\ ((Json.get "full_text_path" result = Json.PNone
         /\ Json.get "full_text" result = Json.PNone
         /\ Json.get "article_text" result = Json.PNone)
        \/ (is_str (Json.get "full_text_path" result)
            /\ is_str (Json.get "full_text" result)))
    /\ ((Json.get "article_text_path" result = Json.PNone
         /\ Json.get "article_text" result = Json.PNone
         /\ Json.get "title" result = Json.PNone
         /\ Json.get "published" result = Json.PNone
         /\ Json.get "discovered_links" result = Json.PList []
         /\ Json.get "children_count" result = Json.PNone)
        \/ (is_str (Json.get "article_text_path" result)
            /\ is_str (Json.get "article_text" result)))
    /\ (Json.get "error" result = Json.PNone ->
        Json.get "downloaded" result = Json.PBool true
        /\ is_str (Json.get "full_text" result)).
Proof.
  eexists _, _. split; [vm_compute; reflexivity|].
  eapply (process_url_result_entries (Demo.static Demo.site) 3 "https://example.com/a" None 0
            {| Scraper.visited := ∅; Scraper.trace := [] |}).
  vm_compute. reflexivity.
Defined.

Lemma process_url_links_capped_witness :
  exists w' result,
    Scraper.process_url (Demo.static Demo.site) 3 "https://example.com/a" None 0
      {| Scraper.visited := ∅; Scraper.trace := [] |} = Some (w', Some result)
    /\ exists links,
         Json.get "discovered_links" result = Json.PList links
         /\ (length links <= Scraper.MAX_LINKS_PER_PAGE)%nat /\ NoDup links
         /\ (Json.get "children_count" result = Json.PNone
             \/ exists n, Json.get "children_count" result = Json.PInt n
                          /\ 0 <= n <= Z.of_nat (length links)).
Proof.
  eexists _, _. split; [vm_compute; reflexivity|].
  eapply (process_url_links_capped (Demo.static Demo.site) 3 "https://example.com/a" None 0
            {| Scraper.visited := ∅; Scraper.trace := [] |}).
  vm_compute. reflexivity.
Defined.

Section CrawlExtras.

Import Env Json Scraper.

Variable E : env.

(** X4: [main] keeps the pause between requests.  Every request of a
    run is the first one, or a pause of at least [SLEEP_BETWEEN_REQUESTS]
    (0.8 seconds) lies between it and the request before it: the pause
    that ends a task, the pause before a link is followed, or the pause
    after a failed attempt. *)
Theorem main_pauses_between_requests :
  forall (fuel : nat) (urls : list string),
    (MAX_CRAWL_DEPTH < fuel)%nat ->
    exists w' rs,
      main E fuel urls = Some (w', rs)
      /\ forall newer u i older,
           trace w' = newer ++ EvGet u i :: older ->
           (forall u' j, EvGet u' j ∉ older)
           \/ exists between ms before,
                older = between ++ EvSleep ms :: before
                /\ SLEEP_BETWEEN_REQUESTS <= ms
                /\ forall u' j, EvGet u' j ∉ between.
Proof.
  intros fuel urls Hfuel. unfold main.
  destruct (main_loop_total E fuel urls [] {| visited := ∅; trace := [] |} Hfuel)
    as [[w' rs] Hm].
  exists w', rs. split; [exact Hm|].
  destruct (main_loop_events E _ _ _ _ _ _ Hm) as (evs & Ht & Hs).
  simpl in Ht. rewrite app_nil_r in Ht. subst evs.
  destruct (seeds_events_paced _ _ Hs [] eq_refl eq_refl) as [_ Hp].
  rewrite app_nil_r in Hp.
  intros newer u i older Hsplit.
  apply rested_split, (paced_split _ _ _ _ _ Hp Hsplit).
Qed.

(** X5: [main] never follows a link that looks binary.  Every task of
    a run is that of a seed, at depth 0, or that of a link below it,
    whose lower-cased text ends in none of [.jpg], [.png], [.zip] and
    [.exe]. *)
Theorem main_skips_binary_links :
  forall (fuel : nat) (urls : list string),
    (MAX_CRAWL_DEPTH < fuel)%nat ->
    exists w' rs,
      main E fuel urls = Some (w', rs)
      /\ forall d u, EvInfo d u ∈ trace w' ->
           (d = 0%nat /\ u ∈ urls)
           \/ ((0 < d)%nat
               /\ forall ext, ext ∈ BINARY_EXTENSIONS ->
                    Str.endswith ext (Str.lower u) = false).
Proof.
  intros fuel urls Hfuel. unfold main.
  destruct (main_loop_total E fuel urls [] {| visited := ∅; trace := [] |} Hfuel)
    as [[w' rs] Hm].
  exists w', rs. split; [exact Hm|].
  destruct (main_loop_events E _ _ _ _ _ _ Hm) as (evs & Ht & Hs).
  simpl in Ht. rewrite app_nil_r in Ht. subst evs.
  intros d u Hin.
  destruct (seeds_events_binary _ _ Hs d u Hin) as [H|[Hd Hb]]; [auto|].
  right. split; [exact Hd|]. intros ext Hext.
  unfold is_binary_link in Hb.
  destruct (Str.endswith ext (Str.lower u)) eqn:He; [|reflexivity].
  assert (Hex : existsb (fun ext => Str.endswith ext (Str.lower u)) BINARY_EXTENSIONS = true).
  { apply existsb_exists. exists ext. split; [apply list_elem_of_In, Hext|exact He]. }
  congruence.
Qed.

(** X6: the crawl writes only into its three directories.  Every file
    the tasks of a run write lies directly inside [downloads],
    [extracted] or [json_output] (its name holds no slash), whatever the
    URLs are, and the only file they append to is the combined log.  (The
    summary table that [main] exports when the crawl is over is not part
    of the model.) *)
Theorem main_writes_are_confined :
  forall (fuel : nat) (urls : list string),
    (MAX_CRAWL_DEPTH < fuel)%nat ->
    exists w' rs,
      main E fuel urls = Some (w', rs)
      /\ (forall path data, EvWrite path data ∈ trace w' ->
            exists dir name,
              dir ∈ [DOWNLOAD_DIR; EXTRACT_DIR; JSON_OUT_DIR]
              /\ Str.mem "/" name = false
              /\ path = dir +:+ "/" +:+ name)
      /\ (forall path data, EvAppend path data ∈ trace w' -> path = COMBINED_JSONL).
Proof.
  intros fuel urls Hfuel. unfold main.
  destruct (main_loop_total E fuel urls [] {| visited := ∅; trace := [] |} Hfuel)
    as [[w' rs] Hm].
  exists w', rs. split; [exact Hm|].
  destruct (main_loop_events E _ _ _ _ _ _ Hm) as (evs & Ht & Hs).
  simpl in Ht. rewrite app_nil_r in Ht. subst evs.
  pose proof (seeds_events_confined _ _ Hs) as Hc.
  rewrite Forall_forall in Hc. split.
  - intros path data Hin. specialize (Hc _ Hin). simpl in Hc.
    destruct Hc as [(name & Hn & ->)|[(name & Hn & ->)|(name & Hn & ->)]];
      eexists _, name; (split; [|split; [exact Hn|reflexivity]]); set_solver.
  - intros path data Hin. exact (Hc _ Hin).
Qed.

(** X7: the depth and link limits bound a run.  With more fuel than the
    depth limit [main] returns.  A seed starts at most
    [1 + 20 + 20 * 20 = 421] tasks, so a run over [n] seeds starts at
    most [421 n]; the run makes at most three requests for each task it
    starts; and [main] collects at most one result for each seed. *)
Theorem main_crawl_is_bounded :
  forall (fuel : nat) (urls : list string),
    (MAX_CRAWL_DEPTH < fuel)%nat ->
    exists w' rs,
      main E fuel urls = Some (w', rs)
      /\ crawl_bound MAX_CRAWL_DEPTH = 421%nat
      /\ (length (tasks (trace w')) <= length urls * crawl_bound MAX_CRAWL_DEPTH)%nat
      /\ (length (gets (trace w')) <= REQUEST_RETRIES * length (tasks (trace w')))%nat
      /\ (length rs <= length urls)%nat.
Proof.
  intros fuel urls Hfuel. unfold main.
  destruct (main_loop_total E fuel urls [] {| visited := ∅; trace := [] |} Hfuel)
    as [[w' rs] Hm].
  exists w', rs. split; [exact Hm|]. split; [reflexivity|].
  destruct (main_loop_events E _ _ _ _ _ _ Hm) as (evs & Ht & Hs).
  simpl in Ht. rewrite app_nil_r in Ht. subst evs.
  destruct (seeds_events_size _ _ Hs) as [H1 H2].
  split; [exact H1|]. split; [exact H2|].
  destruct (main_loop_results E _ _ _ _ _ _ Hm) as (_ & new & -> & Hsub & _).
  apply sublist_length in Hsub. rewrite !length_fmap in Hsub. exact Hsub.
Qed.

(** X8: the results of [main] follow the seeds.  Their source URLs are
    seeds, in the order of the seed list, none twice: a seed listed twice,
    or reached as a link below an earlier seed, gives no result of its
    own.  The first seed always gives the first result. *)
Theorem main_results_follow_seeds :
  forall (fuel : nat) (urls : list string),
    (MAX_CRAWL_DEPTH < fuel)%nat ->
    exists w' rs,
      main E fuel urls = Some (w', rs)
      /\ sublist (source_of <$> rs) (PStr <$> urls)
      /\ NoDup (source_of <$> rs)
      /\ match urls with
         | u :: _ => exists r rs', rs = r :: rs' /\ source_of r = PStr u
         | [] => rs = []
         end.
Proof.
  intros fuel urls Hfuel. unfold main.
  destruct (main_loop_total E fuel urls [] {| visited := ∅; trace := [] |} Hfuel)
    as [[w' rs] Hm].
  exists w', rs. split; [exact Hm|].
  destruct (main_loop_results E _ _ _ _ _ _ Hm) as (_ & new & -> & Hsub & _ & Hnd & Hhd).
  split; [exact Hsub|]. split; [exact Hnd|].
  destruct urls as [|u urls]; [exact Hhd|]. apply Hhd. set_solver.
Qed.

End CrawlExtras.

Lemma main_pauses_between_requests_witness :
  (Scraper.MAX_CRAWL_DEPTH < 3)%nat
  /\ exists w' rs,
       Scraper.main (Demo.static Demo.site) 3 ["https://example.com/a"] = Some (w', rs)
       /\ forall newer u i older,
            Scraper.trace w' = newer ++ Env.EvGet u i :: older ->
            (forall u' j, Env.EvGet u' j ∉ older)
            \/ exists between ms before,
                 older = between ++ Env.EvSleep ms :: before
                 /\ Scraper.SLEEP_BETWEEN_REQUESTS <= ms
                 /\ forall u' j, Env.EvGet u' j ∉ between.
Proof.
  split; [unfold Scraper.MAX_CRAWL_DEPTH; lia|].
  apply (main_pauses_between_requests (Demo.static Demo.site) 3 ["https://example.com/a"]).
  unfold Scraper.MAX_CRAWL_DEPTH. lia.
Defined.

Lemma main_skips_binary_links_witness :
  (Scraper.MAX_CRAWL_DEPTH < 3)%nat
  /\ exists w' rs,
       Scraper.main (Demo.static Demo.site) 3 ["https://example.com/a"] = Some (w', rs)
       /\ forall d u, Env.EvInfo d u ∈ Scraper.trace w' ->
            (d = 0%nat /\ u ∈ ["https://example.com/a"])
            \/ ((0 < d)%nat
                /\ forall ext, ext ∈ Scraper.BINARY_EXTENSIONS ->
                     Str.endswith ext (Str.lower u) = false).
Proof.
  split; [unfold Scraper.MAX_CRAWL_DEPTH; lia|].
  apply (main_skips_binary_links (Demo.static Demo.site) 3 ["https://example.com/a"]).
  unfold Scraper.MAX_CRAWL_DEPTH. lia.
Defined.

Lemma main_writes_are_confined_witness :
  (Scraper.MAX_CRAWL_DEPTH < 3)%nat
  /\ exists w' rs,
       Scraper.main (Demo.static Demo.site) 3 ["https://example.com/a"] = Some (w', rs)
       /\ (forall path data, Env.EvWrite path data ∈ Scraper.trace w' ->
             exists dir name,
               dir ∈ [Scraper.DOWNLOAD_DIR; Scraper.EXTRACT_DIR; Scraper.JSON_OUT_DIR]
               /\ Str.mem "/" name = false
               /\ path = dir +:+ "/" +:+ name)
       /\ (forall path data, Env.EvAppend path data ∈ Scraper.trace w' ->
             path = Scraper.COMBINED_JSONL).
Proof.
  split; [unfold Scraper.MAX_CRAWL_DEPTH; lia|].
  apply (main_writes_are_confined (Demo.static Demo.site) 3 ["https://example.com/a"]).
  unfold Scraper.MAX_CRAWL_DEPTH. lia.
Defined.

Lemma main_crawl_is_bounded_witness :
  (Scraper.MAX_CRAWL_DEPTH < 3)%nat
  /\ exists w' rs,
       Scraper.main (Demo.static Demo.site) 3 ["https://example.com/a"] = Some (w', rs)
       /\ crawl_bound Scraper.MAX_CRAWL_DEPTH = 421%nat
       /\ (length (tasks (Scraper.trace w'))
           <= length ["https://example.com/a"] * crawl_bound Scraper.MAX_CRAWL_DEPTH)%nat
       /\ (length (gets (Scraper.trace w'))
           <= Scraper.REQUEST_RETRIES * length (tasks (Scraper.trace w')))%nat
       /\ (length rs <= length ["https://example.com/a"])%nat.
Proof.
  split; [unfold Scraper.MAX_CRAWL_DEPTH; lia|].
  apply (main_crawl_is_bounded (Demo.static Demo.site) 3 ["https://example.com/a"]).
  unfold Scraper.MAX_CRAWL_DEPTH. lia.
Defined.

Lemma main_results_follow_seeds_witness :
  (Scraper.MAX_CRAWL_DEPTH < 3)%nat
  /\ exists w' rs,
       Scraper.main (Demo.static Demo.site) 3
         ["https://example.com/a"; "https://example.com/b"] = Some (w', rs)
       /\ sublist (source_of <$> rs)
            (Json.PStr <$> ["https://example.com/a"; "https://example.com/b"])
       /\ NoDup (source_of <$> rs)
       /\ exists r rs', rs = r :: rs' /\ source_of r = Json.PStr "https://example.com/a".
Proof.
  split; [unfold Scraper.MAX_CRAWL_DEPTH; lia|].
  apply (main_results_follow_seeds (Demo.static Demo.site) 3
           ["https://example.com/a"; "https://example.com/b"]).
  unfold Scraper.MAX_CRAWL_DEPTH. lia.
Defined.

(** ** File names, rewrites and links (scraper.py) *)

Section UrlNames.

Import Env Json Scraper Str StrFacts StrMore.

Variable E : env.

Lemma with_ext_long ext fname :
  (String.length ext <= String.length (with_ext ext fname))%nat.
Proof.
  unfold with_ext. destruct (endswith ext (lower fname)) eqn:H.
  - assert (Hlen : forall s, String.length (lower s) = String.length s).
    { induction s as [|c s IH]; simpl; [reflexivity|]. rewrite IH. reflexivity. }
    assert (Hend : forall suf s, endswith suf s = true ->
                     (String.length suf <= String.length s)%nat).
    { intros suf s. induction s as [|c s IH]; cbn [endswith].
      - rewrite orb_false_r. intros ->%String.eqb_eq. lia.
      - intros [->%String.eqb_eq|Hs]%orb_prop; [lia|]. specialize (IH Hs). simpl. lia. }
    rewrite <- (Hlen fname). apply Hend, H.
  - rewrite length_append. lia.
Qed.

(** X9: [make_filename_from_url] gives a name of at most 200
    characters, all of them ASCII letters, digits, dots, underscores or
    hyphens; so the name holds no slash, no white space and no NUL, and
    with the [.pdf] or [.html] ending that [process_url] gives it, it is
    a non-empty path component other than [.] and [..]. *)
Theorem make_filename_from_url_safe :
  forall url : string,
    let name := make_filename_from_url E url in
    all is_name_char name = true
    /\ (String.length name <= 200)%nat
    /\ mem "/" name = false
    /\ all (fun c => negb (isspace c)) name = true
    /\ forall ext, ext = ".pdf" \/ ext = ".html" ->
         path_component (with_ext ext name)
         /\ with_ext ext name <> "." /\ with_ext ext name <> "..".
Proof.
  intros url name.
  pose proof (make_filename_from_url_chars E url) as Hall. fold name in Hall.
  split; [exact Hall|]. split; [|split; [|split]].
  - unfold name, make_filename_from_url.
    match goal with |- context [if ?b then _ else _] => destruct b eqn:Hb end.
    + apply length_take.
    + apply Nat.ltb_ge in Hb. exact Hb.
  - apply name_chars_no_slash, Hall.
  - apply (all_impl is_name_char); [|exact Hall].
    intros c. destruct c as [[] [] [] [] [] [] [] []]; vm_compute; congruence.
  - intros ext Hext.
    assert (Hchars : all is_name_char (with_ext ext name) = true).
    { unfold with_ext. destruct (endswith ext (lower name)); [exact Hall|].
      rewrite all_append, Hall. destruct Hext as [->| ->]; reflexivity. }
    assert (Hlen : (4 <= String.length (with_ext ext name))%nat).
    { pose proof (with_ext_long ext name). destruct Hext as [->| ->]; simpl in *; lia. }
    split; [split; [|split]|split].
    + intros Heq. rewrite Heq in Hlen. simpl in Hlen. lia.
    + apply name_chars_no_slash, Hchars.
    + apply (all_not_mem _ _ _ Hchars). reflexivity.
    + intros Heq. rewrite Heq in Hlen. simpl in Hlen. lia.
    + intros Heq. rewrite Heq in Hlen. simpl in Hlen. lia.
Qed.

(** *** The rewrite of GitHub blob views *)

Lemma drop_prefix_app p s : drop_prefix p (p +:+ s) = Some s.
Proof.
  induction p as [|c p IH]; [reflexivity|].
  change (String c p +:+ s) with (String c (p +:+ s)). cbn [drop_prefix].
  rewrite Ascii.eqb_refl. exact IH.
Qed.

Lemma before_char_app c seg rest :
  mem c seg = false -> before_char c (seg +:+ String c rest) = seg.
Proof.
  induction seg as [|d seg IH]; intros H.
  - change (EmptyString +:+ String c rest) with (String c rest).
    cbn [before_char]. rewrite Ascii.eqb_refl. reflexivity.
  - change (String d seg +:+ String c rest) with (String d (seg +:+ String c rest)).
    cbn [before_char mem] in *. apply orb_false_elim in H as [Hd Hs].
    rewrite Ascii.eqb_sym in Hd. rewrite Hd, (IH Hs). reflexivity.
Qed.

Lemma before_char_none c s : mem c s = false -> before_char c s = s.
Proof.
  induction s as [|d s IH]; [reflexivity|]. cbn [before_char mem].
  intros [Hd Hs]%orb_false_elim. rewrite Ascii.eqb_sym in Hd. rewrite Hd, (IH Hs). reflexivity.
Qed.

Lemma segment_app seg rest :
  seg <> EmptyString -> mem "/" seg = false ->
  segment (seg +:+ "/" +:+ rest) = Some (seg, rest).
Proof.
  intros Hne Hs. unfold segment.
  change ("/" +:+ rest) with (String "/" rest).
  rewrite (before_char_app "/" seg rest Hs).
  destruct seg as [|c seg]; [contradiction|].
  replace (String c seg +:+ String "/" rest) with ((String c seg +:+ "/") +:+ rest)
    by apply append_assoc.
  rewrite drop_prefix_app. reflexivity.
Qed.

Lemma rest_of_line_plain p : mem (ascii_of_N 10) p = false -> rest_of_line p = Some p.
Proof.
  intros H. unfold rest_of_line. rewrite (before_char_none _ _ H), String.eqb_refl. reflexivity.
Qed.

Lemma contains_prefix sub s : contains sub (sub +:+ s) = true.
Proof.
  assert (H : String.prefix sub (sub +:+ s) = true).
  { induction sub as [|c sub IH]; [destruct s; reflexivity|].
    change (String c sub +:+ s) with (String c (sub +:+ s)). cbn [String.prefix].
    destruct (ascii_dec c c) as [_|Hne]; [exact IH|contradiction]. }
  destruct (sub +:+ s); cbn [contains]; rewrite H; reflexivity.
Qed.

Lemma contains_app_r sub a s : contains sub s = true -> contains sub (a +:+ s) = true.
Proof.
  intros H. induction a as [|c a IH]; [exact H|].
  change (String c a +:+ s) with (String c (a +:+ s)). cbn [contains].
  rewrite IH. apply orb_true_r.
Qed.

Lemma blob_groups_tail (secure : bool) (tail : string) :
  blob_groups ((if secure then "https" else "http") +:+ "://github.com/" +:+ tail)
  = ('(user, r5) ← segment tail;
     '(repo, r6) ← segment r5;
     r7 ← drop_prefix "blob/" r6;
     '(branch, r8) ← segment r7;
     path ← rest_of_line r8;
     Some (user, repo, branch, path)).
Proof. destruct secure; reflexivity. Qed.

Lemma blob_groups_canonical (secure : bool) (user repo branch path : string) :
  user <> EmptyString -> mem "/" user = false ->
  repo <> EmptyString -> mem "/" repo = false ->
  branch <> EmptyString -> mem "/" branch = false ->
  mem (ascii_of_N 10) path = false ->
  blob_groups ((if secure then "https" else "http") +:+ "://github.com/" +:+ user +:+ "/"
                 +:+ repo +:+ "/blob/" +:+ branch +:+ "/" +:+ path)
  = Some (user, repo, branch, path).
Proof.
  intros Hu1 Hu2 Hr1 Hr2 Hb1 Hb2 Hp. rewrite blob_groups_tail.
  rewrite (segment_app user _ Hu1 Hu2). cbn [mbind option_bind].
  change ("/blob/" +:+ branch +:+ "/" +:+ path)
    with ("/" +:+ "blob/" +:+ branch +:+ "/" +:+ path).
  rewrite (segment_app repo _ Hr1 Hr2). cbn [mbind option_bind].
  rewrite drop_prefix_app. cbn [mbind option_bind].
  rewrite (segment_app branch _ Hb1 Hb2). cbn [mbind option_bind].
  rewrite (rest_of_line_plain _ Hp). reflexivity.
Qed.

Lemma blob_groups_raw (user repo branch path : string) :
  blob_groups ("https://raw.githubusercontent.com/" +:+ user +:+ "/" +:+ repo +:+ "/"
                 +:+ branch +:+ "/" +:+ path) = None.
Proof. reflexivity. Qed.

(** X10: a blob view of a file on GitHub, over [http] or [https], is
    rewritten to the raw address of the file, over [https]: user,
    repository and branch are the first three segments of the path (each
    non-empty, without slash), and the rest of the URL (no newline in it)
    is the path of the file.  [process_url] requests that address. *)
Theorem github_blob_to_raw_canonical :
  forall (secure : bool) (user repo branch path : string),
    user <> EmptyString -> mem "/" user = false ->
    repo <> EmptyString -> mem "/" repo = false ->
    branch <> EmptyString -> mem "/" branch = false ->
    mem (ascii_of_N 10) path = false ->
    let url := (if secure then "https" else "http") +:+ "://github.com/" +:+ user +:+ "/"
                 +:+ repo +:+ "/blob/" +:+ branch +:+ "/" +:+ path in
    let raw := "https://raw.githubusercontent.com/" +:+ user +:+ "/" +:+ repo +:+ "/"
                 +:+ branch +:+ "/" +:+ path in
    github_blob_to_raw url = raw /\ request_url url = raw.
Proof.
  intros secure user repo branch path Hu1 Hu2 Hr1 Hr2 Hb1 Hb2 Hp url raw.
  assert (Hraw : github_blob_to_raw url = raw).
  { unfold github_blob_to_raw, url.
    rewrite (blob_groups_canonical secure user repo branch path) by assumption.
    reflexivity. }
  split; [exact Hraw|]. unfold request_url.
  assert (H1 : contains "github.com" url = true).
  { unfold url. destruct secure.
    - apply (contains_app_r "github.com" "https://" ("github.com/" +:+ _)).
      apply (contains_prefix "github.com").
    - apply (contains_app_r "github.com" "http://" ("github.com/" +:+ _)).
      apply (contains_prefix "github.com"). }
  assert (H2 : contains "/blob/" url = true).
  { unfold url.
    apply (contains_app_r "/blob/" (if secure then "https" else "http")).
    apply (contains_app_r "/blob/" "://github.com/").
    apply (contains_app_r "/blob/" user).
    apply (contains_app_r "/blob/" "/").
    apply (contains_app_r "/blob/" repo).
    apply (contains_prefix "/blob/"). }
  rewrite H1, H2. exact Hraw.
Qed.

(** X11: the rewrite is applied once: the address it gives is not
    rewritten again, by [github_blob_to_raw] or by the test in
    [process_url]; a URL that the pattern does not match is left as it
    is. *)
Theorem github_blob_to_raw_idempotent :
  forall url : string,
    github_blob_to_raw (github_blob_to_raw url) = github_blob_to_raw url
    /\ request_url (request_url url) = request_url url
    /\ (blob_groups url = None -> github_blob_to_raw url = url /\ request_url url = url).
Proof.
  intros url.
  assert (Hraw : github_blob_to_raw (github_blob_to_raw url) = github_blob_to_raw url).
  { unfold github_blob_to_raw at 2 3.
    destruct (blob_groups url) as [[[[user repo] branch] path]|] eqn:Hg.
    - unfold github_blob_to_raw. rewrite blob_groups_raw. reflexivity.
    - unfold github_blob_to_raw. rewrite Hg. reflexivity. }
  assert (Hnone : blob_groups url = None -> github_blob_to_raw url = url).
  { intros Hg. unfold github_blob_to_raw. rewrite Hg. reflexivity. }
  split; [exact Hraw|]. split.
  - unfold request_url at 2 3.
    destruct (contains "github.com" url && contains "/blob/" url) eqn:Hguard.
    + unfold request_url.
      destruct (contains "github.com" (github_blob_to_raw url)
                && contains "/blob/" (github_blob_to_raw url)); [exact Hraw|reflexivity].
    + unfold request_url. rewrite Hguard. reflexivity.
  - intros Hg. split; [exact (Hnone Hg)|].
    unfold request_url. rewrite (Hnone Hg).
    destruct (contains "github.com" url && contains "/blob/" url); reflexivity.
Qed.

End UrlNames.

Lemma github_blob_to_raw_canonical_witness :
  "u" <> EmptyString /\ Str.mem "/" "u" = false
  /\ "r" <> EmptyString /\ Str.mem "/" "r" = false
  /\ "main" <> EmptyString /\ Str.mem "/" "main" = false
  /\ Str.mem (ascii_of_N 10) "docs/nda.txt" = false
  /\ Scraper.github_blob_to_raw "http://github.com/u/r/blob/main/docs/nda.txt"
     = "https://raw.githubusercontent.com/u/r/main/docs/nda.txt"
  /\ Scraper.request_url "http://github.com/u/r/blob/main/docs/nda.txt"
     = "https://raw.githubusercontent.com/u/r/main/docs/nda.txt".
Proof.
  repeat (split; [first [discriminate|reflexivity]|]).
  apply (github_blob_to_raw_canonical false "u" "r" "main" "docs/nda.txt");
    first [discriminate|reflexivity].
Defined.

(** ** Links and text of a page (scraper.py) *)

Section PageLinks.

Import Env Json Scraper.

Variable E : env.

Lemma dedup_app (seen : gset string) (l1 l2 : list string) :
  dedup seen (l1 ++ l2) = dedup seen l1 ++ dedup (list_to_set l1 ∪ seen) l2.
Proof.
  revert seen. induction l1 as [|u l1 IH]; intros seen.
  - simpl. replace (∅ ∪ seen) with seen by set_solver. reflexivity.
  - cbn [app dedup]. destruct (bool_decide (u ∈ seen)) eqn:Hu.
    + apply bool_decide_eq_true in Hu. rewrite IH.
      replace (list_to_set (u :: l1) ∪ seen) with (list_to_set l1 ∪ seen : gset string)
        by set_solver.
      reflexivity.
    + rewrite IH.
      replace (list_to_set (u :: l1) ∪ seen)
        with (list_to_set l1 ∪ ({[u]} ∪ seen) : gset string) by set_solver.
      reflexivity.
Qed.

Lemma omap_filter_map {A B} (drop : A -> bool) (f : A -> B) (l : list A) :
  omap (fun a => if drop a then None else Some (f a)) l
  = List.map f (List.filter (fun a => negb (drop a)) l).
Proof.
  induction l as [|a l IH]; [reflexivity|]. cbn [omap list_omap List.filter].
  fold (omap (fun a => if drop a then None else Some (f a)) l).
  destruct (drop a); simpl; rewrite IH; reflexivity.
Qed.

(** X12: [discover_links] returns each link once, in the order of the
    first anchor that gives it.  A URL is in the result exactly when some
    anchor with an [href] gives it: the [href], stripped, starts neither
    with [#] nor, whatever its case, with [javascript:], and the URL is
    that [href] joined to the base.  The result is the list of these
    URLs in document order with the later repetitions left out; what a
    longer page adds comes after. *)
Theorem discover_links_spec :
  forall (html base_url : string),
    let href := fun a => Str.strip (default EmptyString (Soup.attr "href" a)) in
    let kept := fun a =>
      negb (Str.startswith "#" (href a)
            || Str.startswith "javascript:" (Str.lower (href a))) in
    let found :=
      List.map (fun a => urljoin E base_url (href a))
        (List.filter kept (Soup.links (parse_html E html))) in
    NoDup (discover_links E html base_url)
    /\ (forall u, u ∈ discover_links E html base_url <->
          exists a, a ∈ Soup.links (parse_html E html) /\ kept a = true
                    /\ u = urljoin E base_url (href a))
    /\ discover_links E html base_url = dedup ∅ found
    /\ sublist (discover_links E html base_url) found
    /\ forall l1 l2 : list string, dedup ∅ l1 `prefix_of` dedup ∅ (l1 ++ l2).
Proof.
  intros html base_url href kept found.
  assert (Heq : discover_links E html base_url = dedup ∅ found).
  { unfold discover_links, found.
    rewrite <- (omap_filter_map
                  (fun a => Str.startswith "#" (href a)
                            || Str.startswith "javascript:" (Str.lower (href a)))
                  (fun a => urljoin E base_url (href a))).
    reflexivity. }
  destruct (dedup_spec ∅ found) as (Hnd & Hin & Hsub).
  rewrite Heq. split; [exact Hnd|]. split; [|split; [reflexivity|split; [exact Hsub|]]].
  - intros u. rewrite Hin. unfold found. split.
    + intros [Hu _]. apply list_elem_of_In, in_map_iff in Hu as (a & <- & Ha).
      apply filter_In in Ha as [Ha Hk]. exists a.
      split; [apply list_elem_of_In, Ha|]. split; [exact Hk|reflexivity].
    + intros (a & Ha & Hk & ->). split; [|set_solver].
      apply list_elem_of_In, in_map_iff. exists a. split; [reflexivity|].
      apply filter_In. split; [apply list_elem_of_In, Ha|exact Hk].
  - intros l1 l2. rewrite dedup_app. eexists. reflexivity.
Qed.

End PageLinks.

Section PageText.

Import Env Json Scraper.

(** Induction on a parse tree: the children of an element come with
    the property. *)
Lemma node_induction (P : Soup.node -> Prop) :
  (forall s, P (Soup.Text s)) ->
  (forall name attrs children, Forall P children -> P (Soup.Elem name attrs children)) ->
  forall n, P n.
Proof.
  intros Htext Helem.
  fix IH 1. intros [s|name attrs children]; [apply Htext|].
  apply Helem. induction children as [|c children IHc]; constructor; [apply IH|exact IHc].
Qed.

Lemma elem_of_flat_map {A B} (f : A -> list B) (l : list A) (y : B) :
  y ∈ List.flat_map f l <-> exists x, x ∈ l /\ y ∈ f x.
Proof.
  rewrite list_elem_of_In, in_flat_map. split.
  - intros (x & Hx & Hy). exists x. split; apply list_elem_of_In; assumption.
  - intros (x & Hx & Hy). exists x. split; apply list_elem_of_In; assumption.
Qed.

Lemma elem_of_filter_map {A B} (keep : B -> bool) (f : A -> B) (l : list A) (y : B) :
  y ∈ List.filter keep (List.map f l) <-> keep y = true /\ exists x, x ∈ l /\ y = f x.
Proof.
  rewrite list_elem_of_In, filter_In, in_map_iff. split.
  - intros [(x & <- & Hx) Hk]. split; [exact Hk|]. exists x.
    split; [apply list_elem_of_In, Hx|reflexivity].
  - intros [Hk (x & Hx & ->)]. split; [|exact Hk]. exists x.
    split; [reflexivity|apply list_elem_of_In, Hx].
Qed.

(** After pruning, only the root can bear one of the names. *)
Lemma prune_elems (names : list string) (n m : Soup.node) :
  m ∈ Soup.elems (Soup.prune names n) ->
  m = Soup.prune names n \/ Soup.named names m = false.
Proof.
  revert m. induction n as [s|name attrs children IH] using node_induction; intros m Hm.
  - inversion Hm.
  - cbn [Soup.prune Soup.elems] in Hm. apply elem_of_cons in Hm as [Hm|Hm]; [auto|].
    right. apply elem_of_flat_map in Hm as (c' & Hc' & Hm).
    apply elem_of_filter_map in Hc' as [Hk (c & Hc & ->)].
    rewrite Forall_forall in IH.
    destruct (IH c Hc m Hm) as [->|Hn]; [|exact Hn].
    apply negb_true_iff, Hk.
Qed.

Lemma decompose_clean (names : list string) (doc : list Soup.node) (m : Soup.node) :
  m ∈ Soup.descendants (Soup.decompose names doc) -> Soup.named names m = false.
Proof.
  unfold Soup.descendants, Soup.decompose. intros Hm.
  apply elem_of_flat_map in Hm as (c' & Hc' & Hm).
  apply elem_of_filter_map in Hc' as [Hk (c & Hc & ->)].
  destruct (prune_elems names c m Hm) as [->|Hn]; [|exact Hn].
  apply negb_true_iff, Hk.
Qed.

Lemma pruned_strings (names : list string) (children : list Soup.node) :
  Forall (fun c => sublist (Soup.strings (Soup.prune names c)) (Soup.strings c)) children ->
  sublist
    (List.flat_map Soup.strings
       (List.filter (fun c => negb (Soup.named names c)) (List.map (Soup.prune names) children)))
    (List.flat_map Soup.strings children).
Proof.
  induction 1 as [|c children Hc _ IH]; [constructor|].
  cbn [List.map List.filter List.flat_map].
  destruct (negb (Soup.named names (Soup.prune names c))).
  - cbn [List.flat_map]. apply sublist_app; assumption.
  - apply sublist_inserts_l, IH.
Qed.

Lemma prune_strings (names : list string) (n : Soup.node) :
  sublist (Soup.strings (Soup.prune names n)) (Soup.strings n).
Proof.
  induction n as [s|name attrs children IH] using node_induction; [reflexivity|].
  cbn [Soup.prune Soup.strings]. apply pruned_strings, IH.
Qed.

Lemma decompose_strings (names : list string) (doc : list Soup.node) :
  sublist (List.flat_map Soup.strings (Soup.decompose names doc))
    (List.flat_map Soup.strings doc).
Proof.
  apply pruned_strings, Forall_forall. intros c _. apply prune_strings.
Qed.

Lemma filter_all {A} (keep : A -> bool) (l : list A) :
  (forall x, x ∈ l -> keep x = true) -> List.filter keep l = l.
Proof.
  induction l as [|a l IH]; intros H; [reflexivity|]. cbn [List.filter].
  rewrite (H a) by (apply elem_of_cons; auto). f_equal. apply IH.
  intros x Hx. apply H, elem_of_cons. auto.
Qed.

Lemma unnamed_child (names : list string) (children : list Soup.node) (c : Soup.node) :
  existsb (String.eqb EmptyString) names = false ->
  (forall m, m ∈ List.flat_map Soup.elems children -> Soup.named names m = false) ->
  c ∈ children ->
  Soup.named names c = false
  /\ forall m, m ∈ Soup.elems c -> Soup.named names m = false.
Proof.
  intros Hempty H Hc.
  assert (Hsub : forall m, m ∈ Soup.elems c -> Soup.named names m = false).
  { intros m Hm. apply H, elem_of_flat_map. eauto. }
  split; [|exact Hsub]. destruct c as [s|name attrs cs]; [exact Hempty|].
  apply Hsub. cbn [Soup.elems]. apply elem_of_cons. auto.
Qed.

Lemma pruned_id (names : list string) (children : list Soup.node) :
  existsb (String.eqb EmptyString) names = false ->
  Forall (fun c => (forall m, m ∈ Soup.elems c -> Soup.named names m = false) ->
                   Soup.prune names c = c) children ->
  (forall m, m ∈ List.flat_map Soup.elems children -> Soup.named names m = false) ->
  List.filter (fun c => negb (Soup.named names c)) (List.map (Soup.prune names) children)
  = children.
Proof.
  intros Hempty IH H. rewrite Forall_forall in IH.
  assert (Hmap : List.map (Soup.prune names) children = children).
  { rewrite <- (map_id children) at 2. apply map_ext_in. intros c Hc%list_elem_of_In.
    apply (IH c Hc). exact (proj2 (unnamed_child names children c Hempty H Hc)). }
  rewrite Hmap. apply filter_all. intros c Hc. apply negb_true_iff.
  exact (proj1 (unnamed_child names children c Hempty H Hc)).
Qed.

Lemma prune_id (names : list string) (n : Soup.node) :
  existsb (String.eqb EmptyString) names = false ->
  (forall m, m ∈ Soup.elems n -> Soup.named names m = false) ->
  Soup.prune names n = n.
Proof.
  intros Hempty.
  induction n as [s|name attrs children IH] using node_induction; intros H; [reflexivity|].
  cbn [Soup.prune]. f_equal. apply (pruned_id names children Hempty IH).
  intros m Hm. apply H. cbn [Soup.elems]. apply elem_of_cons. auto.
Qed.

Lemma decompose_id (names : list string) (doc : list Soup.node) :
  existsb (String.eqb EmptyString) names = false ->
  (forall m, m ∈ Soup.descendants doc -> Soup.named names m = false) ->
  Soup.decompose names doc = doc.
Proof.
  intros Hempty H. apply (pruned_id names doc Hempty); [|exact H].
  apply Forall_forall. intros c _. apply prune_id, Hempty.
Qed.

Lemma strip_idempotent (s : string) : Str.strip (Str.strip s) = Str.strip s.
Proof.
  destruct (Str.strip s) eqn:Hs; [reflexivity|]. rewrite <- Hs.
  destruct (strip_clean s) as [H1 H2]; [rewrite Hs; discriminate|].
  apply strip_of_clean; assumption.
Qed.

Variable E : env.

(** X13: [extract_text_from_html] works on the parse tree without its
    [script], [style] and [noscript] elements: no such element is left at
    any depth, the text nodes that remain are text nodes of the page in
    their order, and a page without such elements is left as it is.  The
    full text is the text of that tree, and both texts are returned
    stripped: stripping them again changes nothing. *)
Theorem extract_text_from_html_clean :
  forall html : string,
    let hidden := ["script"; "style"; "noscript"] in
    let soup := Soup.decompose hidden (parse_html E html) in
    (forall m, m ∈ Soup.descendants soup -> Soup.named hidden m = false)
    /\ Soup.find_all hidden None soup = []
    /\ sublist (List.flat_map Soup.strings soup)
         (List.flat_map Soup.strings (parse_html E html))
    /\ ((forall m, m ∈ Soup.descendants (parse_html E html) -> Soup.named hidden m = false) ->
        soup = parse_html E html)
    /\ fst (extract_text_from_html E html) = Str.strip (Soup.doc_text EmptyString soup)
    /\ Str.strip (fst (extract_text_from_html E html)) = fst (extract_text_from_html E html)
    /\ Str.strip (snd (extract_text_from_html E html)) = snd (extract_text_from_html E html).
Proof.
  intros html hidden soup.
  assert (Hclean : forall m, m ∈ Soup.descendants soup -> Soup.named hidden m = false)
    by (intros m; apply decompose_clean).
  split; [exact Hclean|]. split; [|split; [apply decompose_strings|split; [|split; [|split]]]].
  - unfold Soup.find_all.
    destruct (List.filter (Soup.named hidden) (Soup.descendants soup)) as [|m l] eqn:Hf;
      [reflexivity|].
    assert (Hm : In m (List.filter (Soup.named hidden) (Soup.descendants soup)))
      by (rewrite Hf; left; reflexivity).
    apply filter_In in Hm as [Hm Hn]. apply list_elem_of_In, Hclean in Hm. congruence.
  - intros H. apply decompose_id; [reflexivity|exact H].
  - reflexivity.
  - apply strip_idempotent.
  - apply strip_idempotent.
Qed.

End PageText.

(** ** What a task leaves on disk (scraper.py) *)

Section TaskFiles.

Import Env Json Scraper Str StrFacts StrMore.

Variable E : env.

Ltac dict_get := repeat (rewrite get_set_eq || rewrite get_set_ne by discriminate).

Lemma file_contents_write path data tr :
  file_contents path (EvWrite path data :: tr) = Some data.
Proof. simpl. rewrite String.eqb_refl. reflexivity. Qed.

Lemma file_contents_other path path' data tr :
  path' <> path -> file_contents path (EvWrite path' data :: tr) = file_contents path tr.
Proof.
  intros Hne. simpl. destruct (String.eqb path' path) eqn:Heq; [|reflexivity].
  apply String.eqb_eq in Heq. contradiction.
Qed.

Lemma inside_differ dir dir' name name' :
  dir +:+ "/" +:+ name = dir' +:+ "/" +:+ name' ->
  mem "/" dir = false -> mem "/" dir' = false -> dir = dir' /\ name = name'.
Proof.
  revert dir'. induction dir as [|c dir IH]; intros [|c' dir'] H Hd Hd'.
  - injection H as H. auto.
  - exfalso. change (String "/" name = String c' (dir' +:+ "/" +:+ name')) in H.
    injection H as <- _. discriminate.
  - exfalso. change (String c (dir +:+ "/" +:+ name) = String "/" name') in H.
    injection H as -> _. discriminate.
  - change (String c (dir +:+ "/" +:+ name) = String c' (dir' +:+ "/" +:+ name')) in H.
    injection H as -> H. cbn [mem] in Hd, Hd'.
    apply orb_false_elim in Hd as [_ Hd]. apply orb_false_elim in Hd' as [_ Hd'].
    destruct (IH dir' H Hd Hd') as [-> ->]. auto.
Qed.

Lemma json_path_not_log (name : string) :
  JSON_OUT_DIR +:+ "/" +:+ (name +:+ ".json") <> COMBINED_JSONL.
Proof.
  intros H. change COMBINED_JSONL with (JSON_OUT_DIR +:+ "/" +:+ "combined.jsonl") in H.
  apply inside_differ in H as [_ H]; [|reflexivity|reflexivity].
  pose proof (endswith_app_same ".json" name) as Hend. rewrite H in Hend. discriminate.
Qed.

(** X14: a task whose fetch succeeded is persisted, whatever happened
    after the fetch.  Its last three events are the write of its JSON
    file, the line it appends to the combined log, and the closing
    pause; the JSON file lies directly inside [json_output], is named
    after the final URL, and holds the indented dump of the very result
    that is returned (with the error, if the task raised); the combined
    log ends with the dump of that result. *)
Theorem process_url_persists_fetched :
  forall (fuel : nat) (url : string) (root_url : option string) (depth : nat)
         (w w' : world) (result : dict) (final : string),
    process_url E fuel url root_url depth w = Some (w', Some result) ->
    get "fetched_url" result = PStr final ->
    let json_path :=
      JSON_OUT_DIR +:+ "/" +:+ (make_filename_from_url E (or_else final (request_url url))
                                  +:+ ".json") in
    exists older,
      trace w'
      = EvSleep SLEEP_BETWEEN_REQUESTS :: EvAppend COMBINED_JSONL (dumps result)
          :: EvWrite json_path (dumps_indent2 result) :: older
      /\ file_contents json_path (trace w') = Some (dumps_indent2 result)
      /\ file_contents COMBINED_JSONL (trace w')
         = Some (default EmptyString (file_contents COMBINED_JSONL older) +:+ dumps result).
Proof.
  intros fuel url root_url depth w w' result final H Hfinal json_path.
  destruct fuel as [|fuel]; [discriminate|].
  cbn [process_url] in H. unfold process_url_body in H.
  destruct (bool_decide (url ∈ visited w)); [discriminate|].
  destruct (safe_get E (request_url url) (EvInfo depth url :: trace w)) as [tr [resp|]].
  2: { injection H as _ <-. discriminate. }
  match type of H with
  | match ?t with _ => _ end = _ => destruct t as [[[w2 result2] err]|]
  end; [|discriminate].
  destruct (handle (request_url url) err w2 result2) as [w4 result4].
  injection H as <- <-. cbn [trace]. unfold persist.
  assert (Hpath : path_join JSON_OUT_DIR
                    (make_filename_from_url E
                       (get_str_or "fetched_url" (request_url url) result4) +:+ ".json")
                  = json_path).
  { unfold get_str_or. rewrite Hfinal. unfold json_path.
    apply path_join_plain; [discriminate|reflexivity|].
    rewrite mem_append, (name_chars_no_slash _ (make_filename_from_url_chars E _)).
    reflexivity. }
  rewrite Hpath, append_empty_r. eexists. split; [reflexivity|].
  assert (Hne : String.eqb COMBINED_JSONL json_path = false).
  { apply String.eqb_neq. intros Heq. symmetry in Heq. revert Heq. apply json_path_not_log. }
  split.
  - cbn [file_contents]. rewrite Hne. apply file_contents_write.
  - cbn [file_contents]. rewrite String.eqb_refl.
    rewrite String.eqb_sym in Hne. rewrite Hne. reflexivity.
Qed.

Lemma persist_keeps (path url : string) (result : dict) (tr : list event) :
  inside DOWNLOAD_DIR path \/ inside EXTRACT_DIR path ->
  file_contents path (persist E url result tr) = file_contents path tr.
Proof.
  intros Hin. unfold persist.
  destruct (json_path_inside E (get_str_or "fetched_url" url result)) as (jname & _ & Hj).
  rewrite Hj. cbn [file_contents].
  assert (H1 : String.eqb COMBINED_JSONL path = false).
  { apply String.eqb_neq. intros Heq.
    change COMBINED_JSONL with (JSON_OUT_DIR +:+ "/" +:+ "combined.jsonl") in Heq.
    destruct Hin as [(name & _ & ->)|(name & _ & ->)];
      apply inside_differ in Heq as [Hbad _]; try reflexivity; discriminate. }
  assert (H2 : String.eqb (JSON_OUT_DIR +:+ "/" +:+ jname) path = false).
  { apply String.eqb_neq. intros Heq.
    destruct Hin as [(name & _ & ->)|(name & _ & ->)];
      apply inside_differ in Heq as [Hbad _]; try reflexivity; discriminate. }
  rewrite H1, H2. reflexivity.
Qed.

Lemma pdf_branch_files resp tr result tr' result' :
  pdf_branch E resp tr result = (tr', result', None) ->
  let fname := with_ext ".pdf" (make_filename_from_url E (resp_url resp)) in
  let local_path := DOWNLOAD_DIR +:+ "/" +:+ fname in
  let txt_path := EXTRACT_DIR +:+ "/" +:+ (fname +:+ ".txt") in
  let text := default EmptyString (pdf_extract E (resp_content resp)) in
  mem "/" fname = false
  /\ result' = set "full_text" (PStr text)
                 (set "full_text_path" (PStr txt_path)
                    (set "downloaded" (PBool true)
                       (set "local_path" (PStr local_path) result)))
  /\ file_contents local_path tr' = Some (resp_content resp)
  /\ file_contents txt_path tr' = Some text.
Proof.
  intros H. cbv zeta. unfold pdf_branch in H.
  destruct (stored_names E (resp_url resp) ".pdf" eq_refl) as (Hf & Hl & Hx).
  rewrite (Hx ".txt" eq_refl), Hl in H.
  set (fname := with_ext ".pdf" _) in *.
  set (local_path := DOWNLOAD_DIR +:+ "/" +:+ fname) in *.
  set (txt_path := EXTRACT_DIR +:+ "/" +:+ (fname +:+ ".txt")) in *.
  split; [exact Hf|].
  unfold write_file in H at 1.
  destruct (open_error E tr local_path); [discriminate|].
  unfold extract_text_from_pdf in H. rewrite file_contents_write in H.
  cbn [mbind option_bind] in H.
  assert (Hne : txt_path <> local_path).
  { intros Heq. apply inside_differ in Heq as [Hbad _]; [discriminate|reflexivity|reflexivity]. }
  destruct (pdf_extract E (resp_content resp)) as [t|] eqn:Hpdf; unfold write_file in H;
    match type of H with
    | context [open_error E ?tr0 txt_path] => destruct (open_error E tr0 txt_path)
    end; try discriminate; injection H as <- <-;
    (split; [reflexivity|]);
    rewrite file_contents_write, (file_contents_other _ _ _ _ Hne);
    cbn [file_contents]; rewrite ?String.eqb_refl; auto.
Qed.


End TaskFiles.

Lemma process_url_persists_fetched_witness :
  exists w' result,
    Scraper.process_url (Demo.static Demo.site) 1 "https://example.com/c" None 2
      {| Scraper.visited := ∅; Scraper.trace := [] |} = Some (w', Some result)
    /\ Json.get "fetched_url" result = Json.PStr "https://example.com/c"
    /\ let json_path :=
         Scraper.JSON_OUT_DIR +:+ "/"
           +:+ (Scraper.make_filename_from_url (Demo.static Demo.site)
                  (Str.or_else "https://example.com/c"
                     (Scraper.request_url "https://example.com/c")) +:+ ".json") in
       exists older,
         Scraper.trace w'
         = Env.EvSleep Scraper.SLEEP_BETWEEN_REQUESTS
             :: Env.EvAppend Scraper.COMBINED_JSONL (Json.dumps result)
             :: Env.EvWrite json_path (Json.dumps_indent2 result) :: older
         /\ Env.file_contents json_path (Scraper.trace w') = Some (Json.dumps_indent2 result)
         /\ Env.file_contents Scraper.COMBINED_JSONL (Scraper.trace w')
            = Some (default EmptyString (Env.file_contents Scraper.COMBINED_JSONL older)
                      +:+ Json.dumps result).
Proof.
  eexists _, _. split; [vm_compute; reflexivity|]. split; [reflexivity|].
  apply (process_url_persists_fetched (Demo.static Demo.site) 1 "https://example.com/c" None 2
           {| Scraper.visited := ∅; Scraper.trace := [] |});
    [vm_compute; reflexivity|reflexivity].
Defined.

Section TaskOutcome.

Import Env Json Scraper Str StrFacts StrMore.

Variable E : env.

Ltac dict_get := repeat (rewrite get_set_eq || rewrite get_set_ne by discriminate).

Lemma pdf_branch_writable resp tr result :
  let fname := with_ext ".pdf" (make_filename_from_url E (resp_url resp)) in
  let local_path := DOWNLOAD_DIR +:+ "/" +:+ fname in
  let txt_path := EXTRACT_DIR +:+ "/" +:+ (fname +:+ ".txt") in
  (forall tr', open_error E tr' local_path = None) ->
  (forall tr', open_error E tr' txt_path = None) ->
  exists tr2 result2, pdf_branch E resp tr result = (tr2, result2, None).
Proof.
  cbv zeta. intros W1 W2. unfold pdf_branch.
  destruct (stored_names E (resp_url resp) ".pdf" eq_refl) as (_ & Hl & Hx).
  rewrite (Hx ".txt" eq_refl), Hl.
  unfold write_file at 1. rewrite W1.
  destruct (extract_text_from_pdf E _ _) as [tr1 text].
  unfold write_file. rewrite W2. eauto.
Qed.


(** The state a task starts its [try] block in. *)
Lemma process_url_fetched fuel url root_url depth w tr resp :
  url ∉ visited w ->
  safe_get E (request_url url) (EvInfo depth url :: trace w) = (tr, Some resp) ->
  process_url E (S fuel) url root_url depth w
  = let vis := {[url]} ∪ visited w in
    let result0 :=
      set "content_type" (PStr (lower (default EmptyString (resp_content_type resp))))
        (set "fetched_url" (PStr (resp_url resp))
           (set "status_code" (PInt (resp_status resp)) (new_result url root_url))) in
    let tried : option (world * dict * option string) :=
      if is_pdf_response (Some resp) (request_url url) then
        let '(tr, result, err) := pdf_branch E resp tr result0 in
        Some ({| visited := vis; trace := tr |}, result, err)
      else
        match html_branch E resp tr result0 with
        | (tr, result, inl e) => Some ({| visited := vis; trace := tr |}, result, Some e)
        | (tr, result, inr links) =>
            let w := {| visited := vis; trace := tr |} in
            if FOLLOW_LINKS && (depth <? MAX_CRAWL_DEPTH)%nat then
              let root := get_str_or "root_url" EmptyString result in
              match follow_links E (fun link w => process_url E fuel link (Some root) (S depth) w)
                      root (firstn MAX_LINKS_PER_PAGE links) [] w with
              | None => None
              | Some (w, children) =>
                  Some (w, set "children_count" (PInt (Z.of_nat (length children))) result,
                        None)
              end
            else Some (w, result, None)
        end in
    match tried with
    | None => None
    | Some (w, result, err) =>
        let '(w, result) := handle (request_url url) err w result in
        Some ({| visited := visited w; trace := persist E (request_url url) result (trace w) |},
              Some result)
    end.
Proof.
  intros Hnew Hget. cbn [process_url]. unfold process_url_body.
  rewrite (bool_decide_eq_false_2 _ Hnew). cbv zeta. rewrite Hget. reflexivity.
Qed.

(** X15: a task whose response is classified as a PDF, and whose two
    files can be written, ends without error.  It stored the bytes of the
    response, unchanged, directly inside [downloads] under the sanitised
    name of the final URL with a [.pdf] ending, and the text directly
    inside [extracted] under that name with [.txt] added.  The text is
    what the PDF library extracts from those bytes, or empty when the
    library fails: a PDF that cannot be read is no error of the task.
    The result names both files and holds the same text. *)
Theorem process_url_pdf_files :
  forall (fuel : nat) (url : string) (root_url : option string) (depth : nat)
         (w : world) (tr : list event) (resp : response),
    url ∉ visited w ->
    safe_get E (request_url url) (EvInfo depth url :: trace w) = (tr, Some resp) ->
    is_pdf_response (Some resp) (request_url url) = true ->
    let fname := with_ext ".pdf" (make_filename_from_url E (resp_url resp)) in
    let local_path := DOWNLOAD_DIR +:+ "/" +:+ fname in
    let txt_path := EXTRACT_DIR +:+ "/" +:+ (fname +:+ ".txt") in
    let text := default EmptyString (pdf_extract E (resp_content resp)) in
    (forall tr', open_error E tr' local_path = None) ->
    (forall tr', open_error E tr' txt_path = None) ->
    exists w' result,
      process_url E (S fuel) url root_url depth w = Some (w', Some result)
      /\ get "error" result = PNone
      /\ get "fetched_url" result = PStr (resp_url resp)
      /\ mem "/" fname = false
      /\ get "local_path" result = PStr local_path
      /\ get "downloaded" result = PBool true
      /\ get "full_text_path" result = PStr txt_path
      /\ get "full_text" result = PStr text
      /\ get "article_text" result = PNone
      /\ file_contents local_path (trace w') = Some (resp_content resp)
      /\ file_contents txt_path (trace w') = Some text.
Proof.
  intros fuel url root_url depth w tr resp Hnew Hget Hpdf fname local_path txt_path text W1 W2.
  rewrite (process_url_fetched fuel url root_url depth w tr resp Hnew Hget).
  cbv zeta. rewrite Hpdf.
  set (result0 := set "content_type" _ _).
  destruct (pdf_branch_writable resp tr result0 W1 W2) as (tr2 & result2 & Hb).
  rewrite Hb. cbn [handle trace visited].
  eexists _, _. split; [reflexivity|]. cbn [trace].
  destruct (pdf_branch_files E _ _ _ _ _ Hb) as (Hf & -> & F1 & F2).
  fold fname local_path txt_path text in Hf, F1, F2 |- *.
  rewrite !persist_keeps, F1, F2.
  - subst result0. dict_get. repeat split; try reflexivity; assumption.
  - right. eexists. split; [|reflexivity]. rewrite mem_append, Hf. reflexivity.
  - left. eexists. split; [exact Hf|reflexivity].
Qed.



End TaskOutcome.

Lemma process_url_pdf_files_witness :
  let E := Demo.static Demo.papers in
  let url := "https://example.com/report.pdf" in
  let w := {| Scraper.visited := ∅; Scraper.trace := [] |} in
  exists tr resp,
    (url ∉ Scraper.visited w)
    /\ Scraper.safe_get E (Scraper.request_url url) (Env.EvInfo 0 url :: Scraper.trace w)
       = (tr, Some resp)
    /\ Scraper.is_pdf_response (Some resp) (Scraper.request_url url) = true
    /\ let fname := Scraper.with_ext ".pdf" (Scraper.make_filename_from_url E (Env.resp_url resp)) in
       let local_path := Scraper.DOWNLOAD_DIR +:+ "/" +:+ fname in
       let txt_path := Scraper.EXTRACT_DIR +:+ "/" +:+ (fname +:+ ".txt") in
       let text := default EmptyString (Env.pdf_extract E (Env.resp_content resp)) in
       (forall tr', Env.open_error E tr' local_path = None)
       /\ (forall tr', Env.open_error E tr' txt_path = None)
       /\ exists w' result,
            Scraper.process_url E 1 url None 0 w = Some (w', Some result)
            /\ Json.get "error" result = Json.PNone
            /\ Json.get "fetched_url" result = Json.PStr (Env.resp_url resp)
            /\ Str.mem "/" fname = false
            /\ Json.get "local_path" result = Json.PStr local_path
            /\ Json.get "downloaded" result = Json.PBool true
            /\ Json.get "full_text_path" result = Json.PStr txt_path
            /\ Json.get "full_text" result = Json.PStr text
            /\ Json.get "article_text" result = Json.PNone
            /\ Env.file_contents local_path (Scraper.trace w') = Some (Env.resp_content resp)
            /\ Env.file_contents txt_path (Scraper.trace w') = Some text.
Proof.
  intros E url w.
  pose (got := Scraper.safe_get E (Scraper.request_url url) (Env.EvInfo 0 url :: Scraper.trace w)).
  pose (tr := fst got).
  pose (resp := default Demo.not_modified (snd got)).
  assert (Hnew : url ∉ Scraper.visited w) by (apply not_elem_of_empty).
  assert (Hget : Scraper.safe_get E (Scraper.request_url url)
                   (Env.EvInfo 0 url :: Scraper.trace w) = (tr, Some resp))
    by (vm_compute; reflexivity).
  assert (Hpdf : Scraper.is_pdf_response (Some resp) (Scraper.request_url url) = true)
    by (vm_compute; reflexivity).
  exists tr, resp. split; [exact Hnew|]. split; [exact Hget|]. split; [exact Hpdf|].
  cbv zeta. split; [intros tr'; reflexivity|]. split; [intros tr'; reflexivity|].
  exact (process_url_pdf_files E 0 url None 0 w tr resp Hnew Hget Hpdf
           (fun _ => eq_refl) (fun _ => eq_refl)).
Defined.


(** ** HTML or binary (scrape.py), HTML always (scraper.py) *)

Section HtmlOrBinary.

Import Env Json.

Variable E : env.


End HtmlOrBinary.



(** ** File names and extensions (scrape.py, archive.py) *)

Section StoredNames.

Import Env Json Str StrFacts StrMore.

Lemma filter_id p s : all p s = true -> filter p s = s.
Proof.
  induction s as [|c s IH]; [reflexivity|]. cbn [all filter].
  intros [Hc Hs]%andb_prop. rewrite Hc, (IH Hs). reflexivity.
Qed.

Lemma filter_append p a b : filter p (a +:+ b) = filter p a +:+ filter p b.
Proof.
  induction a as [|c a IH]; [reflexivity|].
  change (String c a +:+ b) with (String c (a +:+ b)). cbn [filter].
  destruct (p c); rewrite IH; reflexivity.
Qed.

Lemma kept_no_space (s : string) :
  all (fun c => isalnum c || mem c "-_.+=") s = true ->
  all (fun c => negb (isspace c)) s = true.
Proof.
  apply all_impl. intros c. destruct c as [[] [] [] [] [] [] [] []]; vm_compute; congruence.
Qed.

Lemma strip_fixed (s : string) : strip s = s -> strip (or_else s "file") = or_else s "file".
Proof. intros H. destruct s; [reflexivity|exact H]. Qed.

Lemma scrape_safe_filename_filter (s : string) :
  Scrape.safe_filename s
  = or_else (filter (fun c => isalnum c || mem c "-_.+=") s) "file".
Proof.
  unfold Scrape.safe_filename. rewrite strip_id; [reflexivity|].
  apply kept_no_space, all_filter.
Qed.

(** X17: in scrape.py the filter of [safe_filename] leaves no white
    space, so its [strip] removes nothing: the name is the kept
    characters, or [file] when none is kept.  In archive.py, where the
    blank is kept, the name has no white space at either end.  Both are
    idempotent: a name that was made safe is left as it is. *)
Theorem safe_filename_idempotent :
  forall s : string,
    Scrape.safe_filename s
    = or_else (filter (fun c => isalnum c || mem c "-_.+=") s) "file"
    /\ Scrape.safe_filename (Scrape.safe_filename s) = Scrape.safe_filename s
    /\ strip (Archive.safe_filename s) = Archive.safe_filename s
    /\ Archive.safe_filename (Archive.safe_filename s) = Archive.safe_filename s.
Proof.
  intros s. pose proof scrape_safe_filename_filter as H1.
  destruct (sanitised_name "-_.+=" s) as (Hne1 & Hall1 & _).
  destruct (sanitised_name "-_.+ " s) as (Hne2 & Hall2 & _).
  fold (Scrape.safe_filename s) in Hne1, Hall1.
  fold (Archive.safe_filename s) in Hne2, Hall2.
  assert (H3 : strip (Archive.safe_filename s) = Archive.safe_filename s).
  { unfold Archive.safe_filename. apply strip_fixed, strip_idempotent. }
  split; [apply H1|]. split; [|split; [exact H3|]].
  - rewrite (H1 (Scrape.safe_filename s)), (filter_id _ _ Hall1).
    destruct (Scrape.safe_filename s); [contradiction|reflexivity].
  - unfold Archive.safe_filename at 1.
    rewrite (filter_id _ _ Hall2), H3.
    destruct (Archive.safe_filename s); [contradiction|reflexivity].
Qed.

Lemma eqb_length a b : String.eqb a b = true -> String.length a = String.length b.
Proof. intros ->%String.eqb_eq. reflexivity. Qed.

(** A suffix no longer than [s] is found in [s], whatever stands before. *)
Lemma endswith_app_long suf pre s :
  (String.length suf <= String.length s)%nat ->
  endswith suf (pre +:+ s) = endswith suf s.
Proof.
  intros Hlen. induction pre as [|c pre IH]; [reflexivity|].
  change (String c pre +:+ s) with (String c (pre +:+ s)). cbn [endswith].
  rewrite IH. destruct (String.eqb suf (String c (pre +:+ s))) eqn:Heq; [|reflexivity].
  apply eqb_length in Heq. simpl in Heq. rewrite length_append in Heq. lia.
Qed.

Lemma path_join_suffix a b :
  startswith "/" b = false -> exists pre, path_join a b = pre +:+ b.
Proof.
  intros Hb. unfold path_join. rewrite Hb. destruct a as [|c a].
  - exists EmptyString. reflexivity.
  - destruct (endswith "/" (String c a)).
    + exists (String c a). reflexivity.
    + exists (String c a +:+ "/"). apply eq_sym, append_assoc.
Qed.

Variable E : env.

(** X18: a binary payload is stored directly inside the [raw_files]
    directory of its brain.  [get_binary_output_path] makes that
    directory ([os.makedirs] with [exist_ok]) and returns the path: the
    directory, a slash and the file name; when the directory cannot be
    made the call raises and returns no path.  The file name holds no
    slash whatever the URL is, so the name is what [basename] gives back
    from the path.  The directory is [legal_rag_data/<brain>/raw_files]
    for a brain name without slash.  The name keeps the extension it was
    given when the characters of the extension all pass the filter, as
    those of [.html], [.pdf], [.json] and [.bin] do. *)
Theorem get_binary_output_path_inside :
  forall (brain url ext : string) (tr : list Env.event),
    let name := Scrape.binary_filename E url ext in
    let out_dir := path_join (path_join Scrape.BASE_OUTPUT_DIR brain) "raw_files" in
    let out_path := out_dir +:+ "/" +:+ name in
    Scrape.get_binary_output_path E brain url ext tr
    = match Env.makedirs_error E tr out_dir with
      | None => (Env.EvMkdir out_dir :: tr, inl out_path)
      | Some msg => (tr, inr msg)
      end
    /\ mem "/" name = false
    /\ basename out_path = name
    /\ endswith "raw_files" out_dir = true
    /\ (brain <> EmptyString -> mem "/" brain = false ->
        out_dir = Scrape.BASE_OUTPUT_DIR +:+ "/" +:+ brain +:+ "/raw_files")
    /\ (all (fun c => isalnum c || mem c "-_.+=") ext = true -> endswith ext name = true)
    /\ Forall (fun e => all (fun c => isalnum c || mem c "-_.+=") e = true)
         [".html"; ".pdf"; ".json"; ".bin"].
Proof.
  intros brain url ext tr name out_dir out_path.
  assert (Hname : mem "/" name = false).
  { unfold name, Scrape.binary_filename, Scrape.safe_filename.
    apply (sanitised_component "-_.+="); reflexivity. }
  destruct (path_join_suffix (path_join Scrape.BASE_OUTPUT_DIR brain) "raw_files" eq_refl)
    as (pre & Hpre). fold out_dir in Hpre.
  assert (Hdir : out_dir <> EmptyString /\ endswith "/" out_dir = false
                 /\ endswith "raw_files" out_dir = true).
  { rewrite Hpre. split; [destruct pre; discriminate|].
    rewrite !endswith_app_long by (simpl; lia). split; reflexivity. }
  destruct Hdir as (D1 & D2 & D3).
  assert (Hpath : path_join out_dir name = out_path).
  { apply path_join_plain; assumption. }
  split.
  { unfold Scrape.get_binary_output_path, Scrape.binary_output_dir. fold out_dir name.
    rewrite Hpath. destruct (Env.makedirs_error E tr out_dir); reflexivity. }
  split; [exact Hname|].
  split; [apply basename_inside, Hname|]. split; [exact D3|].
  split; [|split].
  - intros Hb1 Hb2. unfold out_dir.
    rewrite (path_join_plain Scrape.BASE_OUTPUT_DIR brain) by (first [discriminate|reflexivity|exact Hb2]).
    unfold path_join. cbn [startswith String.prefix].
    destruct (Scrape.BASE_OUTPUT_DIR +:+ "/" +:+ brain) as [|c rest] eqn:Hd; [discriminate|].
    rewrite <- Hd.
    assert (Hend : endswith "/" (Scrape.BASE_OUTPUT_DIR +:+ "/" +:+ brain) = false).
    { change (Scrape.BASE_OUTPUT_DIR +:+ "/" +:+ brain) with ("legal_rag_data/" +:+ brain).
      rewrite endswith_app_long by (destruct brain; [contradiction|simpl; lia]).
      apply endswith_one_mem, Hb2. }
    rewrite Hend. rewrite !append_assoc. reflexivity.
  - intros Hext. unfold name, Scrape.binary_filename.
    rewrite scrape_safe_filename_filter, !filter_append, (filter_id _ ext Hext).
    set (X := _ +:+ _ +:+ _ +:+ ext).
    assert (Hne : X <> EmptyString).
    { unfold X. destruct (filter _ (or_else (replace_char ":" "_" _) _)); discriminate. }
    assert (Hor : or_else X "file" = X) by (destruct X; [contradiction|reflexivity]).
    rewrite Hor. unfold X. apply endswith_app, endswith_app, endswith_app, endswith_refl.
  - repeat constructor.
Qed.

(** X19: [get_extension_from_content_type] never returns the empty
    string.  No content type gives [.bin].  What follows the first
    semicolon of the header is ignored.  The type before it, stripped
    and in lower case, gives [.html] when it contains [html]; else [.pdf]
    when it contains [pdf]; else [.json] when it contains [json]; else
    what the table of MIME types gives, and [.bin] when that is nothing. *)
Theorem get_extension_from_content_type_cases :
  forall ct : string,
    let ext := Scrape.get_extension_from_content_type E ct in
    let main := lower (strip (before_char ";" ct)) in
    ext <> EmptyString
    /\ (ct = EmptyString -> ext = ".bin")
    /\ (forall params, ct <> EmptyString -> mem ";" ct = false ->
          Scrape.get_extension_from_content_type E (ct +:+ ";" +:+ params) = ext)
    /\ (ct <> EmptyString ->
        (contains "html" main = true -> ext = ".html")
        /\ (contains "html" main = false -> contains "pdf" main = true -> ext = ".pdf")
        /\ (contains "html" main = false -> contains "pdf" main = false ->
            contains "json" main = true -> ext = ".json")
        /\ (contains "html" main = false -> contains "pdf" main = false ->
            contains "json" main = false ->
            ext = or_else (default EmptyString (guess_extension E main)) ".bin")).
Proof.
  intros ct ext main. split; [|split; [|split]].
  - unfold ext, Scrape.get_extension_from_content_type.
    destruct ct; [discriminate|].
    repeat match goal with |- context [if ?b then _ else _] => destruct b end;
      try discriminate.
    apply or_else_nonempty. discriminate.
  - intros ->. reflexivity.
  - intros params Hne Hsemi. unfold ext, Scrape.get_extension_from_content_type.
    change (";" +:+ params) with (String ";" params).
    rewrite (before_char_app ";" ct params Hsemi), (before_char_none ";" ct Hsemi).
    destruct ct as [|c ct]; [contradiction|]. reflexivity.
  - intros Hne. unfold ext, Scrape.get_extension_from_content_type.
    destruct ct as [|c ct]; [contradiction|]. fold main.
    destruct (contains "html" main); [repeat split; congruence|].
    destruct (contains "pdf" main); [repeat split; congruence|].
    destruct (contains "json" main); repeat split; congruence.
Qed.

End StoredNames.

(** ** The text of a page, line by line (scrape.py) *)

Section Lines.

Import Env Json Str StrFacts StrMore.

Lemma all_snoc p s c : all p s = true -> p c = true -> all p (s +:+ String c EmptyString) = true.
Proof. intros Hs Hc. rewrite all_append, Hs. simpl. rewrite Hc. reflexivity. Qed.

(** The lines [splitlines] gives hold no line break. *)
Lemma splitlines_go_plain (after_cr : bool) (cur s : string) :
  all (fun c => negb (is_linebreak c)) cur = true ->
  Forall (fun l => all (fun c => negb (is_linebreak c)) l = true)
    (splitlines_go after_cr cur s).
Proof.
  revert after_cr cur. induction s as [|c s IH]; intros after_cr cur Hcur; cbn [splitlines_go].
  - destruct cur; [constructor|]. constructor; [exact Hcur|constructor].
  - destruct (after_cr && (ord c =? 10)%N); [apply IH, Hcur|].
    destruct (is_linebreak c) eqn:Hc.
    + constructor; [exact Hcur|]. apply IH. reflexivity.
    + apply IH. apply all_snoc; [exact Hcur|]. rewrite Hc. reflexivity.
Qed.

(** A run without line break is taken into the current line. *)
Lemma splitlines_go_run (cur l rest : string) :
  all (fun c => negb (is_linebreak c)) l = true ->
  splitlines_go false cur (l +:+ rest) = splitlines_go false (cur +:+ l) rest.
Proof.
  revert cur. induction l as [|c l IH]; intros cur Hl.
  - rewrite append_empty_r. reflexivity.
  - change (String c l +:+ rest) with (String c (l +:+ rest)).
    cbn [all] in Hl. apply andb_prop in Hl as [Hc Hl]. apply negb_true_iff in Hc.
    cbn [splitlines_go andb]. rewrite Hc, (IH _ Hl).
    replace ((cur +:+ String c EmptyString) +:+ l) with (cur +:+ String c l)
      by (rewrite append_assoc; reflexivity).
    reflexivity.
Qed.

(** Splitting the lines that were joined gives them back. *)
Lemma splitlines_join (lines : list string) :
  Forall (fun l => l <> EmptyString /\ all (fun c => negb (is_linebreak c)) l = true) lines ->
  splitlines (join nl lines) = lines.
Proof.
  unfold splitlines, join.
  induction 1 as [|l lines [Hne Hl] Hrest IH]; [reflexivity|].
  destruct lines as [|l2 lines].
  - cbn [String.concat].
    rewrite <- (append_empty_r l) at 1.
    rewrite (splitlines_go_run EmptyString l EmptyString Hl).
    cbn [splitlines_go]. destruct l; [contradiction|reflexivity].
  - change (String.concat nl (l :: l2 :: lines))
      with (l +:+ nl +:+ String.concat nl (l2 :: lines)).
    rewrite (splitlines_go_run EmptyString l _ Hl).
    change (nl +:+ String.concat nl (l2 :: lines))
      with (String (ascii_of_N 10) (String.concat nl (l2 :: lines))).
    cbn [splitlines_go andb]. change (is_linebreak (ascii_of_N 10)) with true. cbv iota.
    change (ord (ascii_of_N 10) =? 13)%N with false.
    f_equal. exact IH.
Qed.

Variable E : env.

(** X20: [html_to_text] gives the text of the page line by line: its
    lines are the lines of the page's text (scripts and styles left
    out), each stripped, the empty ones dropped, joined by newlines.  So
    no line of the result is empty, none starts or ends with white space
    or holds a line break, splitting the result into lines gives exactly
    these lines, and cleaning the result again changes nothing. *)
Theorem html_to_text_lines :
  forall html : string,
    let text := Scrape.html_to_text E html in
    let clean := fun t =>
      List.filter (fun line => negb (String.eqb line EmptyString))
        (List.map strip (splitlines t)) in
    let lines :=
      clean (Soup.doc_text nl
               (Soup.decompose ["script"; "style"; "noscript"] (parse_html E html))) in
    text = join nl lines
    /\ Forall (fun l => l <> EmptyString /\ strip l = l
                        /\ all (fun c => negb (is_linebreak c)) l = true) lines
    /\ splitlines text = lines
    /\ clean text = lines
    /\ join nl (clean text) = text.
Proof.
  intros html text clean lines.
  assert (Htext : text = join nl lines) by reflexivity.
  assert (Hlines : Forall (fun l => l <> EmptyString /\ strip l = l
                                    /\ all (fun c => negb (is_linebreak c)) l = true) lines).
  { apply Forall_forall. intros l Hl.
    apply list_elem_of_In, filter_In in Hl as [Hl Hne].
    apply in_map_iff in Hl as (l0 & <- & Hl0).
    split; [intros Heq; rewrite Heq in Hne; discriminate|].
    split; [apply strip_idempotent|]. apply all_strip.
    pose proof (splitlines_go_plain false EmptyString
                  (Soup.doc_text nl
                     (Soup.decompose ["script"; "style"; "noscript"] (parse_html E html)))
                  eq_refl) as Hall.
    rewrite Forall_forall in Hall. apply Hall, list_elem_of_In, Hl0. }
  assert (Hsplit : splitlines text = lines).
  { rewrite Htext. apply splitlines_join.
    eapply Forall_impl; [exact Hlines|]. intros l (H1 & _ & H3). auto. }
  assert (Hclean : clean text = lines).
  { unfold clean. rewrite Hsplit.
    assert (Hmap : List.map strip lines = lines).
    { rewrite <- (map_id lines) at 2. apply map_ext_in. intros l Hl%list_elem_of_In.
      rewrite Forall_forall in Hlines. apply (Hlines l Hl). }
    rewrite Hmap. apply filter_all. intros l Hl.
    rewrite Forall_forall in Hlines. destruct (Hlines l Hl) as (Hne & _).
    apply negb_true_iff, String.eqb_neq, Hne. }
  split; [exact Htext|]. split; [exact Hlines|]. split; [exact Hsplit|].
  split; [exact Hclean|]. rewrite Hclean. symmetry. exact Htext.
Qed.

End Lines.

(** ** The logs of the brains (scrape.py) *)

Section BrainLogs.

Import Env Json Scrape.

Variable E : env.

Lemma sorted_set_spec (l : list string) :
  StronglySorted String.le (sorted_set l)
  /\ NoDup (sorted_set l)
  /\ (forall x, x ∈ sorted_set l <-> x ∈ l).
Proof.
  unfold sorted_set. split; [|split].
  - apply StronglySorted_merge_sort; apply _.
  - rewrite merge_sort_Permutation. apply NoDup_remove_dups.
  - intros x. rewrite merge_sort_Permutation. apply elem_of_remove_dups.
Qed.

Lemma sorted_set_canonical (l l' : list string) :
  (forall x, x ∈ l <-> x ∈ l') -> sorted_set l = sorted_set l'.
Proof.
  intros H.
  destruct (sorted_set_spec l) as (S1 & N1 & E1).
  destruct (sorted_set_spec l') as (S2 & N2 & E2).
  apply (StronglySorted_unique String.le); [assumption|assumption|].
  apply NoDup_Permutation; [assumption|assumption|].
  intros x. rewrite E1, E2. apply H.
Qed.

(** X21: the item links of a result page are visited in the order of
    their text, each once, whatever the order and the number of the
    anchors that give them: [item_links] is sorted, without repetition,
    holds exactly the [/details/] links of the page made absolute, and
    two pages with the same such links give the same list. *)
Theorem item_links_sorted :
  forall html : string,
    let links := item_links E html in
    let target := fun a => default EmptyString (Soup.attr "href" a) in
    StronglySorted String.le links
    /\ NoDup links
    /\ (forall u, u ∈ links <->
          exists a, a ∈ Soup.links (parse_html E html)
                    /\ Str.startswith "/details/" (target a) = true
                    /\ u = urljoin E "https://archive.org" (target a))
    /\ forall html', (forall u, u ∈ item_links E html' <-> u ∈ links) ->
                     item_links E html' = links.
Proof.
  intros html links target. unfold links, item_links.
  match goal with |- context [sorted_set ?l] => destruct (sorted_set_spec l) as (S1 & N1 & E1) end.
  split; [exact S1|]. split; [exact N1|]. split.
  - intros u. rewrite E1, list_elem_of_omap. split.
    + intros (a & Ha & Hu). exists a. split; [exact Ha|]. fold (target a) in Hu.
      destruct (Str.startswith "/details/" (target a)); [|discriminate].
      injection Hu as <-. auto.
    + intros (a & Ha & Hs & ->). exists a. split; [exact Ha|]. fold (target a).
      rewrite Hs. reflexivity.
  - intros html' H. apply sorted_set_canonical. intros x.
    specialize (H x). unfold item_links in H.
    match type of H with
    | _ ∈ sorted_set ?l1 <-> _ ∈ sorted_set ?l2 =>
        destruct (sorted_set_spec l1) as (_ & _ & F1);
        destruct (sorted_set_spec l2) as (_ & _ & F2)
    end.
    rewrite <- F1, <- F2. exact H.
Qed.

End BrainLogs.

Section BrainRecords.

Import Env Json Scrape.

Variable E : env.

(** *** What is appended to a log *)

Lemma jsonl_line_dumps (record : dict) :
  string_valued record -> jsonl_line (dumps record +:+ Str.nl).
Proof. intros H. eexists. split; [reflexivity|]. apply dumps_no_newline, H. Qed.

Lemma logs_to_nil brain : logs_to brain [].
Proof. constructor. Qed.

Lemma logs_to_app brain a b : logs_to brain a -> logs_to brain b -> logs_to brain (a ++ b).
Proof. unfold logs_to. rewrite appends_app. apply Forall_app_2. Qed.

Lemma logs_to_record brain record :
  string_valued record ->
  logs_to brain [EvAppend (brain_log brain) (dumps record +:+ Str.nl)].
Proof. intros H. constructor; [|constructor]. split; [reflexivity|apply jsonl_line_dumps, H]. Qed.

Lemma logs_to_silent brain evs : appends evs = [] -> logs_to brain evs.
Proof. unfold logs_to. intros ->. constructor. Qed.

Ltac string_values := repeat constructor; eexists; reflexivity.

Lemma fetch_events url tr tr' r : fetch E url tr = (tr', r) -> tr' = EvGet url 0 :: tr.
Proof. unfold fetch. intros H. injection H as <- _. reflexivity. Qed.

(** Saving a payload: one record and no request, or the exception of
    [os.makedirs] and nothing else. *)
Lemma save_binary_events brain url domain ct ts ext resp err_prefix ok_more err_more tr :
  string_valued ok_more -> string_valued err_more ->
  exists evs out,
    save_binary E brain url domain ct ts ext resp err_prefix ok_more err_more tr
    = (evs ++ tr, out)
    /\ gets evs = []
    /\ match out with
       | Returned =>
           exists record,
             appends evs = [(brain_log brain, dumps record +:+ Str.nl)]
             /\ string_valued record
       | Raised msg =>
           evs = [] /\ makedirs_error E tr (binary_output_dir brain) = Some msg
       | Unfinished => False
       end.
Proof.
  intros Hok Herr. unfold save_binary, get_binary_output_path.
  destruct (makedirs_error E tr (binary_output_dir brain)) as [msg|] eqn:Hmk.
  { exists [], (Raised msg). repeat split. }
  unfold write_file. destruct (open_error E _ _) as [e|].
  - eexists [_; _], Returned. split; [reflexivity|]. split; [reflexivity|].
    eexists. split; [reflexivity|]. apply Forall_app_2; [string_values|exact Herr].
  - eexists [_; _; _], Returned. split; [reflexivity|]. split; [reflexivity|].
    eexists. split; [reflexivity|]. apply Forall_app_2; [string_values|exact Hok].
Qed.

Lemma recorded_request brain url record evs out :
  string_valued record ->
  recorded E brain evs out ->
  recorded E brain
    (evs ++ [EvAppend (brain_log brain) (dumps record +:+ Str.nl); EvGet url 0]) out.
Proof.
  intros Hrec [Hlogs Hout]. split.
  - apply logs_to_app; [exact Hlogs|].
    apply (logs_to_app brain [_] [_]); [|apply logs_to_silent; reflexivity].
    apply logs_to_record, Hrec.
  - rewrite appends_app, gets_app, !length_app. cbn [appends gets omap list_omap length app Nat.add].
    destruct out as [|msg|]; [lia| |exact Hout].
    destruct Hout as [Hn Hmk]. split; [lia|exact Hmk].
Qed.

Lemma scrape_item_files_events brain item_url ts files tr :
  exists evs out requested,
    scrape_item_files E brain item_url ts files tr = (evs ++ tr, out)
    /\ rev (gets evs) = (fun f => (f, 0%nat)) <$> requested
    /\ requested `prefix_of` files
    /\ (out = Returned -> requested = files)
    /\ recorded E brain evs out.
Proof.
  revert tr. induction files as [|file_url files IH]; intros tr; cbn [scrape_item_files].
  - exists [], Returned, []. split; [reflexivity|]. split; [reflexivity|].
    split; [reflexivity|]. split; [reflexivity|]. split; [constructor|reflexivity].
  - destruct (fetch E file_url tr) as [tr1 [resp|]] eqn:Hf;
      apply fetch_events in Hf; subst tr1.
    + destruct (save_binary_events brain file_url (get_domain E file_url) (header_ct resp) ts
                  (get_extension_from_content_type E (header_ct resp)) resp
                  "save_file_failed"
                  [("parent_item", PStr item_url); ("source", PStr "archive_item_file")]
                  [("parent_item", PStr item_url)] (EvGet file_url 0 :: tr))
        as (e1 & out1 & H1 & G1 & O1); [string_values|string_values|].
      rewrite H1. destruct out1 as [|msg|]; [| |contradiction].
      * destruct O1 as (record & A1 & SV).
        destruct (IH (e1 ++ EvGet file_url 0 :: tr)) as (e2 & out & req & H2 & R2 & P2 & F2 & L2).
        exists (e2 ++ e1 ++ [EvGet file_url 0]), out, (file_url :: req).
        rewrite H2, <- !app_assoc. split; [reflexivity|].
        rewrite !gets_app, !rev_app_distr, G1, R2. split; [reflexivity|].
        split; [apply prefix_cons, P2|]. split; [intros Ho; rewrite (F2 Ho); reflexivity|].
        destruct L2 as [Hlogs Hout]. split.
        -- apply logs_to_app; [exact Hlogs|]. apply logs_to_app; [|apply logs_to_silent; reflexivity].
           unfold logs_to. rewrite A1. constructor; [|constructor].
           split; [reflexivity|apply jsonl_line_dumps, SV].
        -- rewrite !appends_app, !gets_app, !length_app, A1, G1. cbn [appends gets omap list_omap length app Nat.add].
           destruct out as [|msg|]; [lia| |exact Hout].
           destruct Hout as [Hn Hmk]. split; [lia|exact Hmk].
      * destruct O1 as [-> Hmk].
        exists [EvGet file_url 0], (Raised msg), [file_url].
        split; [reflexivity|]. split; [reflexivity|].
        split; [apply prefix_cons, prefix_nil|]. split; [discriminate|].
        split; [apply logs_to_silent; reflexivity|]. split; [reflexivity|eauto].
    + match goal with
      | |- context [append_jsonl_record brain ?record ?tr0] =>
          destruct (IH (append_jsonl_record brain record tr0))
            as (e2 & out & req & H2 & R2 & P2 & F2 & L2);
          exists (e2 ++ [EvAppend (brain_log brain) (dumps record +:+ Str.nl);
                         EvGet file_url 0]), out, (file_url :: req);
          assert (SV : string_valued record) by string_values
      end.
      rewrite H2, <- app_assoc. split; [reflexivity|].
      rewrite gets_app, rev_app_distr, R2. split; [reflexivity|].
      split; [apply prefix_cons, P2|]. split; [intros Ho; rewrite (F2 Ho); reflexivity|].
      apply recorded_request; assumption.
Qed.

Lemma scrape_archive_item_events brain item_url fetched_at tr :
  exists evs out requested,
    scrape_archive_item E brain item_url fetched_at tr = (evs ++ tr, out)
    /\ rev (gets evs) = (item_url, 0%nat) :: ((fun f => (f, 0%nat)) <$> requested)
    /\ requested `prefix_of` linked_files E tr item_url
    /\ (out = Returned -> requested = linked_files E tr item_url)
    /\ recorded E brain evs out.
Proof.
  unfold scrape_archive_item, linked_files.
  destruct (fetch E item_url tr) as [tr1 [resp|]] eqn:Hf;
    apply fetch_events in Hf; subst tr1; cbn [snd].
  2: { eexists [_; EvGet item_url 0], Returned, []. split; [reflexivity|].
       split; [reflexivity|]. split; [reflexivity|]. split; [reflexivity|].
       apply (recorded_request brain item_url _ [] Returned); [string_values|].
       split; [constructor|reflexivity]. }
  destruct (looks_like_html (header_ct resp) resp).
  - match goal with
    | |- context [scrape_item_files E brain item_url ?ts ?files
                    (append_jsonl_record brain ?record ?tr0)] =>
        destruct (scrape_item_files_events brain item_url ts files
                    (append_jsonl_record brain record tr0))
          as (e2 & out & req & H2 & R2 & P2 & F2 & L2);
        exists (e2 ++ [EvAppend (brain_log brain) (dumps record +:+ Str.nl);
                       EvGet item_url 0]), out, req;
        assert (SV : string_valued record) by string_values
    end.
    rewrite H2, <- app_assoc. split; [reflexivity|].
    rewrite gets_app, rev_app_distr, R2. split; [reflexivity|].
    split; [exact P2|]. split; [exact F2|].
    apply recorded_request; assumption.
  - match goal with
    | |- context [save_binary E brain item_url ?d ?ct ?ts ?ext resp ?pre ?okm ?errm ?tr0] =>
        destruct (save_binary_events brain item_url d ct ts ext resp pre okm errm tr0)
          as (e1 & out & H1 & G1 & O1); [string_values|string_values|]
    end.
    rewrite H1. exists (e1 ++ [EvGet item_url 0]), out, []. rewrite <- app_assoc.
    split; [reflexivity|]. rewrite gets_app, rev_app_distr, G1.
    split; [reflexivity|]. split; [reflexivity|]. split; [reflexivity|].
    destruct out as [|msg|]; [| |contradiction].
    + destruct O1 as (record & A1 & SV). split.
      * apply logs_to_app; [|apply logs_to_silent; reflexivity].
        unfold logs_to. rewrite A1. constructor; [|constructor].
        split; [reflexivity|apply jsonl_line_dumps, SV].
      * rewrite appends_app, gets_app, !length_app, A1, G1. reflexivity.
    + destruct O1 as [-> Hmk]. split; [apply logs_to_silent; reflexivity|].
      split; [reflexivity|eauto].
Qed.




End BrainRecords.


(** ** The paginated search (scrape.py) *)

Section Search.

Import Env Json Scrape.

Variable E : env.
Variables brain fetched_at base_root base_query : string.
Variable max_items : nat.
Variable delay : Z.



Lemma returned_or_not (out : outcome) : {out = Returned} + {out <> Returned}.
Proof. destruct out; [left; reflexivity|right; discriminate|right; discriminate]. Qed.


Lemma size_one_more (item : string) (seen seen' : gset string) :
  item ∉ seen -> {[item]} ∪ seen ⊆ seen' ->
  size (seen' ∖ seen) = S (size (seen' ∖ ({[item]} ∪ seen))).
Proof.
  intros Hnew Hsub.
  assert (Hsplit : seen' ∖ seen = {[item]} ∪ seen' ∖ ({[item]} ∪ seen)).
  { apply set_eq. intros x.
    rewrite elem_of_union, !elem_of_difference, elem_of_union, elem_of_singleton.
    split.
    - intros [Hx Hn]. destruct (decide (x = item)) as [->|Hne]; [auto|].
      right. split; [exact Hx|]. intros [->|Hs]; [congruence|contradiction].
    - intros [->|[Hx Hn]]; [split; [set_solver|exact Hnew]|].
      split; [exact Hx|]. intros Hs. apply Hn. auto. }
  rewrite Hsplit.
  rewrite (size_union ({[item]} : gset string)) by set_solver.
  rewrite size_singleton. reflexivity.
Qed.

(** The loop over the items of one page: the state it leaves. *)
Lemma scrape_page_items_spec (items : list string) (st st' : search_state) (out : outcome) :
  scrape_page_items E brain fetched_at max_items delay items st = (st', out) ->
  page st' = page st
  /\ seen_items st ⊆ seen_items st'
  /\ seen_items st' ⊆ seen_items st ∪ list_to_set items
  /\ (out = Returned -> (scraped_items st' < max_items)%nat ->
      seen_items st' = seen_items st ∪ list_to_set items)
  /\ scraped_items st' = (scraped_items st + size (seen_items st' ∖ seen_items st))%nat
  /\ ((scraped_items st <= max_items)%nat -> (scraped_items st' <= max_items)%nat).
Proof.
  revert st. induction items as [|item items IH]; intros st H; cbn [scrape_page_items] in H.
  - injection H as <- <-.
    refine (conj eq_refl (conj _ (conj _ (conj _ (conj _ _))))).
    + reflexivity.
    + apply union_subseteq_l.
    + intros _ _. rewrite list_to_set_nil, (right_id_L ∅ (∪)). reflexivity.
    + rewrite difference_diag_L, size_empty. lia.
    + auto.
  - destruct (max_items <=? scraped_items st)%nat eqn:Hq.
    + apply Nat.leb_le in Hq. injection H as <- <-.
      refine (conj eq_refl (conj _ (conj _ (conj _ (conj _ _))))).
      * reflexivity.
      * apply union_subseteq_l.
      * intros _ Hlt. lia.
      * rewrite difference_diag_L, size_empty. lia.
      * auto.
    + apply Nat.leb_gt in Hq.
      destruct (bool_decide (item ∈ seen_items st)) eqn:Hseen.
      * apply bool_decide_eq_true in Hseen.
        destruct (IH st H) as (Hp & Hlo & Hup & Hall & Hcount & Hquota).
        refine (conj Hp (conj Hlo (conj _ (conj _ (conj Hcount Hquota))))).
        -- set_solver.
        -- intros Ho Hlt. rewrite (Hall Ho Hlt). set_solver.
      * apply bool_decide_eq_false in Hseen.
        destruct (scrape_archive_item E brain item (Some fetched_at) (events st))
          as [tr1 out1].
        assert (Hstop : out1 <> Returned ->
                  st' = {| events := tr1; scraped_items := S (scraped_items st);
                           seen_items := {[item]} ∪ seen_items st; page := page st |}
                  /\ out = out1).
        { intros Hne. destruct out1; [congruence| |]; injection H as <- <-; auto. }
        destruct (returned_or_not out1) as [->|Hne].
        -- apply IH in H. destruct H as (Hp & Hlo & Hup & Hall & Hcount & Hquota).
           simpl in Hp, Hlo, Hup, Hall, Hcount, Hquota.
           refine (conj Hp (conj _ (conj _ (conj _ (conj _ _))))).
           ++ set_solver.
           ++ set_solver.
           ++ intros Ho Hlt. rewrite (Hall Ho Hlt). set_solver.
           ++ rewrite Hcount, (size_one_more item (seen_items st) (seen_items st') Hseen Hlo).
              lia.
           ++ intros Hle. apply Hquota. lia.
        -- destruct (Hstop Hne) as [-> ->]. simpl.
           refine (conj eq_refl (conj _ (conj _ (conj _ (conj _ _))))).
           ++ set_solver.
           ++ set_solver.
           ++ intros Ho. contradiction.
           ++ rewrite (size_one_more item (seen_items st) _ Hseen) by reflexivity.
              rewrite difference_diag_L, size_empty. lia.
           ++ intros _. lia.
Qed.

Lemma item_fetch_mono (seen seen' : gset string) (g : string * nat) :
  seen ⊆ seen' -> item_fetch E seen g -> item_fetch E seen' g.
Proof.
  intros Hsub [H0 [Hin|(item & tr & Hitem & Hfile)]]; split; auto.
  right. exists item, tr. auto.
Qed.

Lemma item_requests_fetch (item : string) (tr : list event) (evs : list event)
  (requested : list string) :
  rev (gets evs) = (item, 0%nat) :: ((fun f => (f, 0%nat)) <$> requested) ->
  requested `prefix_of` linked_files E tr item ->
  Forall (item_fetch E {[item]}) (gets evs).
Proof.
  intros Hrev [rest Hpre]. rewrite <- (rev_involutive (gets evs)).
  apply List.Forall_rev. rewrite Hrev. constructor.
  - split; [reflexivity|]. left. set_solver.
  - apply Forall_fmap, Forall_forall. intros f Hf. split; [reflexivity|].
    right. exists item, tr. split; [set_solver|]. rewrite Hpre. set_solver.
Qed.

(** The loop over the items of one page: what it requests and records,
    and how it ends. *)
Lemma scrape_page_items_events (items : list string) (st st' : search_state) (out : outcome) :
  scrape_page_items E brain fetched_at max_items delay items st = (st', out) ->
  (exists evs,
     events st' = evs ++ events st
     /\ logs_to brain evs
     /\ Forall (item_fetch E (seen_items st')) (gets evs))
  /\ match out with
     | Returned => True
     | Raised msg => exists tr, makedirs_error E tr (binary_output_dir brain) = Some msg
     | Unfinished => False
     end.
Proof.
  revert st. induction items as [|item items IH]; intros st H; cbn [scrape_page_items] in H.
  { injection H as <- <-. split; [|exact I]. exists []. repeat split; constructor. }
  destruct (max_items <=? scraped_items st)%nat.
  { injection H as <- <-. split; [|exact I]. exists []. repeat split; constructor. }
  destruct (bool_decide (item ∈ seen_items st)); [exact (IH st H)|].
  destruct (scrape_archive_item_events E brain item (Some fetched_at) (events st))
    as (e1 & out1 & requested & H1 & R1 & P1 & _ & [L1 O1]).
  rewrite H1 in H.
  pose proof (item_requests_fetch item (events st) e1 requested R1 P1) as F1.
  destruct out1 as [|msg|]; [| |contradiction].
  - pose proof (scrape_page_items_spec _ _ _ _ H) as (_ & Hlo & _). simpl in Hlo.
    apply IH in H. destruct H as [(e2 & H2 & L2 & F2) O2]. simpl in H2.
    split; [|exact O2]. exists (e2 ++ EvSleep delay :: e1).
    rewrite H2, <- app_assoc. split; [reflexivity|]. split.
    + apply logs_to_app; [exact L2|]. exact L1.
    + rewrite gets_app. apply Forall_app_2; [exact F2|]. cbn [gets omap list_omap].
      eapply Forall_impl; [exact F1|]. intros g. apply item_fetch_mono. set_solver.
  - injection H as <- <-. simpl. split; [|exact (proj2 O1)].
    exists e1. split; [reflexivity|]. split; [exact L1|].
    eapply Forall_impl; [exact F1|]. intros g. apply item_fetch_mono. set_solver.
Qed.






Lemma page_requests_first (p k : nat) :
  page_requests base_root base_query p (S k)
  = (page_url base_root base_query p, 0%nat) :: page_requests base_root base_query (S p) k.
Proof. reflexivity. Qed.

(** The loop when it stops right after the fetch of its page. *)
Lemma search_loop_one_page (st : search_state) :
  (scraped_items st < max_items)%nat ->
  let st' := {| events := EvGet (page_url base_root base_query (page st)) 0 :: events st;
                scraped_items := scraped_items st; seen_items := seen_items st;
                page := page st |} in
  exists evs irs,
    events st' = evs ++ events st
    /\ logs_to brain evs
    /\ gets evs ≡ₚ page_requests base_root base_query (page st)
                     (pages_fetched max_items st st' Returned) ++ irs
    /\ sublist (page_requests base_root base_query (page st)
                  (pages_fetched max_items st st' Returned)) (rev (gets evs))
    /\ Forall (item_fetch E (seen_items st')) irs.
Proof.
  intros Hq st'.
  assert (Hk : pages_fetched max_items st st' Returned = 1%nat).
  { unfold pages_fetched. cbn [page scraped_items st'].
    apply Nat.ltb_lt in Hq. rewrite Hq. lia. }
  rewrite Hk. exists [EvGet (page_url base_root base_query (page st)) 0], [].
  split; [reflexivity|]. split; [apply logs_to_silent; reflexivity|].
  split; [reflexivity|]. split; [reflexivity|constructor].
Qed.

(** The [while] loop: what it requests and records, whatever the web. *)
Lemma search_loop_events (fuel : nat) (st st' : search_state) (out : outcome) :
  search_loop E fuel brain fetched_at base_root base_query max_items delay st = (st', out) ->
  (page st <= page st')%nat
  /\ seen_items st ⊆ seen_items st'
  /\ (exists evs irs,
        events st' = evs ++ events st
        /\ logs_to brain evs
        /\ gets evs ≡ₚ page_requests base_root base_query (page st)
                         (pages_fetched max_items st st' out) ++ irs
        /\ sublist (page_requests base_root base_query (page st)
                      (pages_fetched max_items st st' out)) (rev (gets evs))
        /\ Forall (item_fetch E (seen_items st')) irs)
  /\ match out with
     | Raised msg => exists tr, makedirs_error E tr (binary_output_dir brain) = Some msg
     | _ => True
     end.
Proof.
  revert st. induction fuel as [|fuel IH]; intros st H; cbn [search_loop] in H.
  { injection H as <- <-. split; [lia|]. split; [reflexivity|]. split; [|exact I].
    exists [], []. unfold pages_fetched. rewrite Nat.sub_diag.
    repeat split; constructor. }
  destruct (negb (scraped_items st <? max_items)%nat) eqn:Hq.
  { apply negb_true_iff in Hq. injection H as <- <-.
    split; [lia|]. split; [reflexivity|]. split; [|exact I].
    exists [], []. unfold pages_fetched. rewrite Nat.sub_diag, Hq.
    repeat split; constructor. }
  apply negb_false_iff, Nat.ltb_lt in Hq.
  destruct (fetch E (page_url base_root base_query (page st)) (events st))
    as [tr1 [resp|]] eqn:Hf; apply fetch_events in Hf; subst tr1.
  2: { injection H as <- <-. split; [cbn; lia|]. split; [reflexivity|]. split; [|exact I].
       exact (search_loop_one_page st Hq). }
  destruct (item_links E (resp_text resp)) as [|l links] eqn:Hlinks.
  { injection H as <- <-. split; [cbn; lia|]. split; [reflexivity|]. split; [|exact I].
    exact (search_loop_one_page st Hq). }
  set (u := page_url base_root base_query (page st)) in *.
  set (st1 := {| events := EvGet u 0 :: events st; scraped_items := scraped_items st;
                 seen_items := seen_items st; page := page st |}) in H.
  destruct (scrape_page_items E brain fetched_at max_items delay (l :: links) st1)
    as [st2 out2] eqn:Hitems.
  destruct (scrape_page_items_spec _ _ _ _ Hitems) as (Hp & Hlo & _).
  destruct (scrape_page_items_events _ _ _ _ Hitems) as [(e2 & H2 & L2 & F2) O2].
  simpl in Hp, Hlo, H2.
  destruct (returned_or_not out2) as [->|Hne].
  - apply IH in H. destruct H as (Pg & Lo & (e3 & irs3 & H3 & L3 & P3 & S3 & F3) & O3).
    cbn [page seen_items events] in Pg, Lo, H3, P3, S3.
    set (st3 := {| events := EvSleep delay :: events st2;
                   scraped_items := scraped_items st2;
                   seen_items := seen_items st2; page := S (page st2) |}) in *.
    assert (Hk : pages_fetched max_items st st' out
                 = S (pages_fetched max_items st3 st' out)).
    { unfold pages_fetched. cbn [page st3]. lia. }
    split; [lia|]. split; [clear -Lo Hlo; set_solver|]. split; [|exact O3].
    exists (e3 ++ EvSleep delay :: e2 ++ [EvGet u 0]), (irs3 ++ gets e2).
    rewrite Hk, page_requests_first. fold u. rewrite <- Hp.
    split; [rewrite H3, H2, <- app_assoc; cbn [app]; rewrite <- app_assoc; reflexivity|].
    split.
    { apply logs_to_app; [exact L3|].
      apply (logs_to_app brain [_]); [apply logs_to_silent; reflexivity|].
      apply logs_to_app; [exact L2|apply logs_to_silent; reflexivity]. }
    assert (Hg : gets (e3 ++ EvSleep delay :: e2 ++ [EvGet u 0])
                 = gets e3 ++ gets e2 ++ [(u, 0%nat)]).
    { rewrite gets_app. f_equal. change (EvSleep delay :: e2 ++ [EvGet u 0])
        with ([EvSleep delay] ++ e2 ++ [EvGet u 0]). rewrite !gets_app. reflexivity. }
    rewrite Hg. split; [|split].
    + rewrite P3. cbn [app]. rewrite (app_assoc _ (gets e2) [(u, 0%nat)]).
      rewrite <- Permutation_cons_append. constructor.
      rewrite <- app_assoc. reflexivity.
    + rewrite !rev_app_distr. cbn [rev app]. apply sublist_skip.
      apply sublist_inserts_l. exact S3.
    + apply Forall_app_2; [exact F3|].
      eapply Forall_impl; [exact F2|]. intros g. apply item_fetch_mono. exact Lo.
  - assert (Heq : st' = st2 /\ out = out2)
      by (destruct out2; [congruence| |]; injection H as <- <-; auto).
    destruct Heq as [-> ->]. destruct out2 as [|msg|]; [contradiction| |contradiction].
    split; [lia|]. split; [exact Hlo|]. split; [|exact O2].
    exists (e2 ++ [EvGet u 0]), (gets e2).
    assert (Hk : pages_fetched max_items st st2 (Raised msg) = 1%nat)
      by (unfold pages_fetched; lia).
    rewrite Hk, page_requests_first. fold u.
    split; [rewrite H2, <- app_assoc; reflexivity|].
    split; [apply logs_to_app; [exact L2|apply logs_to_silent; reflexivity]|].
    rewrite gets_app. cbn [gets omap list_omap].
    split; [|split].
    + change (page_requests base_root base_query (S (page st)) 0) with (@nil (string * nat)).
      cbn [app]. rewrite <- Permutation_cons_append. reflexivity.
    + rewrite rev_app_distr. cbn [rev app]. apply sublist_skip, sublist_nil_l.
    + exact F2.
Qed.

End Search.

Section SearchController.

Import Env Json Scrape.

Variable E : env.


End SearchController.






(** ** The records of a run (scrape.py) *)

Section BrainRuns.

Import Env Json Scrape.

Variable E : env.

Ltac string_values := repeat constructor; eexists; reflexivity.

(** A URL that is no archive search: one request, and one record unless
    the directory for the payload cannot be made. *)
Lemma scrape_url_for_brain_plain fuel brain url tr :
  is_archive_search E url = false ->
  exists evs out,
    scrape_url_for_brain E fuel brain url tr = (evs ++ tr, out)
    /\ gets evs = [(url, 0%nat)]
    /\ match out with
       | Returned =>
           exists line, appends evs = [(brain_log brain, line)] /\ jsonl_line line
       | Raised msg =>
           evs = [EvGet url 0]
           /\ makedirs_error E (EvGet url 0 :: tr) (binary_output_dir brain) = Some msg
           /\ exists resp,
                http_get E tr url = Some resp /\ ok resp = true
                /\ html_signal resp = false
       | Unfinished => False
       end.
Proof.
  intros Hs. unfold scrape_url_for_brain. rewrite Hs.
  destruct (fetch E url tr) as [tr1 [resp|]] eqn:Hf.
  2: { apply fetch_events in Hf; subst tr1.
       eexists [_; _], Returned. split; [reflexivity|]. split; [reflexivity|].
       eexists. split; [reflexivity|]. apply jsonl_line_dumps. string_values. }
  pose proof (fetch_events E _ _ _ _ Hf) as ->.
  destruct (looks_like_html (header_ct resp) resp) eqn:Hhtml.
  - eexists [_; _], Returned. split; [reflexivity|]. split; [reflexivity|].
    eexists. split; [reflexivity|]. apply jsonl_line_dumps. string_values.
  - match goal with
    | |- context [save_binary E brain url ?d ?ct ?ts ?ext resp ?pre ?okm ?errm ?tr0] =>
        destruct (save_binary_events E brain url d ct ts ext resp pre okm errm tr0)
          as (e1 & out & H1 & G1 & O1); [constructor|constructor|]
    end.
    rewrite H1. exists (e1 ++ [EvGet url 0]), out.
    rewrite <- app_assoc, gets_app, G1. split; [reflexivity|]. split; [reflexivity|].
    destruct out as [|msg|]; [| |contradiction].
    + destruct O1 as (record & A1 & SV). exists (dumps record +:+ Str.nl).
      rewrite appends_app, A1. split; [reflexivity|]. apply jsonl_line_dumps, SV.
    + destruct O1 as [-> Hmk]. split; [reflexivity|]. split; [exact Hmk|].
      exists resp. unfold fetch in Hf.
      destruct (http_get E tr url) as [r|]; [|discriminate].
      destruct (ok r) eqn:Hok; [|discriminate].
      injection Hf as ->. auto.
Qed.

Lemma scrape_url_for_brain_logs fuel brain url tr :
  exists evs,
    fst (scrape_url_for_brain E fuel brain url tr) = evs ++ tr /\ logs_to brain evs.
Proof.
  destruct (is_archive_search E url) eqn:Hs.
  - unfold scrape_url_for_brain. rewrite Hs. unfold scrape_archive_search.
    destruct (search_loop _ _ _ _ _ _ _ _ _) as [st' out] eqn:Hl.
    apply search_loop_events in Hl. destruct Hl as (_ & _ & (evs & _ & H & L & _) & _).
    exists evs. split; [exact H|exact L].
  - destruct (scrape_url_for_brain_plain fuel brain url tr Hs) as (evs & out & H & _ & O).
    rewrite H. exists evs. split; [reflexivity|].
    destruct out as [|msg|]; [| |contradiction].
    + destruct O as (line & A & J). unfold logs_to. rewrite A.
      constructor; [|constructor]. split; [reflexivity|exact J].
    + destruct O as [-> _]. apply logs_to_silent. reflexivity.
Qed.

Lemma scrape_brain_logs fuel delay brain urls tr :
  exists evs,
    fst (scrape_brain E fuel delay brain urls tr) = evs ++ tr /\ logs_to brain evs.
Proof.
  revert tr. induction urls as [|url urls IH]; intros tr; cbn [scrape_brain].
  - exists []. split; [reflexivity|constructor].
  - destruct (scrape_url_for_brain_logs fuel brain url tr) as (e1 & H1 & L1).
    destruct (scrape_url_for_brain E fuel brain url tr) as [tr1 out1].
    cbn [fst] in H1. subst tr1.
    destruct out1 as [|msg|]; [|exists e1; auto|exists e1; auto].
    destruct (IH (EvSleep delay :: e1 ++ tr)) as (e2 & H2 & L2).
    exists (e2 ++ EvSleep delay :: e1). rewrite H2, <- app_assoc. split; [reflexivity|].
    apply logs_to_app; [exact L2|].
    apply (logs_to_app brain [_]); [apply logs_to_silent; reflexivity|exact L1].
Qed.

Lemma logs_among_app brains a b :
  logs_among brains a -> logs_among brains b -> logs_among brains (a ++ b).
Proof. unfold logs_among. rewrite appends_app. apply Forall_app_2. Qed.

Lemma logs_among_mono brains brains' evs :
  brains ⊆ brains' -> logs_among brains evs -> logs_among brains' evs.
Proof.
  intros Hsub H. eapply Forall_impl; [exact H|].
  intros pd (b & Hb & Hpd). exists b. split; [auto|exact Hpd].
Qed.

Lemma logs_to_among brain evs : logs_to brain evs -> logs_among [brain] evs.
Proof.
  intros H. eapply Forall_impl; [exact H|].
  intros pd Hpd. exists brain. split; [apply list_elem_of_singleton; reflexivity|exact Hpd].
Qed.

Lemma scrape_brains_logs fuel delay brains tr :
  exists evs,
    fst (scrape_brains E fuel delay brains tr) = evs ++ tr
    /\ logs_among (fst <$> brains) evs.
Proof.
  revert tr. induction brains as [|[brain urls] brains IH]; intros tr; cbn [scrape_brains].
  - exists []. split; [reflexivity|constructor].
  - destruct (scrape_brain_logs fuel delay brain urls tr) as (e1 & H1 & L1).
    destruct (scrape_brain E fuel delay brain urls tr) as [tr1 out1].
    cbn [fst] in H1. subst tr1.
    assert (A1 : logs_among (fst <$> (brain, urls) :: brains) e1).
    { eapply logs_among_mono; [|apply logs_to_among, L1].
      intros x Hx. apply list_elem_of_singleton in Hx. subst x. left. }
    destruct out1 as [|msg|]; [|exists e1; auto|exists e1; auto].
    destruct (IH (e1 ++ tr)) as (e2 & H2 & L2).
    exists (e2 ++ e1). rewrite H2, <- app_assoc. split; [reflexivity|].
    apply logs_among_app; [|exact A1].
    eapply logs_among_mono; [|exact L2]. intros x Hx. right. exact Hx.
Qed.


(** X24: whatever the sites answer, and however far the run gets (to its
    end, to an exception, or as far as [fuel] rounds of each search
    take it), [scrape_all_brains] appends only to the logs of the brains
    of the configuration, one file [legal_rag_data/<brain>.jsonl] per
    brain, and every append is one complete line: a text that holds no
    newline, and the newline that ends it. *)
Theorem scrape_all_brains_logs :
  forall (fuel : nat) (delay : Z) (path data : string),
    (path, data) ∈ appends (fst (scrape_all_brains E fuel delay)) ->
    exists brain line,
      brain ∈ (fst <$> Config.BRAINS)
      /\ path = "legal_rag_data/" +:+ brain +:+ ".jsonl"
      /\ data = line +:+ Str.nl
      /\ Str.mem (ascii_of_N 10) line = false.
Proof.
  intros fuel delay path data Hin. unfold scrape_all_brains in Hin.
  destruct (scrape_brains_logs fuel delay Config.BRAINS []) as (evs & H & L).
  rewrite H, app_nil_r in Hin. unfold logs_among in L. rewrite Forall_forall in L.
  destruct (L _ Hin) as (brain & Hb & Hp & line & Hd & Hn). cbn [fst snd] in *.
  exists brain, line. split; [exact Hb|]. split; [|split; [exact Hd|exact Hn]].
  rewrite Hp. clear -Hb. cbn in Hb.
  repeat (apply elem_of_cons in Hb as [->|Hb]; [reflexivity|]).
  inversion Hb.
Qed.

End BrainRuns.

Lemma scrape_all_brains_logs_witness :
  snd (Scrape.scrape_all_brains Demo.repeating 2 1000) = Scrape.Unfinished
  /\ exists path data,
       (path, data) ∈ appends (fst (Scrape.scrape_all_brains Demo.repeating 2 1000))
       /\ exists brain line,
            brain ∈ (fst <$> Config.BRAINS)
            /\ path = "legal_rag_data/" +:+ brain +:+ ".jsonl"
            /\ data = line +:+ Str.nl
            /\ Str.mem (ascii_of_N 10) line = false.
Proof.
  split; [vm_compute; reflexivity|].
  pose (tr := fst (Scrape.scrape_all_brains Demo.repeating 2 1000)).
  pose (pd := default (EmptyString, EmptyString) (head (appends tr))).
  assert (Hin : (fst pd, snd pd) ∈ appends tr) by (vm_compute; left).
  exists (fst pd), (snd pd). split; [exact Hin|].
  exact (scrape_all_brains_logs Demo.repeating 2 1000 (fst pd) (snd pd) Hin).
Defined.


(** Where no directory can be made, the run of [scrape_url_for_brain] on
    a payload ends with the exception, after its request and with no
    record; the search of a site that repeats its items has not returned
    after any number of rounds, and has then recorded its one item. *)
Lemma runs_that_do_not_return :
  Scrape.scrape_url_for_brain (Demo.locked Demo.papers) 0 "nda_brain"
    "https://example.com/data.zip" []
  = ([Env.EvGet "https://example.com/data.zip" 0], Scrape.Raised "Permission denied")
  /\ snd (Scrape.scrape_url_for_brain Demo.repeating 3 "nda_brain"
            "https://archive.org/search?query=nda" []) = Scrape.Unfinished
  /\ length (appends (fst (Scrape.scrape_url_for_brain Demo.repeating 3 "nda_brain"
                             "https://archive.org/search?query=nda" []))) = 1%nat.
Proof. repeat split; vm_compute; reflexivity. Qed.

(** ** The archive client (archive.py) *)

Section ArchiveClient.

Import Json Archive.

Variable E : env.

(** *** Choosing the files of an item *)

Lemma first_file_spec (test : fileinfo -> bool) (files : list fileinfo) :
  match first_file test files with
  | Some f =>
      exists before after,
        files = before ++ f :: after
        /\ Forall (fun g => test g = false) before /\ test f = true
  | None => Forall (fun g => test g = false) files
  end.
Proof.
  induction files as [|g files IH]; cbn [first_file]; [constructor|].
  destruct (test g) eqn:Hg.
  - exists [], files. split; [reflexivity|]. split; [constructor|exact Hg].
  - destruct (first_file test files) as [f|].
    + destruct IH as (before & after & -> & Hb & Hf).
      exists (g :: before), after. split; [reflexivity|]. split; [constructor; assumption|exact Hf].
    + constructor; assumption.
Qed.

(** X25: [choose_text_and_pdf] takes the files in the order of the
    metadata, not in an order of preference: the text file is the first
    file whose format holds [djvutxt] or [text] or whose name ends in
    [.txt] (letter case apart), the PDF file the first whose format holds
    [pdf] or whose name ends in [.pdf]; each is [None] exactly when no
    file passes.  A file of the format [Text PDF] passes both tests. *)
Theorem choose_text_and_pdf_first :
  forall files : list fileinfo,
    let chosen (test : fileinfo -> bool) (r : option fileinfo) :=
      match r with
      | Some f =>
          exists before after,
            files = before ++ f :: after
            /\ Forall (fun g => test g = false) before /\ test f = true
      | None => Forall (fun g => test g = false) files
      end in
    chosen text_like (fst (choose_text_and_pdf files))
    /\ chosen pdf_like (snd (choose_text_and_pdf files))
    /\ forall nm, text_like {| format := Text "Text PDF"; name := nm |} = true
                  /\ pdf_like {| format := Text "Text PDF"; name := nm |} = true.
Proof.
  intros files chosen. split; [apply first_file_spec|]. split; [apply first_file_spec|].
  intros nm. split; reflexivity.
Qed.

(** *** The search *)

(** The number of pages is the quotient rounded up, as long as the
    quotient is a double: 120 results in pages of 50 are 3 pages, and
    100 are 2; but [2 ^ 53 + 1] is no double, the nearest one is
    [2 ^ 53]; and [2 ^ 1024] is too large for one. *)
Lemma total_pages_rounds :
  total_pages 120 50 = Some 3
  /\ total_pages 100 50 = Some 2
  /\ total_pages (2 ^ 53 + 1) 1 = Some (2 ^ 53)
  /\ total_pages (2 ^ 1024) 1 = None.
Proof. vm_compute. repeat split; reflexivity. Qed.

Lemma searches_app a b : searches (a ++ b) = searches a ++ searches b.
Proof. apply omap_app. Qed.

Lemma requests_app a b : requests (a ++ b) = requests a ++ requests b.
Proof. apply omap_app. Qed.

Lemma stores_app a b : stores (a ++ b) = stores a ++ stores b.
Proof. apply omap_app. Qed.

Lemma add_docs_spec (max_items : Z) (docs all_docs : list doc) :
  Z.of_nat (length all_docs) < max_items ->
  all_docs `prefix_of` add_docs max_items docs all_docs
  /\ Z.of_nat (length (add_docs max_items docs all_docs)) <= max_items
  /\ (docs <> [] -> (length all_docs < length (add_docs max_items docs all_docs))%nat).
Proof.
  revert all_docs. induction docs as [|d docs IH]; intros all_docs Hlt; cbn [add_docs].
  - split; [reflexivity|]. split; [lia|]. intros H. contradiction.
  - assert (Hlen : length (all_docs ++ [d]) = S (length all_docs)).
    { rewrite length_app. simpl. lia. }
    destruct (Z.of_nat (length (all_docs ++ [d])) >=? max_items) eqn:Hge.
    + split; [apply prefix_app_r; reflexivity|]. split; [lia|]. intros _. lia.
    + destruct (IH (all_docs ++ [d])) as (P1 & P2 & P3); [lia|].
      split; [etransitivity; [apply prefix_app_r; reflexivity|exact P1]|].
      split; [exact P2|]. intros _.
      apply prefix_length in P1. lia.
Qed.

Lemma pages_from_cons (query : string) (rows page : Z) (n : nat) :
  (query, rows, page)
    :: ((fun i : nat => (query, rows, page + 1 + Z.of_nat i)) <$> seq 0 n)
  = (fun i : nat => (query, rows, page + Z.of_nat i)) <$> seq 0 (S n).
Proof.
  cbn [seq fmap list_fmap]. rewrite Z.add_0_r. f_equal.
  rewrite <- fmap_S_seq, <- list_fmap_compose. apply list_fmap_ext.
  intros _ i _. cbn. f_equal. lia.
Qed.

Lemma search_pages_spec (query : string) (max_items rows sleep : Z) (fuel : nat)
  (all_docs : list doc) (page : Z) (tr : list action) :
  (length all_docs <= Z.to_nat max_items)%nat ->
  (Z.to_nat max_items - length all_docs < fuel)%nat ->
  exists evs r,
    search_pages E fuel query max_items rows sleep all_docs page tr = Some (evs ++ tr, r)
    /\ (length (searches evs) <= Z.to_nat max_items - length all_docs)%nat
    /\ rev (searches evs)
       = (fun i : nat => (query, rows, page + Z.of_nat i)) <$> seq 0 (length (searches evs))
    /\ requests evs = [] /\ stores evs = []
    /\ forall docs, r = Ok docs ->
         all_docs `prefix_of` docs /\ (length docs <= Z.to_nat max_items)%nat.
Proof.
  revert all_docs page tr.
  induction fuel as [|fuel IH]; intros all_docs page tr Hle Hfuel; [lia|].
  cbn [search_pages].
  destruct (Z.of_nat (length all_docs) <? max_items) eqn:Hlt; cbn [negb].
  2: { exists [], (Ok all_docs). split; [reflexivity|]. split; [simpl; lia|].
       split; [reflexivity|]. split; [reflexivity|]. split; [reflexivity|].
       intros docs [= <-]. split; [reflexivity|exact Hle]. }
  apply Z.ltb_lt in Hlt.
  assert (Hone :
    forall r, (forall docs, r = Ok docs ->
                 all_docs `prefix_of` docs /\ (length docs <= Z.to_nat max_items)%nat) ->
      exists evs r',
        Some (AcSearch query rows page :: tr, r) = Some (evs ++ tr, r')
        /\ (length (searches evs) <= Z.to_nat max_items - length all_docs)%nat
        /\ rev (searches evs)
           = (fun i : nat => (query, rows, page + Z.of_nat i))
               <$> seq 0 (length (searches evs))
        /\ requests evs = [] /\ stores evs = []
        /\ forall docs, r' = Ok docs ->
             all_docs `prefix_of` docs /\ (length docs <= Z.to_nat max_items)%nat).
  { intros r Hr. exists [AcSearch query rows page], r. split; [reflexivity|].
    split; [simpl; lia|]. split; [simpl; rewrite Z.add_0_r; reflexivity|].
    split; [reflexivity|]. split; [reflexivity|exact Hr]. }
  destruct (adv_search E tr query rows page) as [msg|[docs num_found]].
  { apply Hone. intros docs [=]. }
  destruct docs as [|d docs].
  { apply Hone. intros docs [= <-]. split; [reflexivity|exact Hle]. }
  destruct (add_docs_spec max_items (d :: docs) all_docs Hlt) as (P1 & P2 & P3).
  specialize (P3 ltac:(discriminate)).
  set (all_docs' := add_docs max_items (d :: docs) all_docs) in *.
  destruct (rows =? 0).
  { apply Hone. intros docs' [=]. }
  destruct (total_pages num_found rows) as [total|].
  2: { apply Hone. intros docs' [=]. }
  destruct ((page >=? total)
            || (Z.of_nat (length all_docs') >=? max_items)) eqn:Hstop.
  { apply Hone. intros docs' [= <-]. split; [exact P1|lia]. }
  apply orb_false_elim in Hstop as [_ Hmore].
  destruct (IH all_docs' (page + 1) (AcSleep sleep :: AcSearch query rows page :: tr))
    as (evs & r & H & N & Pg & Rq & St & Docs); [lia|lia|].
  exists (evs ++ [AcSleep sleep; AcSearch query rows page]), r.
  rewrite H, <- app_assoc. split; [reflexivity|].
  rewrite searches_app, requests_app, stores_app, Rq, St, length_app, rev_app_distr, Pg.
  change (searches [AcSleep sleep; AcSearch query rows page]) with [(query, rows, page)].
  cbn [length rev app].
  split; [lia|]. split.
  { rewrite Nat.add_1_r. apply pages_from_cons. }
  split; [reflexivity|]. split; [reflexivity|].
  intros docs' Hd. destruct (Docs docs' Hd) as [Q1 Q2].
  split; [etransitivity; [exact P1|exact Q1]|exact Q2].
Qed.

(** X26: [search_archive_docs] ends after at most [max_items] requests:
    every further page needs a page before it that gave a document.  It
    asks for the pages 1, 2, 3, ... in turn, with the same query and
    [rows], and returns at most [max_items] documents; for a [max_items]
    that is not positive it asks for nothing and returns the empty
    list. *)
Theorem search_archive_docs_bounded :
  forall (fuel : nat) (query : string) (max_items rows sleep : Z) (tr : list action),
    (Z.to_nat max_items < fuel)%nat ->
    exists evs r,
      search_archive_docs E fuel query max_items rows sleep tr = Some (evs ++ tr, r)
      /\ (length (searches evs) <= Z.to_nat max_items)%nat
      /\ rev (searches evs)
         = (fun i : nat => (query, rows, 1 + Z.of_nat i)) <$> seq 0 (length (searches evs))
      /\ (forall docs, r = Ok docs -> (length docs <= Z.to_nat max_items)%nat)
      /\ (max_items <= 0 -> evs = [] /\ r = Ok []).
Proof.
  intros fuel query max_items rows sleep tr Hfuel. unfold search_archive_docs.
  destruct (search_pages_spec query max_items rows sleep fuel [] 1 tr)
    as (evs & r & H & N & Pg & _ & _ & Docs); [simpl; lia|simpl; lia|].
  destruct (decide (max_items <= 0)) as [Hm|Hm].
  - destruct fuel as [|fuel]; [lia|]. cbn [search_pages length].
    replace (Z.of_nat 0 <? max_items) with false by (symmetry; apply Z.ltb_ge; lia).
    exists [], (Ok []). split; [reflexivity|]. split; [simpl; lia|].
    split; [reflexivity|]. split; [intros docs [= <-]; simpl; lia|]. auto.
  - exists evs, r. split; [exact H|]. split; [simpl in N; lia|]. split; [exact Pg|].
    split; [intros docs Hd; apply (Docs docs Hd)|]. intros Hm'. contradiction.
Qed.

End ArchiveClient.

Section ArchiveFiles.

Import Json Archive.

Variable E : env.

(** *** Downloads *)

Lemma startswith_app (p s : string) : Str.startswith p (p +:+ s) = true.
Proof.
  induction p as [|a p IH]; [destruct s; reflexivity|].
  change (String a p +:+ s) with (String a (p +:+ s)).
  unfold Str.startswith in *. cbn [String.prefix].
  destruct (ascii_dec a a); [exact IH|contradiction].
Qed.

Lemma stored_later (disk : string -> option string) (path : string)
  (later tr : list action) :
  is_Some (stored disk path tr) -> is_Some (stored disk path (later ++ tr)).
Proof.
  intros H. induction later as [|a later IH]; [exact H|].
  destruct a; cbn [app stored]; try exact IH.
  destruct (String.eqb path0 path); [eexists; reflexivity|exact IH].
Qed.

Lemma exists_later (path : string) (later tr : list action) :
  exists_ E path tr = true -> exists_ E path (later ++ tr) = true.
Proof.
  unfold exists_. rewrite !bool_decide_eq_true. apply stored_later.
Qed.

Lemma download_path_inside (identifier name : string) :
  Str.path_join ARCHIVE_RAW_DIR (download_name identifier name)
  = ARCHIVE_RAW_DIR +:+ "/" +:+ download_name identifier name
  /\ Str.mem "/" (download_name identifier name) = false.
Proof.
  assert (H : Str.mem "/" (download_name identifier name) = false).
  { unfold download_name, safe_filename.
    apply (sanitised_component "-_.+ "); reflexivity. }
  split; [|exact H].
  apply StrMore.path_join_plain; [discriminate|reflexivity|exact H].
Qed.

Lemma download_file_spec (identifier : string) (f : fileinfo) (tr : list action) :
  match asked_name f with
  | None => download_file E identifier f tr = (tr, Raise (KeyError "name"))
  | Some nm =>
      let url := DOWNLOAD_BASE_URL +:+ identifier +:+ "/" +:+ nm in
      let path := ARCHIVE_RAW_DIR +:+ "/" +:+ download_name identifier nm in
      (exists_ E path tr = true /\ download_file E identifier f tr = (tr, Ok path))
      \/ (exists_ E path tr = false
          /\ ((exists e, download_file E identifier f tr = (AcGet url :: tr, Raise e))
              \/ exists content,
                   download_file E identifier f tr
                   = (AcWrite path content :: AcGet url :: tr, Ok path)))
  end.
Proof.
  unfold asked_name, download_file.
  destruct (name f) as [| |s]; [reflexivity| |].
  - cbv zeta. rewrite (proj1 (download_path_inside identifier "None")).
    destruct (exists_ E _ tr); [left; split; reflexivity|right; split; [reflexivity|]].
    destruct (get_content E tr _) as [msg|content]; [left; eexists; reflexivity|].
    destruct (open_error E _ _) as [msg|]; [left; eexists; reflexivity|].
    right. eexists. reflexivity.
  - cbv zeta. rewrite (proj1 (download_path_inside identifier s)).
    destruct (exists_ E _ tr); [left; split; reflexivity|right; split; [reflexivity|]].
    destruct (get_content E tr _) as [msg|content]; [left; eexists; reflexivity|].
    destruct (open_error E _ _) as [msg|]; [left; eexists; reflexivity|].
    right. eexists. reflexivity.
Qed.

Lemma exists_written (path content : string) (tr : list action) :
  exists_ E path (AcWrite path content :: tr) = true.
Proof.
  unfold exists_. apply bool_decide_eq_true. cbn [stored]. rewrite String.eqb_refl.
  eexists. reflexivity.
Qed.

(** X27: a file is downloaded once.  When [download_file] returns a
    path, the path lies directly inside [legal_rag_data/archive_raw], the
    file is there, and the call either found it there and did nothing or
    made one request and wrote the answer to the path; from then on
    every call for the same file returns the same path without a request
    and without writing, whatever was done in between. *)
Theorem download_file_once :
  forall (identifier : string) (f : fileinfo) (tr tr' : list action) (path : string),
    download_file E identifier f tr = (tr', Ok path) ->
    inside ARCHIVE_RAW_DIR path
    /\ exists_ E path tr' = true
    /\ ((exists_ E path tr = true /\ tr' = tr)
        \/ (exists_ E path tr = false
            /\ exists url content, tr' = AcWrite path content :: AcGet url :: tr
                                   /\ Str.startswith DOWNLOAD_BASE_URL url = true))
    /\ forall later, download_file E identifier f (later ++ tr') = (later ++ tr', Ok path).
Proof.
  intros identifier f tr tr' path H.
  pose proof (download_file_spec identifier f tr) as Hspec.
  destruct (asked_name f) as [nm|] eqn:Hname; [|rewrite Hspec in H; discriminate].
  cbv zeta in Hspec.
  assert (Hpath : path = ARCHIVE_RAW_DIR +:+ "/" +:+ download_name identifier nm
                  /\ exists_ E path tr' = true
                  /\ ((exists_ E path tr = true /\ tr' = tr)
                      \/ (exists_ E path tr = false
                          /\ exists url content,
                               tr' = AcWrite path content :: AcGet url :: tr
                               /\ Str.startswith DOWNLOAD_BASE_URL url = true))).
  { destruct Hspec as [[Hex Hd]|[Hex [[e Hd]|[content Hd]]]]; rewrite Hd in H.
    - injection H as <- <-. split; [reflexivity|]. split; [exact Hex|]. left. auto.
    - discriminate.
    - injection H as <- <-. split; [reflexivity|]. split; [apply exists_written|].
      right. split; [exact Hex|]. eexists _, content. split; [reflexivity|].
      apply startswith_app. }
  destruct Hpath as (-> & Hthere & Hdone).
  split; [exists (download_name identifier nm); split;
          [apply download_path_inside|reflexivity]|].
  split; [exact Hthere|]. split; [exact Hdone|].
  intros later.
  pose proof (download_file_spec identifier f (later ++ tr')) as Hagain.
  rewrite Hname in Hagain. cbv zeta in Hagain.
  rewrite (exists_later _ later tr' Hthere) in Hagain.
  destruct Hagain as [[_ Hd]|[Hex _]]; [exact Hd|discriminate].
Qed.

End ArchiveFiles.

Section ArchiveItems.

Import Json Archive.

Variable E : env.

(** *** The items of a search *)

Lemma download_file_events (identifier : string) (f : fileinfo) (tr : list action) :
  exists evs r,
    download_file E identifier f tr = (evs ++ tr, r)
    /\ searches evs = []
    /\ (length (requests evs) <= 1)%nat
    /\ Forall item_request (requests evs)
    /\ Forall (inside ARCHIVE_RAW_DIR) (stores evs)
    /\ forall p, r = Ok p -> inside ARCHIVE_RAW_DIR p.
Proof.
  pose proof (download_file_spec E identifier f tr) as H.
  destruct (asked_name f) as [nm|].
  2: { exists [], (Raise (KeyError "name")). rewrite H. split; [reflexivity|].
       split; [reflexivity|]. split; [simpl; lia|]. split; [constructor|].
       split; [constructor|]. intros p [=]. }
  cbv zeta in H.
  assert (Hin : inside ARCHIVE_RAW_DIR
                  (ARCHIVE_RAW_DIR +:+ "/" +:+ download_name identifier nm)).
  { exists (download_name identifier nm). split; [apply download_path_inside|reflexivity]. }
  assert (Hurl : item_request (DOWNLOAD_BASE_URL +:+ identifier +:+ "/" +:+ nm)).
  { right. apply startswith_app. }
  destruct H as [[_ H]|[_ [[e H]|[content H]]]]; rewrite H.
  - exists [], (Ok (ARCHIVE_RAW_DIR +:+ "/" +:+ download_name identifier nm)).
    split; [reflexivity|]. split; [reflexivity|]. split; [simpl; lia|].
    split; [constructor|]. split; [constructor|]. intros p [= <-]. exact Hin.
  - exists [AcGet (DOWNLOAD_BASE_URL +:+ identifier +:+ "/" +:+ nm)], (Raise e).
    split; [reflexivity|]. split; [reflexivity|]. split; [simpl; lia|].
    split; [constructor; [exact Hurl|constructor]|]. split; [constructor|]. intros p [=].
  - exists [AcWrite (ARCHIVE_RAW_DIR +:+ "/" +:+ download_name identifier nm) content;
            AcGet (DOWNLOAD_BASE_URL +:+ identifier +:+ "/" +:+ nm)],
           (Ok (ARCHIVE_RAW_DIR +:+ "/" +:+ download_name identifier nm)).
    split; [reflexivity|]. split; [reflexivity|]. split; [simpl; lia|].
    split; [constructor; [exact Hurl|constructor]|].
    split; [constructor; [exact Hin|constructor]|]. intros p [= <-]. exact Hin.
Qed.

Lemma fetch_text_spec (identifier : string) (text_file pdf_file : option fileinfo)
  (tr : list action) :
  exists evs text file_type src,
    fetch_text E identifier text_file pdf_file tr = (evs ++ tr, (text, file_type, src))
    /\ searches evs = []
    /\ (length (requests evs) <= 1)%nat
    /\ Forall item_request (requests evs)
    /\ Forall (inside ARCHIVE_RAW_DIR) (stores evs)
    /\ (((file_type = "text" \/ file_type = "pdf")
         /\ exists p, src = Some p /\ inside ARCHIVE_RAW_DIR p)
        \/ (file_type = "none" /\ text = EmptyString
            /\ (src = None \/ exists p, src = Some p /\ inside ARCHIVE_RAW_DIR p))).
Proof.
  unfold fetch_text.
  destruct text_file as [f|]; [|destruct pdf_file as [f|]].
  - destruct (download_file_events identifier f tr) as (evs & r & H & S & N & U & W & P).
    rewrite H. destruct r as [p|e].
    + destruct (read_file E p (evs ++ tr)) as [bytes|];
        eexists evs, _, _, _; (split; [reflexivity|]); repeat (split; [assumption|]).
      * left. split; [left; reflexivity|]. exists p. auto.
      * right. split; [reflexivity|]. split; [reflexivity|]. right. exists p. auto.
    + eexists evs, _, _, _. split; [reflexivity|]. repeat (split; [assumption|]).
      right. auto.
  - destruct (download_file_events identifier f tr) as (evs & r & H & S & N & U & W & P).
    rewrite H. destruct r as [p|e].
    + eexists evs, _, _, _. split; [reflexivity|]. repeat (split; [assumption|]).
      left. split; [right; reflexivity|]. exists p. auto.
    + eexists evs, _, _, _. split; [reflexivity|]. repeat (split; [assumption|]).
      right. auto.
  - exists [], EmptyString, "none", None. split; [reflexivity|]. split; [reflexivity|].
    split; [simpl; lia|]. split; [constructor|]. split; [constructor|]. right. auto.
Qed.

Lemma scrape_doc_spec (d : doc) (id : string) (tr : list action) :
  identifier d = Some id ->
  exists evs item,
    scrape_doc E d id tr = (evs ++ tr, item)
    /\ item_ok d item
    /\ searches evs = []
    /\ (length (requests evs) <= 2)%nat
    /\ Forall item_request (requests evs)
    /\ Forall (inside ARCHIVE_RAW_DIR) (stores evs).
Proof.
  intros Hid. unfold scrape_doc, fetch_metadata.
  assert (Hmeta : item_request (METADATA_URL +:+ id)) by (left; apply startswith_app).
  destruct (get_metadata E tr _) as [msg|meta].
  - eexists [_], _. split; [reflexivity|]. split.
    + split.
      * right. reflexivity.
      * exists id. split; [exact Hid|]. split; reflexivity.
      * repeat split.
      * eexists. reflexivity.
      * right. split; reflexivity.
      * intros _. split; [reflexivity|]. split; [reflexivity|]. eexists. reflexivity.
    + split; [reflexivity|]. split; [simpl; lia|].
      split; [constructor; [exact Hmeta|constructor]|constructor].
  - destruct (choose_text_and_pdf (default [] (files meta))) as [text_file pdf_file].
    destruct (fetch_text_spec id text_file pdf_file (AcGet (METADATA_URL +:+ id) :: tr))
      as (evs & text & file_type & src & H & S & N & U & W & F).
    rewrite H.
    exists (evs ++ [AcGet (METADATA_URL +:+ id)]),
           (item_head d id
              ++ [("file_type", PStr file_type); ("source_file", of_option src);
                  ("text", PStr text)]).
    rewrite <- app_assoc. split; [reflexivity|]. split.
    + split.
      * left. reflexivity.
      * exists id. split; [exact Hid|]. split; reflexivity.
      * repeat split.
      * eexists. reflexivity.
      * destruct F as [[Ft (p & -> & Hp)]|(-> & -> & _)].
        -- left. split; [destruct Ft as [-> | ->]; [left|right]; reflexivity|].
           exists p. split; [reflexivity|exact Hp].
        -- right. split; reflexivity.
      * intros [=].
    + rewrite searches_app, requests_app, stores_app, S, length_app.
      split; [reflexivity|]. split; [simpl; lia|].
      split; [apply Forall_app_2; [exact U|constructor; [exact Hmeta|constructor]]|].
      rewrite app_nil_r. exact W.
Qed.

Lemma scrape_docs_spec (docs : list doc) (items : list dict) (tr : list action) :
  exists evs r,
    scrape_docs E docs items tr = (evs ++ tr, r)
    /\ searches evs = []
    /\ (length (requests evs) <= 2 * length docs)%nat
    /\ Forall item_request (requests evs)
    /\ Forall (inside ARCHIVE_RAW_DIR) (stores evs)
    /\ forall items', r = Ok items' ->
         exists new, items' = items ++ new /\ Forall2 item_ok docs new.
Proof.
  revert items tr. induction docs as [|d docs IH]; intros items tr; cbn [scrape_docs].
  - exists [], (Ok items). split; [reflexivity|]. split; [reflexivity|].
    split; [simpl; lia|]. split; [constructor|]. split; [constructor|].
    intros items' [= <-]. exists []. rewrite app_nil_r. split; [reflexivity|constructor].
  - destruct (identifier d) as [id|] eqn:Hid.
    2: { exists [], (Raise (KeyError "identifier")). split; [reflexivity|].
         split; [reflexivity|]. split; [simpl; lia|]. split; [constructor|].
         split; [constructor|]. intros items' [=]. }
    destruct (scrape_doc_spec d id tr Hid) as (e1 & item & H1 & Ok1 & S1 & N1 & U1 & W1).
    rewrite H1.
    destruct (IH (items ++ [item]) (e1 ++ tr)) as (e2 & r & H2 & S2 & N2 & U2 & W2 & R2).
    exists (e2 ++ e1), r. rewrite H2, <- app_assoc. split; [reflexivity|].
    rewrite searches_app, requests_app, stores_app, S1, S2, length_app.
    split; [reflexivity|]. split; [cbn [length]; lia|].
    split; [apply Forall_app_2; assumption|]. split; [apply Forall_app_2; assumption|].
    intros items' Hr. destruct (R2 items' Hr) as (new & -> & Hnew).
    exists (item :: new). rewrite <- app_assoc. split; [reflexivity|].
    constructor; assumption.
Qed.

Lemma search_pages_length (query : string) (max_items rows sleep : Z) (fuel : nat)
  (all_docs : list doc) (page : Z) (tr tr' : list action) (docs : list doc) :
  search_pages E fuel query max_items rows sleep all_docs page tr = Some (tr', Ok docs) ->
  (length all_docs <= Z.to_nat max_items)%nat ->
  (length docs <= Z.to_nat max_items)%nat.
Proof.
  revert all_docs page tr tr' docs.
  induction fuel as [|fuel IH]; intros all_docs page tr tr' docs;
    cbn [search_pages]; [discriminate|].
  destruct (Z.of_nat (length all_docs) <? max_items) eqn:Hlt; cbn [negb].
  2: { intros [= <- <-]. auto. }
  apply Z.ltb_lt in Hlt.
  destruct (adv_search E tr query rows page) as [msg|[ds num_found]]; [discriminate|].
  destruct ds as [|d ds]; [intros [= <- <-]; auto|].
  destruct (add_docs_spec max_items (d :: ds) all_docs Hlt) as (_ & P2 & _).
  destruct (rows =? 0); [discriminate|].
  destruct (total_pages num_found rows) as [total|]; [|discriminate].
  destruct (_ || _).
  - intros [= <- <-] _. cbn [add_docs] in P2. lia.
  - intros H _. apply IH in H; [exact H|lia].
Qed.

(** X28: [scrape_archive_search_to_items] returns one item per document
    of the search, in the order of the search, so at most [max_items]
    items.  An item carries the identifier and the five descriptive
    fields of its document and the item's page address; its file type is
    [text] or [pdf] with a source file directly inside
    [legal_rag_data/archive_raw], or [none] with an empty text; an item
    with an [error] entry (the metadata request failed) has the type
    [none] and no source file. *)
Theorem scrape_archive_search_to_items_records :
  forall (fuel : nat) (search_url : string) (max_items : Z) (tr tr' : list action)
         (items : list dict),
    scrape_archive_search_to_items E fuel search_url max_items tr = Some (tr', Ok items) ->
    exists query tr1 docs,
      extract_query_from_search_url E search_url = Ok (Some query)
      /\ query <> EmptyString
      /\ search_archive_docs E fuel query max_items 50 1000 tr = Some (tr1, Ok docs)
      /\ Forall2 item_ok docs items
      /\ (length items <= Z.to_nat max_items)%nat.
Proof.
  intros fuel search_url max_items tr tr' items. unfold scrape_archive_search_to_items.
  destruct (extract_query_from_search_url E search_url) as [[query|]|e]; try discriminate.
  destruct query as [|c query]; [discriminate|].
  set (q := String c query).
  destruct (search_archive_docs E fuel q max_items 50 1000 tr) as [[tr1 [docs|e]]|] eqn:Hs;
    try discriminate.
  intros H. exists q, tr1, docs. split; [reflexivity|]. split; [discriminate|].
  split; [exact Hs|].
  destruct (scrape_docs_spec docs [] tr1) as (evs & r & H1 & _ & _ & _ & _ & R).
  rewrite H1 in H. injection H as _ ->.
  destruct (R items eq_refl) as (new & -> & Hnew). cbn [app].
  split; [exact Hnew|].
  rewrite <- (Forall2_length _ _ _ Hnew).
  apply (search_pages_length _ _ _ _ _ _ _ _ _ _ Hs). simpl. lia.
Qed.

(** X29: with more fuel than [max_items], a run of
    [scrape_archive_search_to_items] ends, with items or with an
    exception, after at most [max_items] search requests and at most two
    other requests per document: one for the metadata and one for a
    file.  It writes only files directly inside
    [legal_rag_data/archive_raw].  A URL without a [query] value makes it
    raise [ValueError] before any request. *)
Theorem scrape_archive_search_to_items_bounded :
  forall (fuel : nat) (search_url : string) (max_items : Z) (tr : list action),
    (Z.to_nat max_items < fuel)%nat ->
    exists evs r,
      scrape_archive_search_to_items E fuel search_url max_items tr = Some (evs ++ tr, r)
      /\ (length (searches evs) <= Z.to_nat max_items)%nat
      /\ (length (requests evs) <= 2 * Z.to_nat max_items)%nat
      /\ Forall (fun url => Str.startswith METADATA_URL url = true
                            \/ Str.startswith DOWNLOAD_BASE_URL url = true)
                (requests evs)
      /\ Forall (inside ARCHIVE_RAW_DIR) (stores evs)
      /\ (forall items, r = Ok items -> (length items <= Z.to_nat max_items)%nat)
      /\ (default [EmptyString] (parse_qs E (url_query E search_url) !! "query")
          = [EmptyString] ->
          evs = []
          /\ r = Raise (ValueError ("Could not extract 'query' parameter from URL: "
                                      +:+ search_url))).
Proof.
  intros fuel search_url max_items tr Hfuel.
  assert (Hquiet : forall r : result (list dict),
            (forall items, r <> Ok items) ->
            (default [EmptyString] (parse_qs E (url_query E search_url) !! "query")
             = [EmptyString] ->
             r = Raise (ValueError ("Could not extract 'query' parameter from URL: "
                                      +:+ search_url))) ->
            exists evs r',
              Some (tr, r) = Some (evs ++ tr, r')
              /\ (length (searches evs) <= Z.to_nat max_items)%nat
              /\ (length (requests evs) <= 2 * Z.to_nat max_items)%nat
              /\ Forall item_request (requests evs)
              /\ Forall (inside ARCHIVE_RAW_DIR) (stores evs)
              /\ (forall items, r' = Ok items -> (length items <= Z.to_nat max_items)%nat)
              /\ (default [EmptyString] (parse_qs E (url_query E search_url) !! "query")
                  = [EmptyString] ->
                  evs = []
                  /\ r' = Raise (ValueError
                                   ("Could not extract 'query' parameter from URL: "
                                      +:+ search_url)))).
  { intros r Hr Hv. exists [], r. split; [reflexivity|]. split; [simpl; lia|].
    split; [simpl; lia|]. split; [constructor|]. split; [constructor|].
    split; [intros items ->; destruct (Hr items eq_refl)|]. auto. }
  unfold scrape_archive_search_to_items, extract_query_from_search_url.
  destruct (default [EmptyString] (parse_qs E (url_query E search_url) !! "query"))
    as [|q values] eqn:Hq.
  { apply Hquiet; [discriminate|discriminate]. }
  destruct q as [|c q].
  { apply Hquiet; [discriminate|reflexivity]. }
  destruct (unquote_plus E (String c q)) as [|c' query] eqn:Hu.
  { apply Hquiet; [discriminate|discriminate]. }
  set (qr := String c' query).
  destruct (search_pages_spec E qr max_items 50 1000 fuel [] 1 tr)
    as (e1 & r1 & H1 & N1 & _ & Rq1 & St1 & D1); [simpl; lia|simpl; lia|].
  unfold search_archive_docs. rewrite H1. cbn [length] in N1.
  destruct r1 as [docs|e].
  2: { exists e1, (Raise e). split; [reflexivity|]. split; [lia|].
       rewrite Rq1, St1. split; [simpl; lia|]. split; [constructor|].
       split; [constructor|]. split; [intros items [=]|discriminate]. }
  destruct (D1 docs eq_refl) as [_ Hdocs].
  destruct (scrape_docs_spec docs [] (e1 ++ tr)) as (e2 & r & H2 & S2 & N2 & U2 & W2 & R2).
  exists (e2 ++ e1), r. rewrite H2, <- app_assoc. split; [reflexivity|].
  rewrite searches_app, requests_app, stores_app, S2, Rq1, St1, !app_nil_r.
  split; [simpl; lia|]. split; [lia|]. split; [exact U2|]. split; [exact W2|].
  split; [|discriminate].
  intros items Hr. destruct (R2 items Hr) as (new & -> & Hnew). cbn [app].
  rewrite <- (Forall2_length _ _ _ Hnew). exact Hdocs.
Qed.

End ArchiveItems.

Lemma search_archive_docs_bounded_witness :
  (Z.to_nat 3 < 4)%nat
  /\ exists evs r,
       Archive.search_archive_docs ArchiveDemo.library 4 "nda" 3 50 1000 []
       = Some (evs ++ [], r)
       /\ (length (searches evs) <= Z.to_nat 3)%nat
       /\ rev (searches evs)
          = (fun i : nat => ("nda", 50, 1 + Z.of_nat i)) <$> seq 0 (length (searches evs))
       /\ (forall docs, r = Archive.Ok docs -> (length docs <= Z.to_nat 3)%nat)
       /\ (3 <= 0 -> evs = [] /\ r = Archive.Ok []).
Proof.
  assert (H : (Z.to_nat 3 < 4)%nat) by (vm_compute; lia).
  split; [exact H|].
  exact (search_archive_docs_bounded ArchiveDemo.library 4 "nda" 3 50 1000 [] H).
Defined.

Lemma download_file_once_witness :
  let f := {| Archive.format := Archive.Text "DjVuTXT";
              Archive.name := Archive.Text "nda-1_djvu.txt" |} in
  let path := "legal_rag_data/archive_raw/nda-1_nda-1_djvu.txt" in
  let tr' := [ Archive.AcWrite path
                 "bytes of https://archive.org/download/nda-1/nda-1_djvu.txt";
               Archive.AcGet "https://archive.org/download/nda-1/nda-1_djvu.txt" ] in
  Archive.download_file ArchiveDemo.library "nda-1" f [] = (tr', Archive.Ok path)
  /\ inside Archive.ARCHIVE_RAW_DIR path
  /\ Archive.exists_ ArchiveDemo.library path tr' = true
  /\ ((Archive.exists_ ArchiveDemo.library path [] = true /\ tr' = [])
      \/ (Archive.exists_ ArchiveDemo.library path [] = false
          /\ exists url content,
               tr' = Archive.AcWrite path content :: Archive.AcGet url :: []
               /\ Str.startswith Archive.DOWNLOAD_BASE_URL url = true))
  /\ forall later,
       Archive.download_file ArchiveDemo.library "nda-1" f (later ++ tr')
       = (later ++ tr', Archive.Ok path).
Proof.
  intros f path tr'.
  assert (H : Archive.download_file ArchiveDemo.library "nda-1" f [] = (tr', Archive.Ok path))
    by (vm_compute; reflexivity).
  split; [exact H|].
  exact (download_file_once ArchiveDemo.library "nda-1" f [] tr' path H).
Defined.

Lemma scrape_archive_search_to_items_records_witness :
  exists tr' items,
    Archive.scrape_archive_search_to_items ArchiveDemo.library 4
      "https://archive.org/search?query=nda" 3 [] = Some (tr', Archive.Ok items)
    /\ exists query tr1 docs,
         Archive.extract_query_from_search_url ArchiveDemo.library
           "https://archive.org/search?query=nda" = Archive.Ok (Some query)
         /\ query <> EmptyString
         /\ Archive.search_archive_docs ArchiveDemo.library 4 query 3 50 1000 []
            = Some (tr1, Archive.Ok docs)
         /\ Forall2 item_ok docs items
         /\ (length items <= Z.to_nat 3)%nat.
Proof.
  pose (run := Archive.scrape_archive_search_to_items ArchiveDemo.library 4
                 "https://archive.org/search?query=nda" 3 []).
  pose (tr' := match run with Some (t, _) => t | None => [] end).
  pose (items := match run with Some (_, Archive.Ok i) => i | _ => [] end).
  assert (H : Archive.scrape_archive_search_to_items ArchiveDemo.library 4
                "https://archive.org/search?query=nda" 3 []
              = Some (tr', Archive.Ok items)) by (vm_compute; reflexivity).
  exists tr', items. split; [exact H|].
  exact (scrape_archive_search_to_items_records ArchiveDemo.library 4
           "https://archive.org/search?query=nda" 3 [] tr' items H).
Defined.

Lemma scrape_archive_search_to_items_bounded_witness :
  (Z.to_nat 3 < 4)%nat
  /\ exists evs r,
       Archive.scrape_archive_search_to_items ArchiveDemo.library 4
         "https://archive.org/search?query=nda" 3 [] = Some (evs ++ [], r)
       /\ (length (searches evs) <= Z.to_nat 3)%nat
       /\ (length (requests evs) <= 2 * Z.to_nat 3)%nat
       /\ Forall (fun url => Str.startswith Archive.METADATA_URL url = true
                             \/ Str.startswith Archive.DOWNLOAD_BASE_URL url = true)
                 (requests evs)
       /\ Forall (inside Archive.ARCHIVE_RAW_DIR) (stores evs)
       /\ (forall items, r = Archive.Ok items -> (length items <= Z.to_nat 3)%nat)
       /\ (default [EmptyString]
             (Archive.parse_qs ArchiveDemo.library
                (Archive.url_query ArchiveDemo.library
                   "https://archive.org/search?query=nda") !! "query")
           = [EmptyString] ->
           evs = []
           /\ r = Archive.Raise
                    (Archive.ValueError
                       ("Could not extract 'query' parameter from URL: "
                          +:+ "https://archive.org/search?query=nda"))).
Proof.
  assert (H : (Z.to_nat 3 < 4)%nat) by (vm_compute; lia).
  split; [exact H|].
  exact (scrape_archive_search_to_items_bounded ArchiveDemo.library 4
           "https://archive.org/search?query=nda" 3 [] H).
Defined.
